(** * FormTrack content script: the capture engine

    A shallow embedding of the in-page capture engine of the FormTrack
    extension (content script): the ignore policy, the generic form
    extractor, provider detection, the retried provider capture, the
    submit-button watcher and the fetch / XMLHttpRequest interceptors,
    followed by the properties established about them.

    Conventions of the embedding.
    - A JavaScript string is a [string] (a sequence of bytes); case mapping
      is the ASCII one.
    - A JavaScript object used as a dictionary ([formData]) is a
      [gmap string JSValue] over its own properties; [Object.keys(o).length]
      is [size].  Properties inherited from [Object.prototype] are outside
      the model.
    - A thrown exception is the [Threw] outcome of the small exception monad
      below; [try { .. } catch] is [try_catch].
    - Everything the engine does to the outside world (messages to the
      background worker, timers, the call of a wrapped primitive) is an
      [Event] appended to a trace. *)

From Stdlib Require Import Ascii String List Bool Arith NArith ZArith Lia DecimalString.
From stdpp Require Import base option list strings gmap fin_maps.

Local Open Scope string_scope.

(** ** JavaScript strings *)

Definition is_upper (c : ascii) : bool :=
  let n := nat_of_ascii c in ((65 <=? n) && (n <=? 90))%nat.

Definition is_lower (c : ascii) : bool :=
  let n := nat_of_ascii c in ((97 <=? n) && (n <=? 122))%nat.

Definition lower_ascii (c : ascii) : ascii :=
  if is_upper c then ascii_of_nat (nat_of_ascii c + 32) else c.

Definition upper_ascii (c : ascii) : ascii :=
  if is_lower c then ascii_of_nat (nat_of_ascii c - 32) else c.

Fixpoint string_map (f : ascii -> ascii) (s : string) : string :=
  match s with
  | EmptyString => EmptyString
  | String c r => String (f c) (string_map f r)
  end.

(** [s.toLowerCase()] and [s.toUpperCase()] *)
Definition toLowerCase (s : string) : string := string_map lower_ascii s.
Definition toUpperCase (s : string) : string := string_map upper_ascii s.

(** [s.startsWith(p)] *)
Definition startsWith (p s : string) : bool := String.prefix p s.

(** [s.includes(needle)] *)
Fixpoint includes (needle s : string) : bool :=
  String.prefix needle s ||
  match s with
  | EmptyString => false
  | String _ r => includes needle r
  end.

(** [s.trim()] is truthy exactly when [s] has a character that is not
    white space. *)
Definition is_space (c : ascii) : bool :=
  let n := nat_of_ascii c in (((9 <=? n) && (n <=? 13)) || (n =? 32))%nat.

Fixpoint has_non_space (s : string) : bool :=
  match s with
  | EmptyString => false
  | String c r => negb (is_space c) || has_non_space r
  end.

Definition nonempty (s : string) : bool :=
  match s with EmptyString => false | _ => true end.

(** ** JavaScript values *)

#[warnings="-register-all"]
Inductive JSValue : Type :=
| VUndefined
| VNull
| VBool (b : bool)
| VNum (lexeme : string)
| VStr (s : string)
| VArr (items : list JSValue)
| VObj (members : list (string * JSValue))
| VHost (tag : string).

(** Truthiness of a value ([if (v)], [v || w], [!v]).  A number is kept as
    its lexeme; it is falsy when its digits before the exponent are all
    zero. *)
Fixpoint zero_lexeme (s : string) : bool :=
  match s with
  | EmptyString => true
  | String c r =>
      if (Ascii.eqb c "e" || Ascii.eqb c "E")%bool then true
      else (Ascii.eqb c "0" || Ascii.eqb c "." || Ascii.eqb c "-")%bool
           && zero_lexeme r
  end.

Definition truthy (v : JSValue) : bool :=
  match v with
  | VUndefined | VNull => false
  | VBool b => b
  | VNum l => negb (zero_lexeme l)
  | VStr s => nonempty s
  | VArr _ | VObj _ | VHost _ => true
  end.

Definition isArray (v : JSValue) : bool :=
  match v with VArr _ => true | _ => false end.

(** The field mapping of a submission ([formData], [fields]). *)
Abbreviation Fields := (gmap string JSValue).

(** ** IgnorePolicy *)

(** [DEFAULT_IGNORE_PATTERNS]: each pattern [/word/i] is given by its word. *)
Definition DEFAULT_IGNORE_PATTERNS : list string :=
  [ "login"; "signin"; "password"; "auth"; "bank"; "credit"; "payment" ].

(** [pattern.test(s)] for a case-insensitive literal pattern. *)
Definition pattern_test (pattern s : string) : bool :=
  includes (toLowerCase pattern) (toLowerCase s).

(** [shouldIgnore(url, action)]; an absent argument is [None]
    ([(url || '')]). *)
Definition shouldIgnore (url action : option string) : bool :=
  let urlStr := toLowerCase (default EmptyString url) in
  let actionStr := toLowerCase (default EmptyString action) in
  existsb (fun pattern => pattern_test pattern urlStr || pattern_test pattern actionStr)
          DEFAULT_IGNORE_PATTERNS.

(** ** GenericExtractor *)

(** A control of [form.elements], with the properties the extractor reads.
    [value] is [None] for a control without a [value] property. *)
Record Element := mkElement {
  name : string;
  type : string;
  disabled : bool;
  checked : bool;
  value : option string;
  files_length : nat;
  tagName : string
}.

Inductive Step (A : Type) : Type :=
| Continue
| Store (a : A).
Arguments Continue {A}.
Arguments Store {A} a.

(** The decimal rendering of a count, as a template literal prints it. *)
Definition decimal (n : nat) : string :=
  NilZero.string_of_uint (Nat.to_uint n).

(** The body of the loop up to the store: which value, if any, the control
    contributes. *)
Definition element_value (element : Element) : Step string :=
  if negb (nonempty (name element)) then Continue
  else if String.eqb (type element) "password" then Continue
  else if disabled element then Continue
  else
    let value_ : Step (option string) :=
      if String.eqb (type element) "checkbox" || String.eqb (type element) "radio" then
        if checked element then
          match value element with
          | Some v => if nonempty v then Store (Some v) else Store (Some "checked")
          | None => Store (Some "checked")
          end
        else Continue
      else if String.eqb (type element) "file" then
        if (0 <? files_length element)%nat
        then Store (Some (decimal (files_length element) ++ " file(s) selected"))
        else Continue
      else if String.eqb (tagName element) "SELECT" then Store (value element)
      else Store (value element) in
    match value_ with
    | Continue => Continue
    | Store None => Continue
    | Store (Some v) => if nonempty v then Store v else Continue
    end.

(** [formData[name]] receives [value]: a first value is stored as it is, a
    second one turns the entry into an array, later ones are pushed. *)
Definition store_value (formData : Fields) (key value_ : string) : Fields :=
  match formData !! key with
  | Some old =>
      if truthy old then
        match old with
        | VArr items => <[ key := VArr (items ++ [VStr value_])%list ]> formData
        | _ => <[ key := VArr [old; VStr value_] ]> formData
        end
      else <[ key := VStr value_ ]> formData
  | None => <[ key := VStr value_ ]> formData
  end.

Definition extract_step (formData : Fields) (element : Element) : Fields :=
  match element_value element with
  | Continue => formData
  | Store v => store_value formData (name element) v
  end.

(** [extractFormData(form)], [form] given by [form.elements]. *)
Definition extractFormData (form : list Element) : Fields :=
  fold_left extract_step form ∅.


(** ** Submissions, pages and the host *)

(** The canonical record handed to the background worker.  The native path
    builds it without a [source] member. *)
Record Submission := mkSubmission {
  url : string;
  action : string;
  timestamp : string;
  fields : Fields;
  title : string;
  source : option string
}.

(** The first argument of [fetch] and of [open]: a string, or an object
    given by what its [toString()] returns, or nothing. *)
Inductive UrlArg : Type :=
| UrlString (s : string)
| UrlObject (toString : string)
| UrlUndefined.

(** The [body] of a request. *)
Inductive Body : Type :=
| BodyAbsent
| BodyFormData (entries : list (string * JSValue))
| BodyString (s : string)
| BodyOther (tag : string).

Record Options := mkOptions {
  method : JSValue;
  body : Body
}.

Record FetchArgs := mkFetchArgs {
  url_arg : UrlArg;
  options : option Options
}.

(** An [XMLHttpRequest] with the two members the engine adds to it. *)
Record Xhr := mkXhr {
  xhr_id : nat;
  _formtrackUrl : UrlArg;
  _formtrackMethod : JSValue
}.

Inductive Exn : Type :=
| TypeError (msg : string)
| SyntaxError (msg : string)
| HostError (msg : string).

Inductive Outcome (A : Type) : Type :=
| Returned (a : A)
| Threw (e : Exn).
Arguments Returned {A} a.
Arguments Threw {A} e.

(** An element matched by the last-resort selector of the retried capture,
    with what the pass reads from it. *)
Record LastResortInput := mkLastResortInput {
  lr_value : string;
  lr_textContent : string;
  lr_name : option string;
  lr_ariaLabel : option string;
  lr_testid : option string;
  lr_heading : option string;
  lr_label : option string
}.

(** What the engine takes from its environment: the document, the three
    provider scrapers (arbitrary functions of the document: nothing below
    depends on what they return beyond its being a field mapping), the
    elements the last-resort selector matches, the built-in parsers
    ([JSON.parse] returns [None] when it throws) and the primitives the
    interceptors wrap. *)
Class Host := mkHost {
  Dom : Type;
  Response : Type;
  extractGoogleFormData : Dom -> Fields;
  extractMicrosoftFormData : Dom -> Fields;
  extractClickUpFormData : Dom -> Fields;
  lastResortInputs : Dom -> list LastResortInput;
  JSON_parse : string -> option JSValue;
  URLSearchParams : string -> list (string * string);
  originalFetch : FetchArgs -> Outcome Response;
  originalOpen : Xhr -> JSValue -> UrlArg -> list JSValue -> Outcome Response;
  originalSend : Xhr -> Body -> Outcome Response
}.

(** The page at one instant: [window.location], [document.title], the
    clock and the document. *)
Record Page `{Host} := mkPage {
  href : string;
  hostname : string;
  pathname : string;
  doc_title : string;
  now : string;
  dom : Dom
}.

Inductive Chain : Type := GoogleChain | ClickUpChain.

Inductive Provider : Type := Google | Microsoft | ClickUp.

(** What a timer runs when it fires. *)
Inductive Callback : Type :=
| CaptureSubmission (p : Provider)
| AttemptCapture (c : Chain) (attempts : nat)
| XhrDispatch (formData : Fields) (urlStr : string)
              (isMicrosoftFormsEndpoint isClickUpFormsEndpoint : bool).

(** What the engine does to the outside world. *)
Inductive Event `{Host} : Type :=
| SendMessage (data : Submission)
| SetTimeout (cb : Callback) (delay : nat)
| ConsoleDebug (msg : string)
| CallOriginalFetch (args : FetchArgs)
| CallOriginalOpen (this : Xhr) (method_ : JSValue) (url_ : UrlArg) (rest : list JSValue)
| CallOriginalSend (this : Xhr) (data : Body).

(** ** A trace and exception monad *)

Definition M `{Host} (A : Type) : Type := (list Event * Outcome A)%type.

#[global] Instance M_ret `{Host} : MRet M := fun A a => ([], Returned a).

#[global] Instance M_bind `{Host} : MBind M := fun A B f m =>
  match m with
  | (evs, Returned a) => let '(evs', r) := f a in ((evs ++ evs')%list, r)
  | (evs, Threw e) => (evs, Threw e)
  end.

Definition emit `{Host} (ev : Event) : M unit := ([ev], Returned tt).
Definition throw `{Host} {A} (e : Exn) : M A := ([], Threw e).

(** [try { m } catch (e) { handler e }] *)
Definition try_catch `{Host} {A} (m : M A) (handler : Exn -> M A) : M A :=
  match m with
  | (evs, Threw e) => let '(evs', r) := handler e in ((evs ++ evs')%list, r)
  | ok => ok
  end.

(** [if (c) { m }] *)
Definition when `{Host} (c : bool) (m : M unit) : M unit :=
  if c then m else mret tt.

(** [a || b]: [a] when it is a non-empty string, [b] otherwise. *)
Definition or_else (a fallback : string) : string :=
  if nonempty a then a else fallback.

(** ** ProviderClassifier *)

Definition isGoogleForm `{Host} (page : Page) : bool :=
  includes "docs.google.com" (hostname page) &&
  includes "/forms/" (pathname page).

Definition isMicrosoftForm `{Host} (page : Page) : bool :=
  let hostname := toLowerCase (hostname page) in
  includes "forms.office.com" hostname ||
  includes "forms.microsoft.com" hostname ||
  includes "forms.office365.com" hostname.

Definition isClickUpForm `{Host} (page : Page) : bool :=
  let hostname := toLowerCase (hostname page) in
  includes "forms.clickup.com" hostname.

(** [init] announces every provider whose test holds. *)
Definition detected `{Host} (page : Page) : list Provider :=
  ((if isGoogleForm page then [Google] else []) ++
   (if isMicrosoftForm page then [Microsoft] else []) ++
   (if isClickUpForm page then [ClickUp] else []))%list.

(** ** Native submit *)

Record Form := mkForm {
  form_action : string;
  elements : list Element
}.

(** [captureFormSubmission(event)], [event.target] being [form]. *)
Definition captureFormSubmission `{Host} (page : Page) (form : Form) : list Event :=
  let actionUrl := or_else (form_action form) (href page) in
  let pageUrl := href page in
  if shouldIgnore (Some pageUrl) (Some actionUrl) then []
  else
    let formData := extractFormData (elements form) in
    if (size formData =? 0)%nat then []
    else
      [ SendMessage {| url := pageUrl;
                       action := or_else actionUrl pageUrl;
                       timestamp := now page;
                       fields := formData;
                       title := or_else (doc_title page) "Untitled Page";
                       source := None |} ].

(** ** Provider capture and RetryScheduler *)

(** [a || b || ... || fallback] over attribute reads ([None] is [null] or
    [undefined]). *)
Fixpoint first_truthy (candidates : list (option string)) (fallback : string) : string :=
  match candidates with
  | [] => fallback
  | Some s :: rest => if nonempty s then s else first_truthy rest fallback
  | None :: rest => first_truthy rest fallback
  end.

Definition lastResort_name (c : Chain) (input : LastResortInput) (formData : Fields) : string :=
  let fallback := "Field_" ++ decimal (size formData + 1) in
  match c with
  | GoogleChain =>
      first_truthy [lr_name input; lr_ariaLabel input; lr_heading input] fallback
  | ClickUpChain =>
      first_truthy [lr_name input; lr_testid input; lr_ariaLabel input; lr_label input]
                   fallback
  end.

(** One turn of [allInputs.forEach(input => ...)]. *)
Definition lastResort_step (c : Chain) (formData : Fields) (input : LastResortInput) : Fields :=
  let value_ := or_else (lr_value input) (lr_textContent input) in
  let name_ := lastResort_name c input formData in
  if nonempty value_ && has_non_space value_
  then <[ name_ := VStr value_ ]> formData
  else formData.

Definition lastResort (c : Chain) (inputs : list LastResortInput) (formData : Fields) : Fields :=
  fold_left (lastResort_step c) inputs formData.

Definition maxAttempts : nat := 3.

Definition chain_extract `{Host} (c : Chain) : Dom -> Fields :=
  match c with
  | GoogleChain => extractGoogleFormData
  | ClickUpChain => extractClickUpFormData
  end.

Definition chain_debug (c : Chain) : string :=
  match c with
  | GoogleChain => "FormTrack: No Google Form data captured"
  | ClickUpChain => "FormTrack: No ClickUp Form data captured"
  end.

Definition chain_title (c : Chain) : string :=
  match c with GoogleChain => "Google Form" | ClickUpChain => "ClickUp Form" end.

Definition chain_source (c : Chain) : string :=
  match c with GoogleChain => "google-forms" | ClickUpChain => "clickup-forms" end.

(** One run of the closure [attemptCapture]; [attempts] is the counter of the
    enclosing call as the run finds it. *)
Definition attemptCapture `{Host} (c : Chain) (attempts : nat) (page : Page) : list Event :=
  let attempts := S attempts in
  let formData := chain_extract c (dom page) in
  if (size formData =? 0)%nat && (attempts <? maxAttempts)%nat then
    [ SetTimeout (AttemptCapture c attempts) 300 ]
  else
    let formData :=
      if (size formData =? 0)%nat
      then lastResort c (lastResortInputs (dom page)) formData
      else formData in
    if (size formData =? 0)%nat then [ ConsoleDebug (chain_debug c) ]
    else
      [ SendMessage {| url := href page;
                       action := href page;
                       timestamp := now page;
                       fields := formData;
                       title := or_else (doc_title page) (chain_title c);
                       source := Some (chain_source c) |} ].

Definition captureGoogleFormSubmission `{Host} (page : Page) : list Event :=
  if negb (isGoogleForm page) then [] else attemptCapture GoogleChain 0 page.

Definition captureClickUpFormSubmission `{Host} (page : Page) : list Event :=
  if negb (isClickUpForm page) then [] else attemptCapture ClickUpChain 0 page.

Definition captureMicrosoftFormSubmission `{Host} (page : Page) : list Event :=
  if negb (isMicrosoftForm page) then []
  else
    let formData := extractMicrosoftFormData (dom page) in
    if (size formData =? 0)%nat then []
    else
      [ SendMessage {| url := href page;
                       action := href page;
                       timestamp := now page;
                       fields := formData;
                       title := or_else (doc_title page) "Microsoft Form";
                       source := Some "microsoft-forms" |} ].

(** The delayed dispatch of the XHR interceptor. *)
Definition xhrDispatch `{Host} (formData : Fields) (urlStr : string)
    (isMicrosoftFormsEndpoint isClickUpFormsEndpoint : bool) (page : Page) : list Event :=
  [ SendMessage {| url := href page;
                   action := urlStr;
                   timestamp := now page;
                   fields := formData;
                   title := or_else (doc_title page)
                              (if isMicrosoftFormsEndpoint then "Microsoft Form"
                               else if isClickUpFormsEndpoint then "ClickUp Form"
                               else "Google Form");
                   source := Some (if isMicrosoftFormsEndpoint then "microsoft-forms"
                                   else if isClickUpFormsEndpoint then "clickup-forms"
                                   else "google-forms") |} ].

(** A timer fires: its callback runs against the page of that instant. *)
Definition run_callback `{Host} (cb : Callback) (page : Page) : list Event :=
  match cb with
  | CaptureSubmission Google => captureGoogleFormSubmission page
  | CaptureSubmission Microsoft => captureMicrosoftFormSubmission page
  | CaptureSubmission ClickUp => captureClickUpFormSubmission page
  | AttemptCapture c attempts => attemptCapture c attempts page
  | XhrDispatch formData urlStr isM isC => xhrDispatch formData urlStr isM isC page
  end.

(** *** The timer queue

    Pending timers are kept ordered by due time, timers due at the same
    instant in the order they were set. *)
Fixpoint schedule (due : nat) (cb : Callback) (queue : list (nat * Callback))
  : list (nat * Callback) :=
  match queue with
  | [] => [(due, cb)]
  | (t, cb') :: rest =>
      if (t <=? due)%nat then (t, cb') :: schedule due cb rest
      else (due, cb) :: queue
  end.

(** The timers set by the events of a run that happened at time [t]. *)
Fixpoint schedule_all `{Host} (t : nat) (evs : list Event) (queue : list (nat * Callback))
  : list (nat * Callback) :=
  match evs with
  | [] => queue
  | SetTimeout cb delay :: rest => schedule_all t rest (schedule (t + delay) cb queue)
  | _ :: rest => schedule_all t rest queue
  end.

(** The event loop: fire the pending timers in order, each against the page
    of its instant, until none is left.  The result is the timed trace;
    [None] when [fuel] firings did not empty the queue. *)
Fixpoint run_timers `{Host} (fuel : nat) (page_at : nat -> Page)
    (queue : list (nat * Callback)) : option (list (nat * Event)) :=
  match queue with
  | [] => Some []
  | (t, cb) :: rest =>
      match fuel with
      | O => None
      | S fuel' =>
          let evs := run_callback cb (page_at t) in
          match run_timers fuel' page_at (schedule_all t evs rest) with
          | Some trace => Some ((map (pair t) evs ++ trace)%list)
          | None => None
          end
      end
  end.

(** A trigger at time [t0] whose handler produced [evs], followed to
    quiescence. *)
Definition run_from `{Host} (fuel : nat) (page_at : nat -> Page) (t0 : nat)
    (evs : list Event) : option (list (nat * Event)) :=
  match run_timers fuel page_at (schedule_all t0 evs []) with
  | Some trace => Some ((map (pair t0) evs ++ trace)%list)
  | None => None
  end.

(** The submissions of a timed trace, in the order they were sent. *)
Fixpoint sent `{Host} (trace : list (nat * Event)) : list Submission :=
  match trace with
  | [] => []
  | (_, SendMessage data) :: rest => data :: sent rest
  | _ :: rest => sent rest
  end.

(** ** SubmitTriggerWatcher *)

(** A listener the engine adds to a control (both in the capture phase). *)
Inductive Listener : Type :=
| ClickListener (p : Provider)
| MouseDownListener (p : Provider).

(** A control of the document, with what the watcher reads and writes:
    [dataset.formtrackWatched] is the watched-control registry. *)
Record Control := mkControl {
  formtrackWatched : option string;
  listeners : list Listener;
  c_textContent : option string;
  c_type : option string;
  c_ariaLabel : option string
}.

(** The controls of the document, by node identity. *)
Abbreviation Controls := (gmap nat Control).

Definition opt_truthy (o : option string) : bool :=
  match o with Some s => nonempty s | None => false end.

(** The selector lists, attribute values written with single quotes. *)
Definition GoogleSubmitButtonSelectors : list string :=
  [ "[jsname='M2UYVd']";
    "[jsname*='Submit']";
    ".freebirdFormviewerViewNavigationSubmitButton";
    "[class*='SubmitButton']";
    "[class*='submitButton']";
    "button[type='submit']";
    "[role='button'][aria-label*='Submit']";
    "[role='button'][aria-label*='submit']";
    "[role='button'][aria-label*='Submit response']";
    "button:has-text('Submit')";
    "div[role='button']:has-text('Submit')" ].

Definition MicrosoftSubmitButtonSelectors : list string :=
  [ "button[type='submit']";
    "[data-automation-id*='submit']";
    "[data-automation-id*='Submit']";
    "[aria-label*='Submit'], [aria-label*='submit']";
    "[class*='submitButton']";
    "[class*='SubmitButton']";
    "button[class*='ms-Button']";
    "[role='button'][aria-label*='Submit']" ].

Definition ClickUpSubmitButtonSelectors : list string :=
  [ "button[type='submit']";
    "[data-testid*='submit']";
    "[data-testid*='Submit']";
    "[class*='submit']";
    "[class*='Submit']";
    "[aria-label*='Submit'], [aria-label*='submit']";
    "[role='button'][aria-label*='Submit']";
    "button[class*='button']:not([type='button'])";
    "[class*='submit-button']";
    "[class*='submitButton']" ].

Definition submitButtonSelectors (p : Provider) : list string :=
  match p with
  | Google => GoogleSubmitButtonSelectors
  | Microsoft => MicrosoftSubmitButtonSelectors
  | ClickUp => ClickUpSubmitButtonSelectors
  end.

(** The ClickUp watcher's test that a control submits. *)
Definition isSubmitButton (button : Control) : bool :=
  let buttonText :=
    match c_textContent button with
    | Some t => toLowerCase t
    | None => EmptyString
    end in
  includes "submit" buttonText ||
  includes "send" buttonText ||
  match c_type button with Some t => String.eqb t "submit" | None => false end ||
  match c_ariaLabel button with
  | Some l => includes "submit" (toLowerCase l)
  | None => false
  end.

(** The listeners one provider's watcher adds to a control it takes. *)
Definition new_listeners (p : Provider) : list Listener :=
  match p with
  | Google => [ClickListener Google; MouseDownListener Google]
  | Microsoft => [ClickListener Microsoft]
  | ClickUp => [ClickListener ClickUp; MouseDownListener ClickUp]
  end.

(** Whether the watcher of [p] considers the control at all. *)
Definition eligible (p : Provider) (button : Control) : bool :=
  match p with
  | ClickUp => isSubmitButton button
  | _ => true
  end.

(** The body of [buttons.forEach(button => ...)]. *)
Definition watch (p : Provider) (button : Control) : Control :=
  if eligible p button && negb (opt_truthy (formtrackWatched button)) then
    {| formtrackWatched := Some "true";
       listeners := (listeners button ++ new_listeners p)%list;
       c_textContent := c_textContent button;
       c_type := c_type button;
       c_ariaLabel := c_ariaLabel button |}
  else button.

Definition watch_node (p : Provider) (doc : Controls) (node : nat) : Controls :=
  match doc !! node with
  | Some button => <[ node := watch p button ]> doc
  | None => doc
  end.

(** One pass over the selector list.  [querySelectorAll selector doc] is
    the list of matching nodes, or [None] when the selector is rejected
    (an exception).  The Google and ClickUp watchers catch it per
    selector; the Microsoft one does not, so there it ends the pass. *)
Fixpoint attach_pass (querySelectorAll : string -> Controls -> option (list nat))
    (p : Provider) (selectors : list string) (doc : Controls) : Controls :=
  match selectors with
  | [] => doc
  | selector :: rest =>
      match querySelectorAll selector doc with
      | Some buttons =>
          attach_pass querySelectorAll p rest (fold_left (watch_node p) buttons doc)
      | None =>
          match p with
          | Microsoft => doc
          | _ => attach_pass querySelectorAll p rest doc
          end
      end
  end.

(** [attachListeners()] of the watcher of provider [p]. *)
Definition attachListeners (querySelectorAll : string -> Controls -> option (list nat))
    (p : Provider) (doc : Controls) : Controls :=
  attach_pass querySelectorAll p (submitButtonSelectors p) doc.

(** What a listener does when its event reaches the control. *)
Definition listener_events `{Host} (l : Listener) : list Event :=
  match l with
  | ClickListener Google =>
      [ ConsoleDebug "FormTrack: Google Form submit button clicked";
        SetTimeout (CaptureSubmission Google) 100;
        SetTimeout (CaptureSubmission Google) 800;
        SetTimeout (CaptureSubmission Google) 1500 ]
  | MouseDownListener Google => [ SetTimeout (CaptureSubmission Google) 500 ]
  | ClickListener Microsoft => [ SetTimeout (CaptureSubmission Microsoft) 500 ]
  | MouseDownListener Microsoft => []
  | ClickListener ClickUp =>
      [ ConsoleDebug "FormTrack: ClickUp Form submit button clicked";
        SetTimeout (CaptureSubmission ClickUp) 100;
        SetTimeout (CaptureSubmission ClickUp) 500;
        SetTimeout (CaptureSubmission ClickUp) 1000 ]
  | MouseDownListener ClickUp => [ SetTimeout (CaptureSubmission ClickUp) 300 ]
  end.

Definition is_click (l : Listener) : bool :=
  match l with ClickListener _ => true | MouseDownListener _ => false end.

Definition is_mousedown (l : Listener) : bool :=
  match l with ClickListener _ => false | MouseDownListener _ => true end.

(** A click (a press) on a control: its click (mousedown) listeners run. *)
Definition click `{Host} (button : Control) : list Event :=
  flat_map listener_events (List.filter is_click (listeners button)).

Definition press `{Host} (button : Control) : list Event :=
  flat_map listener_events (List.filter is_mousedown (listeners button)).

(** What the page and the engine can do to the controls: the page adds a
    control the engine has not seen, or a watcher runs a pass. *)
Inductive watcher_step (querySelectorAll : string -> Controls -> option (list nat))
  : Controls -> Controls -> Prop :=
| step_add doc node text type_ label :
    doc !! node = None ->
    watcher_step querySelectorAll doc
      (<[ node := mkControl None [] text type_ label ]> doc)
| step_attach doc p :
    watcher_step querySelectorAll doc (attachListeners querySelectorAll p doc).

Inductive watcher_steps (querySelectorAll : string -> Controls -> option (list nat))
  : Controls -> Controls -> Prop :=
| steps_refl doc : watcher_steps querySelectorAll doc doc
| steps_next doc1 doc2 doc3 :
    watcher_steps querySelectorAll doc1 doc2 ->
    watcher_step querySelectorAll doc2 doc3 ->
    watcher_steps querySelectorAll doc1 doc3.

(** ** NetworkInterceptor *)

Definition isGoogleFormsEndpoint (urlStr : string) : bool :=
  includes "forms/d/e/" urlStr ||
  includes "forms/u/0/d/e/" urlStr ||
  includes "/formResponse" urlStr.

Definition isMicrosoftFormsEndpoint (urlStr : string) : bool :=
  includes "forms.office.com" urlStr ||
  includes "forms.microsoft.com" urlStr ||
  includes "forms.office365.com" urlStr ||
  includes "/api/form/" urlStr ||
  includes "/api/Response" urlStr ||
  includes "/SubmitForm" urlStr.

Definition isClickUpFormsEndpoint (urlStr : string) : bool :=
  includes "forms.clickup.com" urlStr ||
  includes "/api/form/" urlStr ||
  includes "/form/submit" urlStr ||
  includes "/submit-form" urlStr.

(** [key.toLowerCase().includes('password')] *)
Definition has_password (key : string) : bool :=
  includes "password" (toLowerCase key).

Fixpoint string_drop (n : nat) (s : string) : string :=
  match n, s with
  | O, _ => s
  | S n', String _ r => string_drop n' r
  | S _, EmptyString => EmptyString
  end.

(** [key.replace(/^entry\./, '')] *)
Definition strip_entry_dot (key : string) : string :=
  if startsWith "entry." key then string_drop 6 key else key.

(** [key.replace(/^entry\.?/, '')] *)
Definition strip_entry (key : string) : string :=
  if startsWith "entry." key then string_drop 6 key
  else if startsWith "entry" key then string_drop 5 key
  else key.

(** *** Reading a parsed JSON value *)

Fixpoint lookup_member (members : list (string * JSValue)) (key : string) : option JSValue :=
  match members with
  | [] => None
  | (k, v) :: rest => if String.eqb k key then Some v else lookup_member rest key
  end.

Fixpoint string_chars (s : string) : list string :=
  match s with
  | EmptyString => []
  | String c r => String c EmptyString :: string_chars r
  end.

(** The index an index-like key denotes among [n] elements. *)
Definition index_of_key (n : nat) (key : string) : option nat :=
  find (fun i => String.eqb (decimal i) key) (seq 0 n).

(** [parsed[key]] for a value that is neither [null] nor [undefined]. *)
Definition js_get (parsed : JSValue) (key : string) : JSValue :=
  match parsed with
  | VObj members => default VUndefined (lookup_member members key)
  | VArr items =>
      match index_of_key (length items) key with
      | Some i => nth i items VUndefined
      | None => VUndefined
      end
  | VStr s =>
      match index_of_key (String.length s) key with
      | Some i => VStr (nth i (string_chars s) EmptyString)
      | None => VUndefined
      end
  | _ => VUndefined
  end.

(** [Object.keys(parsed)], same proviso. *)
Definition Object_keys (parsed : JSValue) : list string :=
  match parsed with
  | VObj members => map fst members
  | VArr items => map decimal (seq 0 (length items))
  | VStr s => map decimal (seq 0 (String.length s))
  | _ => []
  end.

(** Reading a member of, or the keys of, [null] or [undefined] throws. *)
Definition nullish (v : JSValue) : bool :=
  match v with VNull | VUndefined => true | _ => false end.

(** *** The three readings of a body *)

(** [body.forEach((value, key) => ...)] on a [FormData]. *)
Definition formdata_fields (entries : list (string * JSValue)) : Fields :=
  fold_left (fun (formData : Fields) '(key, value_) =>
               if has_password key then formData
               else <[ key := value_ ]> formData)
            entries ∅.

(** [Object.keys(parsed).forEach(key => ...)] keeping the keys without
    "password". *)
Definition json_plain_fields (parsed : JSValue) : Fields :=
  fold_left (fun (formData : Fields) key =>
               if negb (has_password key)
               then <[ key := js_get parsed key ]> formData
               else formData)
            (Object_keys parsed) ∅.

(** The same loop with the Google Forms entry keys cleaned first. *)
Definition json_entry_fields (parsed : JSValue) : Fields :=
  fold_left (fun (formData : Fields) key =>
               if startsWith "entry." key || startsWith "entry_" key
               then <[ strip_entry key := js_get parsed key ]> formData
               else if negb (has_password key)
               then <[ key := js_get parsed key ]> formData
               else formData)
            (Object_keys parsed) ∅.

(** [params.forEach((value, key) => ...)] on the URL-encoded reading. *)
Definition urlencoded_fields (params : list (string * string)) : Fields :=
  fold_left (fun (formData : Fields) '(key, value_) =>
               if negb (has_password key) then
                 if startsWith "entry." key
                 then <[ strip_entry_dot key := VStr value_ ]> formData
                 else <[ key := VStr value_ ]> formData
               else formData)
            params ∅.

(** [parsed['entry.'] || parsed['entry']] *)
Definition has_entry_marker (parsed : JSValue) : bool :=
  truthy (js_get parsed "entry.") || truthy (js_get parsed "entry").

(** The inner [try] of the fetch interceptor on a string body, once
    [JSON.parse] has returned [parsed]. *)
Definition fetch_json_fields (isGoogle : bool) (parsed : JSValue) : Outcome Fields :=
  if nullish parsed then Threw (TypeError "Cannot read properties of null")
  else if isGoogle then
    if has_entry_marker parsed
    then Returned (json_entry_fields parsed)
    else Returned (json_plain_fields parsed)
  else Returned (json_plain_fields parsed).

(** The inner [try] of the XHR interceptor. *)
Definition xhr_json_fields (parsed : JSValue) : Outcome Fields :=
  if nullish parsed then Threw (TypeError "Cannot convert undefined or null to object")
  else Returned (json_entry_fields parsed).

(** [try { JSON reading } catch (e) { URL-encoded reading }] *)
Definition string_fields `{Host} (json_fields : JSValue -> Outcome Fields) (s : string)
  : Fields :=
  let attempt :=
    match JSON_parse s with
    | Some parsed => json_fields parsed
    | None => Threw (SyntaxError "Unexpected token")
    end in
  match attempt with
  | Returned formData => formData
  | Threw _ => urlencoded_fields (URLSearchParams s)
  end.

Definition fetch_parse_body `{Host} (isGoogle : bool) (b : Body) : Fields :=
  match b with
  | BodyFormData entries => formdata_fields entries
  | BodyString s => string_fields (fetch_json_fields isGoogle) s
  | _ => ∅
  end.

Definition xhr_parse_body `{Host} (b : Body) : Fields :=
  match b with
  | BodyFormData entries => formdata_fields entries
  | BodyString s => string_fields xhr_json_fields s
  | _ => ∅
  end.

Definition body_truthy (b : Body) : bool :=
  match b with
  | BodyAbsent => false
  | BodyString s => nonempty s
  | BodyFormData _ | BodyOther _ => true
  end.

Definition url_truthy (u : UrlArg) : bool :=
  match u with
  | UrlString s => nonempty s
  | UrlObject _ => true
  | UrlUndefined => false
  end.

(** [m.toUpperCase() === 'POST' || m.toUpperCase() === 'PUT'] for a truthy
    [m]: only a string has the method. *)
Definition is_post_or_put `{Host} (m : JSValue) : M bool :=
  match m with
  | VStr s =>
      mret (String.eqb (toUpperCase s) "POST" || String.eqb (toUpperCase s) "PUT")
  | _ => throw (TypeError "toUpperCase is not a function")
  end.

(** *** fetch *)

(** The condition of the outer [if], evaluated left to right. *)
Definition fetch_guard `{Host} (opts : option Options) : M bool :=
  match opts with
  | None => mret false
  | Some o =>
      if negb (truthy (method o)) then mret false
      else
        post ← is_post_or_put (method o);
        mret (post && body_truthy (body o))
  end.

(** [typeof url === 'string' ? url : url.toString()] *)
Definition fetch_urlStr `{Host} (u : UrlArg) : M string :=
  match u with
  | UrlString s => mret s
  | UrlObject s => mret s
  | UrlUndefined => throw (TypeError "Cannot read properties of undefined")
  end.

Definition fetch_source (urlStr : string) : string :=
  if isGoogleFormsEndpoint urlStr then "google-forms"
  else if isMicrosoftFormsEndpoint urlStr then "microsoft-forms"
  else if isClickUpFormsEndpoint urlStr then "clickup-forms"
  else "fetch".

(** The body of the [try] block. *)
Definition fetch_observe `{Host} (page : Page) (u : UrlArg) (o : Options) : M unit :=
  urlStr ← fetch_urlStr u;
  when (isGoogleFormsEndpoint urlStr)
    (emit (ConsoleDebug "FormTrack: Google Forms endpoint detected");;
     emit (SetTimeout (CaptureSubmission Google) 200);;
     emit (SetTimeout (CaptureSubmission Google) 800);;
     emit (SetTimeout (CaptureSubmission Google) 1500));;
  when (isMicrosoftFormsEndpoint urlStr)
    (emit (SetTimeout (CaptureSubmission Microsoft) 300));;
  when (isClickUpFormsEndpoint urlStr)
    (emit (ConsoleDebug "FormTrack: ClickUp Forms endpoint detected");;
     emit (SetTimeout (CaptureSubmission ClickUp) 200);;
     emit (SetTimeout (CaptureSubmission ClickUp) 800);;
     emit (SetTimeout (CaptureSubmission ClickUp) 1500));;
  let formData := fetch_parse_body (isGoogleFormsEndpoint urlStr) (body o) in
  when (0 <? size formData)%nat
    (emit (SendMessage {| url := urlStr;
                          action := urlStr;
                          timestamp := now page;
                          fields := formData;
                          title := or_else (doc_title page) "Untitled Page";
                          source := Some (fetch_source urlStr) |})).

(** The function [interceptFetch] installs as [window.fetch]. *)
Definition interceptFetch `{Host} (page : Page) (args : FetchArgs) : M Response :=
  guard ← fetch_guard (options args);
  match options args with
  | Some o =>
      when guard (try_catch (fetch_observe page (url_arg args) o) (fun _ => mret tt))
  | None => mret tt
  end;;
  emit (CallOriginalFetch args);;
  (([], originalFetch args) : M Response).

(** *** XMLHttpRequest *)

(** The function [interceptXHR] installs as [open]: the request after the
    call, and what the call does. *)
Definition interceptXHR_open `{Host} (this : Xhr) (method_ : JSValue) (url_ : UrlArg)
    (rest : list JSValue) : Xhr * M Response :=
  let this := {| xhr_id := xhr_id this;
                 _formtrackUrl := url_;
                 _formtrackMethod := method_ |} in
  (this,
   emit (CallOriginalOpen this method_ url_ rest);;
   (([], originalOpen this method_ url_ rest) : M Response)).

Definition xhr_guard `{Host} (this : Xhr) : M bool :=
  if negb (truthy (_formtrackMethod this)) then mret false
  else
    post ← is_post_or_put (_formtrackMethod this);
    mret (post && url_truthy (_formtrackUrl this)).

Definition xhr_urlStr (u : UrlArg) : string :=
  match u with
  | UrlString s => s
  | UrlObject s => s
  | UrlUndefined => EmptyString
  end.

(** The body of the [try] block of [send]. *)
Definition xhr_observe `{Host} (urlStr : string) (data : Body) : M unit :=
  let formData := xhr_parse_body data in
  when (0 <? size formData)%nat
    (emit (SetTimeout (XhrDispatch formData urlStr
                         (isMicrosoftFormsEndpoint urlStr)
                         (isClickUpFormsEndpoint urlStr)) 200));;
  when (isMicrosoftFormsEndpoint urlStr)
    (emit (SetTimeout (CaptureSubmission Microsoft) 300));;
  when (isClickUpFormsEndpoint urlStr)
    (emit (SetTimeout (CaptureSubmission ClickUp) 300)).

(** The function [interceptXHR] installs as [send]. *)
Definition interceptXHR_send `{Host} (this : Xhr) (data : Body) : M Response :=
  guard ← xhr_guard this;
  when guard
    (let urlStr := xhr_urlStr (_formtrackUrl this) in
     when ((isGoogleFormsEndpoint urlStr || isMicrosoftFormsEndpoint urlStr
            || isClickUpFormsEndpoint urlStr) && body_truthy data)
       (try_catch (xhr_observe urlStr data) (fun _ => mret tt)));;
  emit (CallOriginalSend this data);;
  (([], originalSend this data) : M Response).

(** ** A reference host

    Executable versions of the built-ins, for running the engine on
    concrete requests: the [application/x-www-form-urlencoded] parser
    behind [URLSearchParams] and a JSON parser for [JSON.parse]. *)

Definition dquote : ascii := ascii_of_nat 34.
Definition backslash : ascii := ascii_of_nat 92.

Definition is_digit (c : ascii) : bool :=
  let n := nat_of_ascii c in ((48 <=? n) && (n <=? 57))%nat.

Definition hex_value (c : ascii) : option nat :=
  let n := nat_of_ascii c in
  if ((48 <=? n) && (n <=? 57))%nat then Some (n - 48)
  else if ((65 <=? n) && (n <=? 70))%nat then Some (n - 55)
  else if ((97 <=? n) && (n <=? 102))%nat then Some (n - 87)
  else None.

(** *** URLSearchParams *)

Fixpoint split_on (sep : ascii) (s : string) : list string :=
  match s with
  | EmptyString => [EmptyString]
  | String c r =>
      if Ascii.eqb c sep then EmptyString :: split_on sep r
      else
        match split_on sep r with
        | h :: t => String c h :: t
        | [] => [String c EmptyString]
        end
  end.

(** The part before the first [sep] and the part after it. *)
Fixpoint split_first (sep : ascii) (s : string) : string * option string :=
  match s with
  | EmptyString => (EmptyString, None)
  | String c r =>
      if Ascii.eqb c sep then (EmptyString, Some r)
      else let '(h, t) := split_first sep r in (String c h, t)
  end.

Definition plus_to_space (s : string) : string :=
  string_map (fun c => if Ascii.eqb c "+" then " "%char else c) s.

Fixpoint percent_decode (s : string) : string :=
  match s with
  | EmptyString => EmptyString
  | String c r0 =>
      match r0 with
      | String a (String b r) =>
          match Ascii.eqb c "%", hex_value a, hex_value b with
          | true, Some x, Some y => String (ascii_of_nat (16 * x + y)) (percent_decode r)
          | _, _, _ => String c (percent_decode r0)
          end
      | _ => String c (percent_decode r0)
      end
  end.

Definition url_pair (piece : string) : string * string :=
  let '(k, v) := split_first "=" piece in
  (percent_decode (plus_to_space k),
   percent_decode (plus_to_space (default EmptyString v))).

Definition URLSearchParams_ref (init : string) : list (string * string) :=
  let init := match init with String "?" r => r | _ => init end in
  map url_pair (List.filter (fun piece => nonempty piece) (split_on "&" init)).

(** *** JSON.parse *)

Definition is_json_ws (c : ascii) : bool :=
  let n := nat_of_ascii c in ((n =? 32) || (n =? 9) || (n =? 10) || (n =? 13))%nat.

Fixpoint skip_ws (s : string) : string :=
  match s with
  | String c r => if is_json_ws c then skip_ws r else s
  | EmptyString => s
  end.

Fixpoint take_digits (s : string) : string * string :=
  match s with
  | String c r =>
      if is_digit c then let '(d, rest) := take_digits r in (String c d, rest)
      else (EmptyString, s)
  | EmptyString => (EmptyString, s)
  end.

(** The bytes of the UTF-8 encoding of a code unit below 65536. *)
Definition utf8 (n : nat) : string :=
  if (n <? 128)%nat then String (ascii_of_nat n) EmptyString
  else if (n <? 2048)%nat then
    String (ascii_of_nat (192 + n / 64))
      (String (ascii_of_nat (128 + n mod 64)) EmptyString)
  else
    String (ascii_of_nat (224 + n / 4096))
      (String (ascii_of_nat (128 + (n / 64) mod 64))
         (String (ascii_of_nat (128 + n mod 64)) EmptyString)).

(** The characters of a string literal after its opening quote, and what
    follows the closing one. *)
Fixpoint parse_string (fuel : nat) (s : string) : option (string * string) :=
  match fuel with
  | O => None
  | S fuel' =>
      match s with
      | EmptyString => None
      | String c r =>
          if Ascii.eqb c dquote then Some (EmptyString, r)
          else if Ascii.eqb c backslash then
            match r with
            | String e r' =>
                let simple (x : ascii) :=
                  match parse_string fuel' r' with
                  | Some (t, rest) => Some (String x t, rest)
                  | None => None
                  end in
                if Ascii.eqb e dquote then simple dquote
                else if Ascii.eqb e backslash then simple backslash
                else if Ascii.eqb e "/" then simple "/"%char
                else if Ascii.eqb e "b" then simple (ascii_of_nat 8)
                else if Ascii.eqb e "f" then simple (ascii_of_nat 12)
                else if Ascii.eqb e "n" then simple (ascii_of_nat 10)
                else if Ascii.eqb e "r" then simple (ascii_of_nat 13)
                else if Ascii.eqb e "t" then simple (ascii_of_nat 9)
                else if Ascii.eqb e "u" then
                  match r' with
                  | String h1 (String h2 (String h3 (String h4 r''))) =>
                      match hex_value h1, hex_value h2, hex_value h3, hex_value h4 with
                      | Some a, Some b, Some c', Some d =>
                          match parse_string fuel' r'' with
                          | Some (t, rest) =>
                              Some (utf8 (4096 * a + 256 * b + 16 * c' + d) ++ t, rest)
                          | None => None
                          end
                      | _, _, _, _ => None
                      end
                  | _ => None
                  end
                else None
            | EmptyString => None
            end
          else if (nat_of_ascii c <? 32)%nat then None
          else
            match parse_string fuel' r with
            | Some (t, rest) => Some (String c t, rest)
            | None => None
            end
      end
  end.

(** A number lexeme and what follows it. *)
Definition parse_number (s : string) : option (string * string) :=
  let '(sign, s1) :=
    match s with String "-" r => ("-", r) | _ => (EmptyString, s) end in
  let '(int, s2) := take_digits s1 in
  let int_ok :=
    match int with
    | EmptyString => false
    | String "0" (String _ _) => false
    | _ => true
    end in
  if negb int_ok then None
  else
    let frac :=
      match s2 with
      | String "." r =>
          let '(d, rest) := take_digits r in
          if nonempty d then Some ("." ++ d, rest) else None
      | _ => Some (EmptyString, s2)
      end in
    match frac with
    | None => None
    | Some (fr, s3) =>
        let with_exp (e : string) (r : string) :=
          let '(esign, r1) :=
            match r with
            | String "+" r' => ("+", r')
            | String "-" r' => ("-", r')
            | _ => (EmptyString, r)
            end in
          let '(d, rest) := take_digits r1 in
          if nonempty d then Some (sign ++ int ++ fr ++ e ++ esign ++ d, rest) else None in
        match s3 with
        | String "e" r => with_exp "e" r
        | String "E" r => with_exp "E" r
        | _ => Some (sign ++ int ++ fr, s3)
        end
    end.

(** A repeated member name keeps its first position and takes the last
    value. *)
Fixpoint put_member (members : list (string * JSValue)) (k : string) (v : JSValue)
  : list (string * JSValue) :=
  match members with
  | [] => [(k, v)]
  | (k', v') :: rest =>
      if String.eqb k' k then (k, v) :: rest else (k', v') :: put_member rest k v
  end.

(** The value of a key that is a canonical array index. *)
Fixpoint digits_value (s : string) (acc : N) : option N :=
  match s with
  | EmptyString => Some acc
  | String c r =>
      if is_digit c
      then digits_value r (10 * acc + N.of_nat (nat_of_ascii c - 48))%N
      else None
  end.

Definition array_index (k : string) : option N :=
  match k with
  | EmptyString => None
  | String "0" (String _ _) => None
  | _ =>
      if (String.length k <=? 10)%nat then
        match digits_value k 0%N with
        | Some n => if (n <? 4294967295)%N then Some n else None
        | None => None
        end
      else None
  end.

Fixpoint insert_index (n : N) (kv : string * JSValue)
    (l : list (N * (string * JSValue))) : list (N * (string * JSValue)) :=
  match l with
  | [] => [(n, kv)]
  | (m, kv') :: rest =>
      if (m <=? n)%N then (m, kv') :: insert_index n kv rest
      else (n, kv) :: l
  end.

(** The order in which an object enumerates its members: the array
    indices in ascending order, then the other names as they were added. *)
Definition order_members (members : list (string * JSValue)) : list (string * JSValue) :=
  let indexed :=
    fold_left (fun acc kv =>
                 match array_index (fst kv) with
                 | Some n => insert_index n kv acc
                 | None => acc
                 end) members [] in
  let named :=
    List.filter (fun kv => match array_index (fst kv) with Some _ => false | None => true end)
           members in
  (map snd indexed ++ named)%list.

Fixpoint parse_value (fuel : nat) (s : string) : option (JSValue * string) :=
  match fuel with
  | O => None
  | S fuel' =>
      match skip_ws s with
      | EmptyString => None
      | String c r =>
          if Ascii.eqb c "{" then
            match skip_ws r with
            | String "}" r' => Some (VObj [], r')
            | _ => parse_members fuel' r []
            end
          else if Ascii.eqb c "[" then
            match skip_ws r with
            | String "]" r' => Some (VArr [], r')
            | _ => parse_elements fuel' r []
            end
          else if Ascii.eqb c dquote then
            match parse_string (S (String.length r)) r with
            | Some (t, rest) => Some (VStr t, rest)
            | None => None
            end
          else if String.prefix "true" (String c r) then Some (VBool true, string_drop 3 r)
          else if String.prefix "false" (String c r) then Some (VBool false, string_drop 4 r)
          else if String.prefix "null" (String c r) then Some (VNull, string_drop 3 r)
          else
            match parse_number (String c r) with
            | Some (lexeme, rest) => Some (VNum lexeme, rest)
            | None => None
            end
      end
  end
with parse_members (fuel : nat) (s : string) (acc : list (string * JSValue))
  : option (JSValue * string) :=
  match fuel with
  | O => None
  | S fuel' =>
      match skip_ws s with
      | String c r =>
          if Ascii.eqb c dquote then
            match parse_string (S (String.length r)) r with
            | Some (k, rest) =>
                match skip_ws rest with
                | String ":" rest' =>
                    match parse_value fuel' rest' with
                    | Some (v, rest'') =>
                        match skip_ws rest'' with
                        | String "," more => parse_members fuel' more (put_member acc k v)
                        | String "}" more => Some (VObj (order_members (put_member acc k v)), more)
                        | _ => None
                        end
                    | None => None
                    end
                | _ => None
                end
            | None => None
            end
          else None
      | EmptyString => None
      end
  end
with parse_elements (fuel : nat) (s : string) (acc : list JSValue)
  : option (JSValue * string) :=
  match fuel with
  | O => None
  | S fuel' =>
      match parse_value fuel' s with
      | Some (v, rest) =>
          match skip_ws rest with
          | String "," more => parse_elements fuel' more (acc ++ [v])%list
          | String "]" more => Some (VArr (acc ++ [v])%list, more)
          | _ => None
          end
      | None => None
      end
  end.

Definition JSON_parse_ref (text : string) : option JSValue :=
  match parse_value (2 * String.length text + 2) text with
  | Some (v, rest) =>
      match skip_ws rest with
      | EmptyString => Some v
      | _ => None
      end
  | None => None
  end.

(** A document for the reference host: what each scraper finds in it and
    what the last-resort selector matches. *)
Record RefDom := mkRefDom {
  google_data : Fields;
  microsoft_data : Fields;
  clickup_data : Fields;
  last_resort : list LastResortInput
}.

(** The reference host.  Its wrapped primitives answer with a token naming
    the call. *)
Definition browser : Host :=
  {| Dom := RefDom;
     Response := string;
     extractGoogleFormData := google_data;
     extractMicrosoftFormData := microsoft_data;
     extractClickUpFormData := clickup_data;
     lastResortInputs := last_resort;
     JSON_parse := JSON_parse_ref;
     URLSearchParams := URLSearchParams_ref;
     originalFetch := fun _ => Returned "fetch response";
     originalOpen := fun _ _ _ _ => Returned "open result";
     originalSend := fun _ _ => Returned "send result" |}.

Definition blank : RefDom := mkRefDom ∅ ∅ ∅ [].

Definition page_of (href_ hostname_ pathname_ : string) (d : RefDom) : @Page browser :=
  @mkPage browser href_ hostname_ pathname_ "A page" "2024-01-01T00:00:00.000Z" d.

Definition post (u body_ : string) : FetchArgs :=
  mkFetchArgs (UrlString u) (Some (mkOptions (VStr "POST") (BodyString body_))).

(** A value the generic extractor may store: a non-empty string, or an
    array of non-empty strings. *)
Definition filled (v : JSValue) : bool :=
  match v with
  | VStr s => nonempty s
  | VArr items =>
      forallb (fun x => match x with VStr s => nonempty s | _ => false end) items
  | _ => false
  end.

Definition is_password (element : Element) : bool :=
  String.eqb (type element) "password".

(** The form of scenario A. *)
Definition scenario_A : list Element :=
  [ mkElement "email" "email" false false (Some "a@b.com") 0 "INPUT";
    mkElement "password" "password" false false (Some "x") 0 "INPUT" ].

(** The timers (and debug lines) the fetch interceptor sets for a target. *)
Definition fetch_timers `{Host} (urlStr : string) : list Event :=
  ((if isGoogleFormsEndpoint urlStr then
      [ ConsoleDebug "FormTrack: Google Forms endpoint detected";
        SetTimeout (CaptureSubmission Google) 200;
        SetTimeout (CaptureSubmission Google) 800;
        SetTimeout (CaptureSubmission Google) 1500 ]
    else []) ++
   (if isMicrosoftFormsEndpoint urlStr then
      [ SetTimeout (CaptureSubmission Microsoft) 300 ]
    else []) ++
   (if isClickUpFormsEndpoint urlStr then
      [ ConsoleDebug "FormTrack: ClickUp Forms endpoint detected";
        SetTimeout (CaptureSubmission ClickUp) 200;
        SetTimeout (CaptureSubmission ClickUp) 800;
        SetTimeout (CaptureSubmission ClickUp) 1500 ]
    else []))%list.

(** The submission the fetch interceptor builds from a call. *)
Definition fetch_submission `{Host} (page : Page) (urlStr : string) (b : Body) : Submission :=
  {| url := urlStr;
     action := urlStr;
     timestamp := now page;
     fields := fetch_parse_body (isGoogleFormsEndpoint urlStr) b;
     title := or_else (doc_title page) "Untitled Page";
     source := Some (fetch_source urlStr) |}.

(** The string a URL argument stands for, when it has one. *)
Definition url_text (u : UrlArg) : option string :=
  match u with
  | UrlString s | UrlObject s => Some s
  | UrlUndefined => None
  end.

(** An event of the engine's own, as opposed to the call of a wrapped
    primitive. *)
Definition engine_event `{Host} (ev : Event) : bool :=
  match ev with
  | SendMessage _ | SetTimeout _ _ | ConsoleDebug _ => true
  | _ => false
  end.

(** A [method] on which [toUpperCase] can be called, or a falsy one. *)
Definition string_or_falsy (m : JSValue) : bool :=
  match m with
  | VStr _ => true
  | _ => negb (truthy m)
  end.

(** The submissions among the events of one run. *)
Fixpoint sends `{Host} (evs : list Event) : list Submission :=
  match evs with
  | [] => []
  | SendMessage data :: rest => data :: sends rest
  | _ :: rest => sends rest
  end.

(** What the events of the [try] block of the fetch interceptor are,
    whether or not it threw. *)
Definition fetch_try_events `{Host} (page : Page) (u : UrlArg) (o : Options) : list Event :=
  match url_text u with
  | Some urlStr =>
      (fetch_timers urlStr ++
       (if (0 <? size (fetch_parse_body (isGoogleFormsEndpoint urlStr) (body o)))%nat
        then [SendMessage (fetch_submission page urlStr (body o))] else []))%list
  | None => []
  end.

(** The outer condition of the fetch interceptor when its [method] is a
    string or falsy. *)
Definition fetch_guard_value (o : Options) : bool :=
  match method o with
  | VStr s =>
      nonempty s &&
      (String.eqb (toUpperCase s) "POST" || String.eqb (toUpperCase s) "PUT") &&
      body_truthy (body o)
  | _ => false
  end.

(** The engine's own events during a call of the wrapped [fetch]. *)
Definition fetch_events `{Host} (page : Page) (args : FetchArgs) : list Event :=
  match options args with
  | Some o => if fetch_guard_value o then fetch_try_events page (url_arg args) o else []
  | None => []
  end.

(** The same for the wrapped [send]. *)
Definition xhr_guard_value (this : Xhr) : bool :=
  match _formtrackMethod this with
  | VStr s =>
      nonempty s &&
      (String.eqb (toUpperCase s) "POST" || String.eqb (toUpperCase s) "PUT") &&
      url_truthy (_formtrackUrl this)
  | _ => false
  end.

Definition xhr_timers `{Host} (urlStr : string) (data : Body) : list Event :=
  ((if (0 <? size (xhr_parse_body data))%nat then
      [ SetTimeout (XhrDispatch (xhr_parse_body data) urlStr
                      (isMicrosoftFormsEndpoint urlStr)
                      (isClickUpFormsEndpoint urlStr)) 200 ]
    else []) ++
   (if isMicrosoftFormsEndpoint urlStr
    then [ SetTimeout (CaptureSubmission Microsoft) 300 ] else []) ++
   (if isClickUpFormsEndpoint urlStr
    then [ SetTimeout (CaptureSubmission ClickUp) 300 ] else []))%list.

Definition xhr_events `{Host} (this : Xhr) (data : Body) : list Event :=
  let urlStr := xhr_urlStr (_formtrackUrl this) in
  if xhr_guard_value this &&
     ((isGoogleFormsEndpoint urlStr || isMicrosoftFormsEndpoint urlStr
       || isClickUpFormsEndpoint urlStr) && body_truthy data)
  then xhr_timers urlStr data
  else [].

(** The callbacks that can ever be pending: those set by a listener, by a
    wrapped primitive, or by a callback that was itself pending. *)
Inductive Scheduled `{Host} : Callback -> Prop :=
| set_by_listener l cb delay :
    In (SetTimeout cb delay) (listener_events l) -> Scheduled cb
| set_by_fetch page args cb delay :
    In (SetTimeout cb delay) (fst (interceptFetch page args)) -> Scheduled cb
| set_by_send this data cb delay :
    In (SetTimeout cb delay) (fst (interceptXHR_send this data)) -> Scheduled cb
| set_by_timer cb0 page cb delay :
    Scheduled cb0 -> In (SetTimeout cb delay) (run_callback cb0 page) -> Scheduled cb.

(** The submissions the engine can hand to the delivery channel, by the
    path that sends them. *)
Inductive Dispatched `{Host} : Submission -> Prop :=
| by_native_submit page form data :
    In (SendMessage data) (captureFormSubmission page form) -> Dispatched data
| by_listener l data :
    In (SendMessage data) (listener_events l) -> Dispatched data
| by_fetch page args data :
    In (SendMessage data) (fst (interceptFetch page args)) -> Dispatched data
| by_open this method_ url_ rest data :
    In (SendMessage data) (fst (snd (interceptXHR_open this method_ url_ rest))) ->
    Dispatched data
| by_send this body_ data :
    In (SendMessage data) (fst (interceptXHR_send this body_)) -> Dispatched data
| by_timer cb page data :
    Scheduled cb -> In (SendMessage data) (run_callback cb page) -> Dispatched data.

(** A callback whose submission, if it carries one, has fields. *)
Definition callback_filled (cb : Callback) : Prop :=
  match cb with
  | XhrDispatch formData _ _ _ => (0 < size formData)%nat
  | _ => True
  end.

(** The scenarios run on the reference host. *)
Definition contact_page : @Page browser :=
  page_of "https://example.com/contact" "example.com" "/contact" blank.

Definition login_post : FetchArgs := post "https://example.com/login" "user=bob".

Definition numeric_method_call : FetchArgs :=
  mkFetchArgs (UrlString "https://example.com/api")
              (Some (mkOptions (VNum "1") (BodyString "a=1"))).

(** A request after [open(1, "https://example.com/api")] on the wrapped
    [open]. *)
Definition numeric_method_xhr : Xhr :=
  fst (@interceptXHR_open browser (mkXhr 0 UrlUndefined VUndefined)
         (VNum "1") (UrlString "https://example.com/api") []).

Definition blank_comment_post : FetchArgs :=
  post "https://example.com/api/contact" "comment=".

Definition subscribe_post : FetchArgs :=
  post "https://example.com/subscribe" "email=a%40b.com".

(** The source value in the words of the specification. *)
Definition spec_fetch_source (urlStr : string) : string :=
  if isGoogleFormsEndpoint urlStr then "google-forms"
  else if isMicrosoftFormsEndpoint urlStr then "microsoft-forms"
  else if isClickUpFormsEndpoint urlStr then "clickup-forms"
  else "fetch-generic".

(** Neither an empty string nor [undefined] among the values. *)
Definition no_blank_values (f : Fields) : Prop :=
  forall k v, f !! k = Some v -> v <> VStr EmptyString /\ v <> VUndefined.

(** The submission [subscribe_post] leads to. *)
Definition subscribe_submission : Submission :=
  @fetch_submission browser contact_page "https://example.com/subscribe"
                    (BodyString "email=a%40b.com").

(** Claim C5 at one call of the wrapped [fetch]: the submissions it
    sends carry no empty-string and no [undefined] value. *)
Definition C5_claim_at `{Host} (page : Page) (args : FetchArgs) : Prop :=
  forall data, In (SendMessage data) (fst (interceptFetch page args)) ->
               no_blank_values (fields data).

(** Claim C8 at one call of the wrapped [fetch]: the submission built
    from it carries the source the specification names. *)
Definition C8_claim_at `{Host} (page : Page) (args : FetchArgs) : Prop :=
  forall data, In (SendMessage data) (fst (interceptFetch page args)) ->
  exists urlStr, url_text (url_arg args) = Some urlStr /\
                 source data = Some (spec_fetch_source urlStr).

(** A native form with one filled control, for the native path. *)
Definition newsletter_form : Form :=
  mkForm "https://example.com/subscribe"
         [ mkElement "email" "email" false false (Some "a@b.com") 0 "INPUT";
           mkElement "note" "text" false false (Some EmptyString) 0 "INPUT" ].




Definition formResponse_url : string :=
  "https://docs.google.com/forms/d/e/1FAIpQLSd/formResponse".

(** Scenario C: the URL-encoded body [entry.111=Foo]. *)
Definition scenario_C : FetchArgs := post formResponse_url "entry.111=Foo".


(** JSON texts: [{"entry.111":"Foo"}] and [{"entry":1,"entry.111":"Foo"}]. *)
Definition quoted (s : string) : string := String dquote s ++ String dquote EmptyString.


Definition json_marked_entry : string :=
  "{" ++ quoted "entry" ++ ":1," ++ quoted "entry.111" ++ ":" ++ quoted "Foo" ++ "}".

(** How the key of a JSON member is stored by the entry-cleaning loop. *)
Definition entry_key (key : string) : option string :=
  if startsWith "entry." key || startsWith "entry_" key then Some (strip_entry key)
  else if negb (has_password key) then Some key
  else None.


(** Whether a string body ends in the URL-encoded reading: [JSON.parse]
    threw, or returned [null]. *)
Definition json_fails `{Host} (s : string) : bool :=
  match JSON_parse s with
  | Some parsed => nullish parsed
  | None => true
  end.

(** The provider whose capture starts a chain, and its page test. *)
Definition chain_provider (c : Chain) : Provider :=
  match c with GoogleChain => Google | ClickUpChain => ClickUp end.

Definition on_chain_page `{Host} (c : Chain) (page : Page) : bool :=
  match c with
  | GoogleChain => isGoogleForm page
  | ClickUpChain => isClickUpForm page
  end.

(** The submission a chain builds from [formData] on [page]. *)
Definition chain_submission `{Host} (c : Chain) (page : Page) (formData : Fields)
  : Submission :=
  {| url := href page;
     action := href page;
     timestamp := now page;
     fields := formData;
     title := or_else (doc_title page) (chain_title c);
     source := Some (chain_source c) |}.

(** Scenario E on the reference host: a Google Forms page whose scraper
    finds nothing before [t = 600] and one answer from then on. *)
Definition late_answer : Fields := {[ "Your name" := VStr "Ada" ]}.

Definition slow_form (t : nat) : @Page browser :=
  page_of "https://docs.google.com/forms/d/e/1FAIpQLSd/viewform"
          "docs.google.com" "/forms/d/e/1FAIpQLSd/viewform"
          (if (t <? 600)%nat then blank else mkRefDom late_answer ∅ ∅ []).

(** The same page when nothing ever renders. *)
Definition empty_form (t : nat) : @Page browser :=
  page_of "https://docs.google.com/forms/d/e/1FAIpQLSd/viewform"
          "docs.google.com" "/forms/d/e/1FAIpQLSd/viewform" blank.

(** ProviderClassifier in the words of the specification; [None] is
    [native]. *)
Definition classify_spec (hostname pathname : string) : option Provider :=
  if String.eqb hostname "docs.google.com" && includes "/forms/" pathname
  then Some Google
  else if String.eqb hostname "forms.office.com"
          || String.eqb hostname "forms.microsoft.com"
          || String.eqb hostname "forms.office365.com"
  then Some Microsoft
  else if String.eqb hostname "forms.clickup.com" then Some ClickUp
  else None.

(** Claim C7 at one page: the providers detected are the single outcome
    of the specification's classifier. *)
Definition C7_claim_at `{Host} (page : Page) : Prop :=
  detected page =
  match classify_spec (hostname page) (pathname page) with
  | Some p => [p]
  | None => []
  end.

Definition known_hostnames : list string :=
  [ "docs.google.com"; "forms.office.com"; "forms.microsoft.com";
    "forms.office365.com"; "forms.clickup.com" ].

Definition lookalike_page : @Page browser :=
  page_of "https://docs.google.com.example.org/forms/1" "docs.google.com.example.org"
          "/forms/1" blank.

Definition two_marker_page : @Page browser :=
  page_of "https://forms.office.com.forms.clickup.com/" "forms.office.com.forms.clickup.com"
          "/" blank.

Definition office_page : @Page browser :=
  page_of "https://forms.office.com/r/abc" "forms.office.com" "/r/abc" blank.

(** A control the engine has not touched. *)
Definition pristine (button : Control) : Prop :=
  formtrackWatched button = None /\ listeners button = [].

(** A control as the engine leaves it: untouched and unmarked, or marked
    with the listeners of one provider's watcher. *)
Definition tidy (button : Control) : Prop :=
  (opt_truthy (formtrackWatched button) = false /\ listeners button = []) \/
  (opt_truthy (formtrackWatched button) = true /\
   exists p, listeners button = new_listeners p).

(** A document for the reference runs: a submit button (node 1) and a
    link (node 2); every selector of the lists matches the button, twice
    over. *)
Definition two_controls : Controls :=
  {[ 1 := mkControl None [] (Some "Submit") (Some "submit") None;
     2 := mkControl None [] (Some "Help") None None ]}.

Definition button_everywhere (selector : string) (doc : Controls) : option (list nat) :=
  if includes ":has-text" selector then None else Some [1; 1].

(** What a pass of the watcher of [p] can have done to a node: nothing,
    or [watch]. *)
Definition touched (p : Provider) (before after : option Control) : Prop :=
  after = before \/ after = watch p <$> before.

(** [two_controls] after three passes of the Google watcher and one of
    the ClickUp watcher. *)
Definition after_four_passes : Controls :=
  attachListeners button_everywhere ClickUp
    (attachListeners button_everywhere Google
       (attachListeners button_everywhere Google
          (attachListeners button_everywhere Google two_controls))).

Definition watched_button : Control :=
  mkControl (Some "true") [ClickListener Google; MouseDownListener Google]
            (Some "Submit") (Some "submit") None.

(** The timers among the events of one run. *)
Fixpoint timers `{Host} (evs : list Event) : list (Callback * nat) :=
  match evs with
  | [] => []
  | SetTimeout cb delay :: rest => (cb, delay) :: timers rest
  | _ :: rest => timers rest
  end.

(** A Microsoft Forms answer sent through [XMLHttpRequest]. *)
Definition office_response_url : string :=
  "https://forms.office.com/formapi/api/Response".

Definition office_xhr : Xhr :=
  fst (@interceptXHR_open browser (mkXhr 1 UrlUndefined VUndefined)
         (VStr "POST") (UrlString office_response_url) []).

Definition office_dispatch : Callback :=
  XhrDispatch {[ "answer" := VStr "42" ]} office_response_url true false.

Definition office_submission : Submission :=
  {| url := "https://example.com/contact";
     action := office_response_url;
     timestamp := "2024-01-01T00:00:00.000Z";
     fields := {[ "answer" := VStr "42" ]};
     title := "A page";
     source := Some "microsoft-forms" |}.

(** ** Further readings of the engine *)

(** The values the controls named [k] contribute, in document order. *)
Fixpoint values_of (k : string) (form : list Element) : list string :=
  match form with
  | [] => []
  | element :: rest =>
      match element_value element with
      | Store v =>
          if String.eqb (name element) k then v :: values_of k rest
          else values_of k rest
      | Continue => values_of k rest
      end
  end.

(** How a key holds its values: nothing, the one value, or the array of
    all of them. *)
Definition pack (vs : list string) : option JSValue :=
  match vs with
  | [] => None
  | [v] => Some (VStr v)
  | _ => Some (VArr (map VStr vs))
  end.

(** The interests form of scenario D, with an unchecked box in between. *)
Definition interests_form : list Element :=
  [ mkElement "interests" "checkbox" false true (Some "a") 0 "INPUT";
    mkElement "interests" "checkbox" false false (Some "x") 0 "INPUT";
    mkElement "interests" "checkbox" false true (Some "b") 0 "INPUT" ].

(** The value the last-resort pass reads from an element, and whether it
    is blank. *)
Definition lastResort_value (input : LastResortInput) : string :=
  or_else (lr_value input) (lr_textContent input).

Definition lastResort_blank (input : LastResortInput) : bool :=
  negb (has_non_space (lastResort_value input)).

(** What a chain dispatched: nothing, or the one submission it built on
    the page of some instant, from the scraper's mapping when that was
    not empty and from the last-resort pass otherwise. *)
Definition chain_result `{Host} (c : Chain) (page_at : nat -> Page)
    (submissions : list Submission) : Prop :=
  submissions = [] \/
  exists t formData,
    submissions = [chain_submission c (page_at t) formData] /\
    formData <> ∅ /\
    (formData = chain_extract c (dom (page_at t)) \/
     (chain_extract c (dom (page_at t)) = ∅ /\
      formData = lastResort c (lastResortInputs (dom (page_at t))) ∅)).


Definition two_inputs : list LastResortInput :=
  [ mkLastResortInput "Ada" EmptyString (Some "name") None None None None;
    mkLastResortInput "   " EmptyString (Some "blank") None None None None ].


(** A page that no provider test accepts. *)
Definition no_provider `{Host} (page : Page) : Prop :=
  isGoogleForm page = false /\ isMicrosoftForm page = false /\
  isClickUpForm page = false.

Definition is_capture (cb : Callback) : Prop :=
  exists p, cb = CaptureSubmission p.

Definition watched (button : Control) : bool := opt_truthy (formtrackWatched button).

(** A selector semantics for the reference runs that matches node 1 for
    every selector and rejects none. *)
Definition button_always (selector : string) (doc : Controls) : option (list nat) :=
  Some [1].

Definition get_request : FetchArgs :=
  mkFetchArgs (UrlString formResponse_url)
              (Some (mkOptions (VStr "get") (BodyString "entry.111=Foo"))).

Definition entry_prefixed (key : string) : bool :=
  startsWith "entry." key || startsWith "entry_" key.

Definition clickup_api_url : string := "https://forms.clickup.com/api/form/123/submit".

Definition json_plain_body : string :=
  "{" ++ quoted "email" ++ ":" ++ quoted "a@b.com" ++ "}".

(** ** The provider scrapers

    An element matched by a scraper's [querySelectorAll], with what the
    scrapers read from it.  An attribute that is absent is [None];
    [s_value] is [None] for an element without a [value] property and
    [s_type] for one without a [type] property.  [s_labelText] is
    [label?.textContent?.trim()] for the label the scraper's selector
    finds in the question container ([None] when there is no container
    or no label in it), [s_itemId] the [data-item-id] of the closest
    container, [s_prev] the tag name and trimmed text of the previous
    sibling, [s_wrapPrevText] the trimmed text of the previous sibling of
    the closest enclosing [label], [s_nextText] that of the next
    sibling. *)
Record Scraped := mkScraped {
  s_type : option string;
  s_tagName : string;
  s_value : option string;
  s_textContent : string;
  s_checked : bool;
  s_name : option string;
  s_ariaLabel : option string;
  s_placeholder : option string;
  s_role : option string;
  s_automationId : option string;
  s_testid : option string;
  s_labelText : option string;
  s_itemId : option string;
  s_prev : option (string * string);
  s_wrapPrevText : option string;
  s_nextText : option string
}.

Definition type_in (types : list string) (element : Scraped) : bool :=
  match s_type element with
  | Some t => existsb (String.eqb t) types
  | None => false
  end.

Definition is_box (element : Scraped) : bool := type_in ["checkbox"; "radio"] element.

Definition tag_is (tag : string) (element : Scraped) : bool :=
  String.eqb (s_tagName element) tag.

(** [element.getAttribute('role') === role] *)
Definition role_is (role : string) (element : Scraped) : bool :=
  match s_role element with Some r => String.eqb r role | None => false end.

(** [element.value] as a value. *)
Definition value_of (o : option string) : JSValue :=
  match o with Some s => VStr s | None => VUndefined end.

(** [element.value || element.textContent] *)
Definition value_or_text (element : Scraped) : JSValue :=
  match s_value element with
  | Some v => if nonempty v then VStr v else VStr (s_textContent element)
  | None => VStr (s_textContent element)
  end.

(** [fieldName && fieldValue !== null && fieldValue !== ''] *)
Definition storable (fieldName : option string) (fieldValue : JSValue) : bool :=
  opt_truthy fieldName &&
  match fieldValue with
  | VNull => false
  | VStr s => nonempty s
  | _ => true
  end.

(** The store of a text-like field: a first value as it is, then an
    array. *)
Definition scraper_store (formData : Fields) (key : string) (fieldValue : JSValue) : Fields :=
  match formData !! key with
  | Some old =>
      if truthy old then
        match old with
        | VArr items => <[ key := VArr (items ++ [fieldValue])%list ]> formData
        | _ => <[ key := VArr [old; fieldValue] ]> formData
        end
      else <[ key := fieldValue ]> formData
  | None => <[ key := fieldValue ]> formData
  end.

(** The store of a checked box or radio button: always into an array. *)
Definition scraper_group (formData : Fields) (fieldName : string) (fieldValue : JSValue)
  : Fields :=
  let formData :=
    match formData !! fieldName with
    | Some old => if truthy old then formData else <[ fieldName := VArr [] ]> formData
    | None => <[ fieldName := VArr [] ]> formData
    end in
  match formData !! fieldName with
  | Some (VArr items) => <[ fieldName := VArr (items ++ [fieldValue])%list ]> formData
  | Some old => <[ fieldName := VArr [old; fieldValue] ]> formData
  | None => formData
  end.

(** The end of a turn of the loop: the store under the question text, or
    under the field name when the question text is the placeholder. *)
Definition scraper_finish (formData : Fields) (questionText placeholder : string)
    (fieldName : option string) (fieldValue : JSValue) : Fields :=
  if storable fieldName fieldValue then
    let key :=
      if negb (String.eqb questionText placeholder) then questionText
      else default EmptyString fieldName in
    scraper_store formData key fieldValue
  else formData.

(** [Object.assign(formData, state)] for a truthy [state]. *)
Definition object_assign (formData : Fields) (state : JSValue) : Fields :=
  fold_left (fun (fd : Fields) key => <[ key := js_get state key ]> fd)
            (Object_keys state) formData.

Definition merge_state (formData : Fields) (state : JSValue) : Fields :=
  if truthy state then object_assign formData state else formData.

(** One turn of [inputs.forEach((element, index) => ...)] of
    [extractGoogleFormData]. *)
Definition google_step (index : nat) (formData : Fields) (element : Scraped) : Fields :=
  let placeholder := "Question " ++ decimal (index + 1) in
  let questionText := first_truthy [s_labelText element] placeholder in
  if is_box element && s_checked element then
    scraper_group formData
      (first_truthy [s_name element] questionText)
      (VStr (first_truthy [s_value element; s_ariaLabel element] "selected"))
  else
    let '(fieldName, fieldValue) :=
      if type_in ["text"; "email"; "number"; "date"; "time"] element then
        (Some (first_truthy [s_name element; s_ariaLabel element] questionText),
         value_of (s_value element))
      else if is_box element then (None, VNull)
      else if tag_is "TEXTAREA" element then
        (Some (first_truthy [s_name element] questionText), value_of (s_value element))
      else if tag_is "SELECT" element then
        (Some (first_truthy [s_name element] questionText), value_of (s_value element))
      else (None, VNull) in
    let fieldName :=
      if opt_truthy (s_itemId element) && negb (opt_truthy fieldName)
      then Some ("question_" ++ default EmptyString (s_itemId element))
      else fieldName in
    scraper_finish formData questionText placeholder fieldName fieldValue.

(** One turn of the loop of [extractMicrosoftFormData]. *)
Definition microsoft_step (index : nat) (formData : Fields) (element : Scraped) : Fields :=
  let placeholder := "Question " ++ decimal (index + 1) in
  let questionText :=
    first_truthy [s_labelText element; s_ariaLabel element; s_placeholder element]
                 placeholder in
  if is_box element && s_checked element then
    scraper_group formData
      (first_truthy [s_name element] questionText)
      (VStr (first_truthy [s_value element; s_ariaLabel element] "selected"))
  else
    let fieldName :=
      Some (first_truthy [s_name element; s_automationId element] questionText) in
    let '(fieldName, fieldValue) :=
      if type_in ["text"; "email"; "number"; "date"; "time"; "tel"] element then
        (fieldName, value_of (s_value element))
      else if is_box element then (None, VNull)
      else if tag_is "TEXTAREA" element || role_is "textbox" element then
        (fieldName, value_or_text element)
      else if tag_is "SELECT" element || role_is "combobox" element then
        (fieldName, value_of (s_value element))
      else (None, VNull) in
    scraper_finish formData questionText placeholder fieldName fieldValue.

(** The label of the ClickUp scraper.  The conditional operator binds
    weaker than [||]: when the container has a label, or the previous
    sibling is a [LABEL], the label is the previous sibling; otherwise it
    is the previous sibling of the enclosing [label]. *)
Definition clickup_labelText (element : Scraped) : option string :=
  let found := match s_labelText element with Some _ => true | None => false end in
  let prev_is_label :=
    match s_prev element with Some (tag, _) => String.eqb tag "LABEL" | None => false end in
  if found || prev_is_label then option_map snd (s_prev element)
  else s_wrapPrevText element.

(** One turn of the loop of [extractClickUpFormData]. *)
Definition clickup_step (index : nat) (formData : Fields) (element : Scraped) : Fields :=
  let placeholder := "Field " ++ decimal (index + 1) in
  let questionText :=
    first_truthy [clickup_labelText element; s_ariaLabel element; s_placeholder element;
                  s_name element; s_testid element] placeholder in
  if is_box element && s_checked element then
    scraper_group formData
      (first_truthy [s_name element] questionText)
      (VStr (first_truthy [s_value element; s_ariaLabel element; s_nextText element]
                          "selected"))
  else
    let fieldName :=
      Some (first_truthy [s_name element; s_testid element] questionText) in
    let '(fieldName, fieldValue) :=
      if type_in ["text"; "email"; "number"; "tel"; "date"; "time"; "url"] element then
        (fieldName, value_of (s_value element))
      else if is_box element then (None, VNull)
      else if tag_is "TEXTAREA" element || role_is "textbox" element then
        (fieldName, value_or_text element)
      else if tag_is "SELECT" element || role_is "combobox" element then
        (fieldName, value_of (s_value element))
      else (None, VNull) in
    scraper_finish formData questionText placeholder fieldName fieldValue.

Definition scraper_step (p : Provider) : nat -> Fields -> Scraped -> Fields :=
  match p with
  | Google => google_step
  | Microsoft => microsoft_step
  | ClickUp => clickup_step
  end.

Fixpoint scrape (p : Provider) (index : nat) (inputs : list Scraped) (formData : Fields)
  : Fields :=
  match inputs with
  | [] => formData
  | element :: rest => scrape p (S index) rest (scraper_step p index formData element)
  end.

(** A provider's scraper on a document whose selector matches [inputs]
    and whose internal state ([window._gfp.response],
    [window.__MSF_DATACONTEXT.responseData],
    [window.__CLICKUP_FORM_DATA.formData]) is [state], [VUndefined] when
    there is none. *)
Definition scraped_fields (p : Provider) (inputs : list Scraped) (state : JSValue) : Fields :=
  merge_state (scrape p 0 inputs ∅) state.

(** The types a scraper reads as text. *)
Definition text_types (p : Provider) : list string :=
  match p with
  | Google => ["text"; "email"; "number"; "date"; "time"]
  | Microsoft => ["text"; "email"; "number"; "date"; "time"; "tel"]
  | ClickUp => ["text"; "email"; "number"; "tel"; "date"; "time"; "url"]
  end.

(** An element whose value a scraper reads: a text-like input or a
    checked box, and otherwise, unless it is an unchecked box, a text
    area or a select, or off Google an ARIA text box or combo box. *)
Definition scraper_reads (p : Provider) (element : Scraped) : bool :=
  type_in (text_types p) element ||
  (if is_box element then s_checked element
   else
     tag_is "TEXTAREA" element || tag_is "SELECT" element ||
     match p with
     | Google => false
     | _ => role_is "textbox" element || role_is "combobox" element
     end).

Definition has_value (element : Scraped) : bool :=
  match s_value element with Some _ => true | None => false end.

(** A bare element of the given type and tag. *)
Definition bare (type_ : option string) (tag : string) (value_ : option string) : Scraped :=
  mkScraped type_ tag value_ EmptyString false None None None None None None None None
            None None None.

(** A checked box named [k] with value [v]. *)
Definition checked_box (k v : string) : Scraped :=
  mkScraped (Some "checkbox") "INPUT" (Some v) EmptyString true (Some k)
            None None None None None None None None None None.

Definition password_input (v : string) : Scraped :=
  mkScraped (Some "password") "INPUT" (Some v) EmptyString false (Some "pw")
            None None None None None (Some "Password") (Some "7") None None None.

Definition name_input : Scraped :=
  mkScraped (Some "text") "INPUT" (Some "Ada") EmptyString false None
            None None None None None (Some "Your name") (Some "3") None None None.


(** Every value of a mapping is a non-empty string or an array of
    non-empty strings. *)
Definition all_filled (formData : Fields) : Prop :=
  forall k v, formData !! k = Some v -> filled v = true.

(** ** The background worker

    The receiving end of [FORM_SUBMISSION]: [saveSubmission] and
    [sendSubmissionEmail] of [background.js]. *)

Definition MAX_SUBMISSIONS : nat := 200.

(** The [settings] object of [chrome.storage.local]; a member that is
    absent is [VUndefined]. *)
Record Settings := mkSettings {
  resendApiKey : JSValue;
  emailTo : JSValue;
  emailFrom : JSValue;
  emailEnabled : JSValue
}.

(** [result.settings || {}] when nothing is stored. *)
Definition no_settings : Settings :=
  mkSettings VUndefined VUndefined VUndefined VUndefined.

(** What [initStorage] writes. *)
Definition initial_settings : Settings :=
  mkSettings VUndefined VUndefined VUndefined (VBool true).

(** The worker's state: the keys [submissions] and [settings] of
    [chrome.storage.local] ([None] when absent) and the badge text. *)
Record Worker := mkWorker {
  stored : option (list Submission);
  settings : option Settings;
  badge : string
}.

(** What can go wrong in one run of [saveSubmission]: the read or the
    write of the storage rejects, or the badge update does. *)
Inductive Fault : Type := NoFault | GetRejects | SetRejects | BadgeRejects.

(** [saveSubmission(submission)]: the new state and the value the
    promise resolves to. *)
Definition saveSubmission (fault : Fault) (w : Worker) (submission : Submission)
  : Worker * bool :=
  match fault with
  | GetRejects => (w, false)
  | _ =>
      let submissions := submission :: default [] (stored w) in
      let submissions :=
        if (MAX_SUBMISSIONS <? length submissions)%nat
        then firstn MAX_SUBMISSIONS submissions
        else submissions in
      match fault with
      | SetRejects => (w, false)
      | _ =>
          let text :=
            if (0 <? length submissions)%nat then decimal (length submissions)
            else EmptyString in
          (mkWorker (Some submissions) (settings w)
                    (match fault with BadgeRejects => badge w | _ => text end),
           true)
      end
  end.

(** The argument of [sendEmailViaResend]. *)
Record EmailRequest := mkEmailRequest {
  rq_apiKey : JSValue;
  rq_to : JSValue;
  rq_from : JSValue;
  rq_subject : string;
  rq_html : string
}.

Inductive EmailResult : Type :=
| NotConfigured
| Disabled
| Requested (request : EmailRequest)
| EmailError.

(** [settings.emailEnabled === false] *)
Definition is_false (v : JSValue) : bool :=
  match v with VBool false => true | _ => false end.

(** [sendSubmissionEmail(submission)] up to the call of
    [sendEmailViaResend]; [render] is the HTML the function builds from
    the submission (it depends on the locale of the worker), and
    [get_rejects] says that reading the settings fails. *)
Definition sendSubmissionEmail (render : Submission -> string) (get_rejects : bool)
    (w : Worker) (submission : Submission) : EmailResult :=
  if get_rejects then EmailError
  else
    let settings := default no_settings (settings w) in
    if negb (truthy (resendApiKey settings)) || negb (truthy (emailTo settings))
    then NotConfigured
    else if is_false (emailEnabled settings) then Disabled
    else
      Requested
        (mkEmailRequest
           (resendApiKey settings)
           (emailTo settings)
           (if truthy (emailFrom settings) then emailFrom settings
            else VStr "onboarding@resend.dev")
           ("Form Submission: " ++ or_else (title submission) "New Submission")
           (render submission)).

(** The listener's branch for [FORM_SUBMISSION]: the save, then the
    e-mail when the save succeeded. *)
Definition onFormSubmission (render : Submission -> string) (fault : Fault)
    (get_rejects : bool) (w : Worker) (submission : Submission)
  : Worker * option EmailResult :=
  let '(w', success) := saveSubmission fault w submission in
  (w', if success then Some (sendSubmissionEmail render get_rejects w' submission)
       else None).

(** A run of saves, each with its fault. *)
Fixpoint save_all (w : Worker) (runs : list (Fault * Submission)) : Worker :=
  match runs with
  | [] => w
  | (fault, submission) :: rest => save_all (fst (saveSubmission fault w submission)) rest
  end.

(** The faults under which a save still writes the storage. *)
Definition save_ok (fault : Fault) : bool :=
  match fault with NoFault | BadgeRejects => true | _ => false end.

(** The submissions a run of saves writes, oldest first. *)
Definition written (runs : list (Fault * Submission)) : list Submission :=
  map snd (List.filter (fun r => save_ok (fst r)) runs).

Definition submission_of (title_ : string) : Submission :=
  mkSubmission "https://example.com/" "https://example.com/post"
               "2024-01-01T00:00:00.000Z" ∅ title_ None.

(** The badge shows the number of stored submissions. *)
Definition badge_counts (w : Worker) : Prop :=
  badge w = decimal (length (default [] (stored w))).

Definition configured : Settings :=
  mkSettings (VStr "re_123") (VStr "me@example.com") VUndefined VUndefined.

(** ** safeSendMessage

    What [chrome.runtime.sendMessage(message)] does when it is called:
    it returns a promise that fulfils or one that rejects with an error
    of the given message, or it throws, or it returns no promise. *)
Inductive SendBehaviour : Type :=
| SendResolves
| SendRejects (errorMessage : string)
| SendThrows (errorMessage : string)
| SendNoPromise.

(** The extension runtime as the content script finds it. *)
Inductive Runtime : Type :=
| ChromeUndefined
| RuntimeMissing
| RuntimeThrows (errorMessage : string)
| IdThrows
| IdFalsy
| SendMessageMissing
| Ready (send : SendBehaviour).

Inductive PromiseState : Type := Fulfilled | Rejected (reason : string).

(** What a call of [safeSendMessage] did: whether the message was handed
    to [chrome.runtime.sendMessage], what was logged, and how the call
    ended. *)
Record SendReport := mkSendReport {
  handed_over : bool;
  debug_lines : list string;
  ended : Outcome PromiseState
}.

Definition invalidated (errorMessage : string) : bool :=
  includes "Extension context invalidated" errorMessage ||
  includes "context invalidated" errorMessage.

(** The outer [catch]. *)
Definition send_caught (handed : bool) (errorMessage : string) : SendReport :=
  mkSendReport handed
    [ if invalidated errorMessage then "FormTrack: Extension context invalidated"
      else "FormTrack: Error accessing chrome.runtime" ]
    (Returned Fulfilled).

Definition safeSendMessage (chrome : Runtime) : SendReport :=
  match chrome with
  | ChromeUndefined | RuntimeMissing =>
      mkSendReport false ["FormTrack: chrome.runtime not available"] (Returned Fulfilled)
  | RuntimeThrows errorMessage => send_caught false errorMessage
  | IdFalsy =>
      mkSendReport false ["FormTrack: Extension context invalidated (no ID)"]
                   (Returned Fulfilled)
  | IdThrows =>
      mkSendReport false ["FormTrack: Extension context invalidated"] (Returned Fulfilled)
  | SendMessageMissing =>
      mkSendReport false ["FormTrack: chrome.runtime.sendMessage not available"]
                   (Returned Fulfilled)
  | Ready SendResolves => mkSendReport true [] (Returned Fulfilled)
  | Ready (SendRejects errorMessage) =>
      mkSendReport true
        [ if invalidated errorMessage
          then "FormTrack: Extension context invalidated, message not sent"
          else "FormTrack: Could not send message" ]
        (Returned Fulfilled)
  | Ready (SendThrows errorMessage) => send_caught true errorMessage
  | Ready SendNoPromise =>
      send_caught true "Cannot read properties of undefined (reading 'catch')"
  end.

(** ** The popup: truncateUrl

    [slice] with one and with two arguments, on a string given by its
    characters; a negative position counts from the end. *)
Fixpoint string_take (n : nat) (s : string) : string :=
  match n, s with
  | S n', String c r => String c (string_take n' r)
  | _, _ => EmptyString
  end.

Definition slice_position (len : nat) (position : Z) : nat :=
  Z.to_nat (if (position <? 0)%Z then Z.max (Z.of_nat len + position) 0
            else Z.min position (Z.of_nat len)).

(** [s.slice(start)] *)
Definition slice_from (s : string) (start : Z) : string :=
  string_drop (slice_position (String.length s) start) s.

(** [s.slice(0, end)] *)
Definition slice_to (s : string) (end_ : Z) : string :=
  string_take (slice_position (String.length s) end_) s.

(** [truncateUrl(url, maxLength)] of [popup.js]; [parse] is [new URL]
    followed by the reads of [hostname] and [pathname], [None] when the
    constructor throws; [url] is [None] for [undefined] and [null]. *)
Definition truncateUrl (parse : string -> option (string * string)) (url : option string)
    (maxLength : nat) : string :=
  match url with
  | None => "Unknown"
  | Some url =>
      if negb (nonempty url) then "Unknown"
      else if (String.length url <=? maxLength)%nat then url
      else
        match parse url with
        | Some (host, path) =>
            if (String.length host + String.length path <=? maxLength)%nat
            then host ++ path
            else host ++ "..." ++
                 slice_from path
                   (- (Z.of_nat maxLength - Z.of_nat (String.length host) - 3))%Z
        | None => slice_to url (Z.of_nat maxLength - 3)%Z ++ "..."
        end
  end.

(** A parser for the examples, for URLs of the form [https://host/path]
    without port, query or fragment: the host is what precedes the first
    slash after the scheme, the path the rest ([/] when there is none);
    another string does not parse. *)
Fixpoint split_at_slash (s : string) : option (string * string) :=
  match s with
  | EmptyString => None
  | String c r =>
      if Ascii.eqb c "/" then Some (EmptyString, s)
      else match split_at_slash r with
           | Some (host, path) => Some (String c host, path)
           | None => None
           end
  end.

Definition parse_https (url_ : string) : option (string * string) :=
  if startsWith "https://" url_ then
    match split_at_slash (string_drop 8 url_) with
    | Some parts => Some parts
    | None => Some (string_drop 8 url_, "/")
    end
  else None.

(** ** init

    What [init] installs, in the order of the code. *)
Inductive InitAction : Type :=
| ListenSubmit
| InstallFetch
| InstallXHR
| SetupNow (p : Provider)
| SetupLater (p : Provider) (delay : nat)
| Recheck (interval : nat)
| Log (text suffix : string).

Definition provider_name (p : Provider) : string :=
  match p with
  | Google => "Google Forms"
  | Microsoft => "Microsoft Forms"
  | ClickUp => "ClickUp Forms"
  end.

Definition setup_if (holds : bool) (p : Provider) : list InitAction :=
  if holds then [SetupNow p; SetupLater p 1000] else [].

(** The test before [setInterval]: on the host name as it is. *)
Definition recheck_host `{Host} (page : Page) : bool :=
  includes "docs.google.com" (hostname page) ||
  includes "forms.office.com" (hostname page) ||
  includes "forms.microsoft.com" (hostname page) ||
  includes "forms.office365.com" (hostname page) ||
  includes "forms.clickup.com" (hostname page).

(** The closing [console.log]. *)
Definition init_log `{Host} (page : Page) : InitAction :=
  Log "FormTrack: Content script loaded"
      (match detected page with
       | [] => EmptyString
       | names => "(" ++ String.concat ", " (map provider_name names) ++ " detected)"
       end).

(** [init()]; [has_fetch] and [has_xhr] say whether [window.fetch] and
    [window.XMLHttpRequest] are there. *)
Definition init `{Host} (has_fetch has_xhr : bool) (page : Page) : list InitAction :=
  ([ListenSubmit] ++
   (if has_fetch then [InstallFetch] else []) ++
   (if has_xhr then [InstallXHR] else []) ++
   setup_if (isGoogleForm page) Google ++
   setup_if (isMicrosoftForm page) Microsoft ++
   setup_if (isClickUpForm page) ClickUp ++
   (if recheck_host page then [Recheck 2000] else []) ++
   [init_log page])%list.

(** ** The popup: the source badge

    [submission.source === label] *)
Definition source_is (label : string) (submission : Submission) : bool :=
  match source submission with Some s => String.eqb s label | None => false end.

(** The badge [renderSubmission] puts next to the URL. *)
Definition sourceBadge (submission : Submission) : option Provider :=
  let isGoogleForm :=
    source_is "google-forms" submission ||
    includes "docs.google.com/forms/" (url submission) in
  let isMicrosoftForm :=
    source_is "microsoft-forms" submission ||
    includes "forms.office.com" (url submission) ||
    includes "forms.microsoft.com" (url submission) ||
    includes "forms.office365.com" (url submission) in
  let isClickUpForm :=
    source_is "clickup-forms" submission ||
    includes "forms.clickup.com" (url submission) in
  if isGoogleForm then Some Google
  else if isMicrosoftForm then Some Microsoft
  else if isClickUpForm then Some ClickUp
  else None.

Definition clickup_page : @Page browser :=
  page_of "https://forms.clickup.com/123/f/abc" "forms.clickup.com" "/123/f/abc" blank.

(** What the wrapped send builds on [clickup_page] from a request to
    [clickup_api_url]. *)
Definition clickup_api_submission : Submission :=
  mkSubmission "https://forms.clickup.com/123/f/abc" clickup_api_url
               "2024-01-01T00:00:00.000Z" ∅ "A page" (Some "microsoft-forms").

(** [fieldValue !== null && fieldValue !== ''] *)
Definition not_blank (fieldValue : JSValue) : bool :=
  match fieldValue with
  | VNull => false
  | VStr s => nonempty s
  | _ => true
  end.

(** An element that adds to the scraped mapping: a checked box, or an
    element the scraper reads whose value passes the test before the
    store. *)
Definition scraper_contributes (p : Provider) (element : Scraped) : bool :=
  if is_box element && s_checked element then true
  else if type_in (text_types p) element then not_blank (value_of (s_value element))
  else if is_box element then false
  else
    match p with
    | Google =>
        if tag_is "TEXTAREA" element || tag_is "SELECT" element
        then not_blank (value_of (s_value element))
        else false
    | _ =>
        if tag_is "TEXTAREA" element || role_is "textbox" element
        then not_blank (value_or_text element)
        else if tag_is "SELECT" element || role_is "combobox" element
        then not_blank (value_of (s_value element))
        else false
    end.


(** ** Where the embedding is exact

    A string is given by its bytes.  On a string of ASCII characters the
    bytes are the UTF-16 code units of the JavaScript string, and
    [toLowerCase], [toUpperCase] and [trim] act as defined above. *)
Definition is_ascii (s : string) : bool :=
  forallb (fun c => (nat_of_ascii c <? 128)%nat) (list_ascii_of_string s).

(** The names of the members of [Object.prototype].  A mapping is an
    object literal: a read of [formData[key]] with one of these names
    finds the inherited member when the object has no such key of its
    own, and an assignment to [__proto__] adds no key. *)
Definition Object_prototype_names : list string :=
  [ "constructor"; "__defineGetter__"; "__defineSetter__"; "hasOwnProperty";
    "__lookupGetter__"; "__lookupSetter__"; "isPrototypeOf"; "propertyIsEnumerable";
    "toString"; "valueOf"; "__proto__"; "toLocaleString" ].

Definition plain_key (key : string) : bool :=
  negb (existsb (String.eqb key) Object_prototype_names).

Definition not_proto (key : string) : bool := negb (String.eqb key "__proto__").

(** A value that is neither the empty string nor [undefined] and, when
    it is an array, has no such item. *)
Definition not_void_item (v : JSValue) : bool :=
  match v with
  | VStr s => nonempty s
  | VUndefined => false
  | _ => true
  end.

Definition not_void (v : JSValue) : bool :=
  match v with
  | VArr items => forallb not_void_item items
  | _ => not_void_item v
  end.

(** The same without the test for [undefined]. *)
Definition not_empty_item (v : JSValue) : bool :=
  match v with
  | VStr s => nonempty s
  | _ => true
  end.

Definition no_empty_string (v : JSValue) : bool :=
  match v with
  | VArr items => forallb not_empty_item items
  | _ => not_empty_item v
  end.


(** ** The submit listener on the document

    What [event.target.action] gives the listener.  A form exposes its
    controls as properties that take precedence over its own: when a
    control of the form is named [action] (or has that id),
    [form.action] is that control and not the action URL.  A falsy value
    is given as the empty string. *)
Inductive FormAction : Type :=
| ActionUrl (action_url : string)
| ActionControl.

(** The target of a submit event: its [action], and the items of its
    [elements], whatever that is: the form's controls; the items of a
    control named [elements]; none when [elements] has no [length];
    [None] when the target has no [elements] at all. *)
Record SubmitTarget := mkSubmitTarget {
  target_action : FormAction;
  target_elements : option (list Element)
}.

(** The listener [captureFormSubmission] on a submit event.  With a
    control in the place of the action URL, [shouldIgnore] throws when
    it calls [toLowerCase] on it, and without [elements] the extractor
    throws when it reads their [length]; the listener has no [try]. *)
Definition onSubmit `{Host} (page : Page) (target : SubmitTarget) : M unit :=
  match target_action target with
  | ActionUrl a =>
      if shouldIgnore (Some (href page)) (Some (or_else a (href page)))
      then mret tt
      else
        match target_elements target with
        | Some formElements =>
            (captureFormSubmission page (mkForm a formElements), Returned tt)
        | None => throw (TypeError "Cannot read properties of undefined (reading 'length')")
        end
  | ActionControl => throw (TypeError "(action || '').toLowerCase is not a function")
  end.

Definition newsletter_target : SubmitTarget :=
  mkSubmitTarget (ActionUrl (form_action newsletter_form))
                 (Some (elements newsletter_form)).

(** An element of the last-resort pass none of whose candidate names is
    [__proto__], and whose value is made of ASCII characters ([trim]
    then strips exactly the white space [has_non_space] knows). *)
Definition lastResort_exact (input : LastResortInput) : bool :=
  is_ascii (lastResort_value input) &&
  forallb (fun candidate => match candidate with
                            | Some n => not_proto n
                            | None => true
                            end)
          [lr_name input; lr_ariaLabel input; lr_testid input; lr_heading input;
           lr_label input].

(** A click on a control of the document.  The event travels down its
    propagation path, from the outermost ancestor to the control itself,
    and the engine's listeners are capture listeners: those of every
    node of the path run, in that order, unless a listener of the page
    stops the propagation.  [path] lists the nodes of the path, the
    clicked one last. *)
Definition click_path `{Host} (doc : Controls) (path : list nat) : list Event :=
  flat_map (fun node => match doc !! node with
                        | Some button => click button
                        | None => []
                        end) path.

Definition press_path `{Host} (doc : Controls) (path : list nat) : list Event :=
  flat_map (fun node => match doc !! node with
                        | Some button => press button
                        | None => []
                        end) path.

(** The nodes of a path that a watcher has marked. *)
Definition watched_on (doc : Controls) (path : list nat) : list nat :=
  List.filter (fun node => match doc !! node with
                           | Some button => watched button
                           | None => false
                           end) path.

(** A submit button (node 1) inside a wrapper (node 2) whose class
    contains [submit]: the ClickUp selectors match both. *)
Definition nested_controls : Controls :=
  {[ 1 := mkControl None [] (Some "Submit") (Some "submit") None;
     2 := mkControl None [] (Some "Submit") None None ]}.

Definition both_everywhere (selector : string) (doc : Controls) : option (list nat) :=
  Some [1; 2].

(** An element none of whose texts that a scraper can take as a key (a
    name, a label, a placeholder, an automation or test id, the text of
    a label or of a sibling) is the name of a member of
    [Object.prototype]. *)
Definition scraper_plain (element : Scraped) : bool :=
  forallb (fun candidate => match candidate with
                            | Some key => plain_key key
                            | None => true
                            end)
          [s_name element; s_ariaLabel element; s_placeholder element;
           s_automationId element; s_testid element; s_labelText element;
           option_map snd (s_prev element); s_wrapPrevText element].

(** *** Saves that overlap

    The listener starts [saveSubmission] for each message and does not
    wait for it, and [saveSubmission] gives the control back at its two
    [await]s: between the read of one save and its write, other saves
    can read and write.  A save that has read and not yet written is
    pending, with the list it read. *)
Record Pending := mkPending {
  p_fault : Fault;
  p_submission : Submission;
  p_read : list Submission
}.

Inductive SaveAction : Type :=
| SaveReads (fault : Fault) (submission : Submission)
| SaveWrites (n : nat).

(** The first part of [saveSubmission], up to the value of the read. *)
Definition save_begin (fault : Fault) (submission : Submission) (w : Worker)
    (pending : list Pending) : list Pending :=
  match fault with
  | GetRejects => pending
  | _ => (pending ++ [mkPending fault submission (default [] (stored w))])%list
  end.

(** The rest of it: the list is built from what was read, written, and
    the badge is set. *)
Definition save_end (p : Pending) (w : Worker) : Worker :=
  let submissions := p_submission p :: p_read p in
  let submissions :=
    if (MAX_SUBMISSIONS <? length submissions)%nat
    then firstn MAX_SUBMISSIONS submissions
    else submissions in
  match p_fault p with
  | GetRejects | SetRejects => w
  | fault =>
      let text :=
        if (0 <? length submissions)%nat then decimal (length submissions)
        else EmptyString in
      mkWorker (Some submissions) (settings w)
               (match fault with BadgeRejects => badge w | _ => text end)
  end.

(** A schedule: messages arrive (each save reads at once) and pending
    saves resume, the [n]-th of those pending. *)
Fixpoint run_saves (w : Worker) (pending : list Pending) (actions : list SaveAction)
  : Worker * list Pending :=
  match actions with
  | [] => (w, pending)
  | SaveReads fault submission :: rest =>
      run_saves w (save_begin fault submission w pending) rest
  | SaveWrites n :: rest =>
      match pending !! n with
      | Some p => run_saves (save_end p w) (delete n pending) rest
      | None => run_saves w pending rest
      end
  end.

(** The schedule in which each save ends before the next one starts. *)
Definition one_by_one (runs : list (Fault * Submission)) : list SaveAction :=
  flat_map (fun r => [SaveReads (fst r) (snd r); SaveWrites 0]) runs.

(** * Properties *)

(** A timer among those set is a [SetTimeout] event of the run. *)
Lemma timers_In `{Host} (evs : list Event) (cb : Callback) (delay : nat) :
  In (cb, delay) (timers evs) -> In (SetTimeout cb delay) evs.
Proof.
  induction evs as [|ev evs IH]; simpl; [done|].
  destruct ev; simpl; try (intros Hin; right; by apply IH).
  intros [[= -> ->] | Hin]; [by left | right; by apply IH].
Qed.

(** A submission among those sent is a [SendMessage] event of the run. *)
Lemma sends_In `{Host} (evs : list Event) (data : Submission) :
  In data (sends evs) -> In (SendMessage data) evs.
Proof.
  induction evs as [|ev evs IH]; simpl; [done|].
  destruct ev; simpl; try (intros Hin; right; by apply IH).
  intros [-> | Hin]; [by left | right; by apply IH].
Qed.

(** ** GenericExtractor *)

Lemma element_value_password element :
  is_password element = true -> element_value element = Continue.
Proof.
  unfold is_password, element_value. intros ->.
  by destruct (negb (nonempty (name element))).
Qed.

Lemma element_value_not_password element v :
  element_value element = Store v -> is_password element = false.
Proof.
  intros Hv. destruct (is_password element) eqn:Hp; [|done].
  by rewrite (element_value_password _ Hp) in Hv.
Qed.

Lemma element_value_nonempty element v :
  element_value element = Store v -> nonempty v = true.
Proof.
  unfold element_value.
  repeat match goal with
         | |- context [if ?b then _ else _] => destruct b eqn:?
         | |- context [match value ?e with _ => _ end] => destruct (value e) eqn:?
         end; simpl; try discriminate;
    repeat match goal with
           | |- context [if ?b then _ else _] => destruct b eqn:?
           end; try discriminate; intros [= <-]; done.
Qed.

Lemma extract_step_password formData element :
  is_password element = true -> extract_step formData element = formData.
Proof. intros Hp. unfold extract_step. by rewrite element_value_password. Qed.

Lemma fold_extract_filter form : forall formData,
  fold_left extract_step form formData =
  fold_left extract_step (List.filter (fun e => negb (is_password e)) form) formData.
Proof.
  induction form as [|element form IH]; intros formData; simpl; [done|].
  destruct (is_password element) eqn:Hp; simpl.
  - rewrite extract_step_password; [apply IH | done].
  - apply IH.
Qed.

Lemma store_value_dom formData key v k :
  is_Some (store_value formData key v !! k) -> k = key \/ is_Some (formData !! k).
Proof.
  unfold store_value. intros Hk.
  destruct (decide (k = key)) as [->|Hne]; [by left | right].
  destruct (formData !! key) as [old|]; [destruct (truthy old); [destruct old|]|];
    by rewrite lookup_insert_ne in Hk.
Qed.

Lemma fold_extract_origin form : forall formData k,
  is_Some (fold_left extract_step form formData !! k) ->
  is_Some (formData !! k) \/
  exists element v, In element form /\ name element = k /\
                    is_password element = false /\ element_value element = Store v.
Proof.
  induction form as [|element form IH]; intros formData k Hk; simpl in *; [by left|].
  destruct (IH _ _ Hk) as [Hstep | (e & v & Hin & Hn & Hp & Hv)].
  - unfold extract_step in Hstep.
    destruct (element_value element) as [|v] eqn:Hv; [by left|].
    destruct (store_value_dom _ _ _ _ Hstep) as [-> | Hold]; [right | by left].
    exists element, v. repeat split; auto. by eapply element_value_not_password.
  - right. exists e, v. auto.
Qed.

Lemma store_value_filled formData key v :
  nonempty v = true ->
  (forall k x, formData !! k = Some x -> filled x = true) ->
  forall k x, store_value formData key v !! k = Some x -> filled x = true.
Proof.
  intros Hv Hall k x. unfold store_value.
  destruct (decide (k = key)) as [->|Hne].
  - destruct (formData !! key) as [old|] eqn:Hold.
    + specialize (Hall _ _ Hold).
      destruct (truthy old); [destruct old|]; rewrite lookup_insert_eq;
        intros [= <-]; simpl in *; try done.
      * by rewrite Hall, Hv.
      * rewrite forallb_app, Hall. simpl. by rewrite Hv.
    + rewrite lookup_insert_eq. by intros [= <-].
  - destruct (formData !! key) as [old|]; [destruct (truthy old); [destruct old|]|];
      rewrite lookup_insert_ne by done; apply Hall.
Qed.

Lemma fold_extract_filled form : forall formData,
  (forall k x, formData !! k = Some x -> filled x = true) ->
  forall k x, fold_left extract_step form formData !! k = Some x -> filled x = true.
Proof.
  induction form as [|element form IH]; intros formData Hall; simpl; [done|].
  apply IH. unfold extract_step.
  destruct (element_value element) as [|v] eqn:Hv; [done|].
  apply store_value_filled; [by eapply element_value_nonempty | done].
Qed.

(** C1.  The generic extractor takes nothing from a password control: the
    mapping is the one the form gives once its password controls are
    removed, and every key of the mapping is the name of a control that is
    not of type password and contributed a value.  The form of scenario A
    (email "a@b.com", password "x") yields exactly [{email: "a@b.com"}],
    with no [password] key. *)
Theorem C1_password_controls_excluded :
  (forall form,
     extractFormData form =
     extractFormData (List.filter (fun e => negb (is_password e)) form)) /\
  (forall form k,
     is_Some (extractFormData form !! k) ->
     exists element v, In element form /\ name element = k /\
                       String.eqb (type element) "password" = false /\
                       element_value element = Store v) /\
  extractFormData scenario_A = {[ "email" := VStr "a@b.com" ]} /\
  extractFormData scenario_A !! "password" = None.
Proof.
  split; [|split; [|split]].
  - intros form. apply fold_extract_filter.
  - intros form k Hk.
    destruct (fold_extract_origin form ∅ k Hk) as [Hempty | Hex]; [|exact Hex].
    rewrite lookup_empty in Hempty. by destruct Hempty.
  - vm_compute. reflexivity.
  - vm_compute. reflexivity.
Qed.

(** ** NetworkInterceptor *)

Section Interceptors.
Context `{Host}.

Lemma fetch_observe_events page u o :
  fetch_observe page u o =
  match url_text u with
  | Some urlStr =>
      ((fetch_timers urlStr ++
        (if (0 <? size (fetch_parse_body (isGoogleFormsEndpoint urlStr) (body o)))%nat
         then [SendMessage (fetch_submission page urlStr (body o))] else []))%list,
       Returned tt)
  | None => ([], Threw (TypeError "Cannot read properties of undefined"))
  end.
Proof.
  unfold fetch_observe, fetch_timers, fetch_submission.
  destruct u as [s|s|]; simpl; [| |done];
    destruct (isGoogleFormsEndpoint s), (isMicrosoftFormsEndpoint s),
      (isClickUpFormsEndpoint s);
    simpl;
    match goal with
    | |- context [(0 <? ?n)%nat] => destruct (0 <? n)%nat
    end; reflexivity.
Qed.

Lemma fetch_try_catch page u o :
  try_catch (fetch_observe page u o) (fun _ => mret tt) =
  (fetch_try_events page u o, Returned tt).
Proof.
  rewrite fetch_observe_events. unfold fetch_try_events.
  destruct (url_text u); simpl; [done|]. reflexivity.
Qed.

Lemma fetch_events_engine page args :
  forallb engine_event (fetch_events page args) = true.
Proof.
  unfold fetch_events, fetch_try_events, fetch_timers.
  destruct (options args) as [o|]; [|done].
  destruct (fetch_guard_value o); [|done].
  destruct (url_text (url_arg args)) as [s|]; [|done].
  destruct (isGoogleFormsEndpoint s), (isMicrosoftFormsEndpoint s),
    (isClickUpFormsEndpoint s); simpl;
    match goal with
    | |- context [(0 <? ?n)%nat] => destruct (0 <? n)%nat
    end; reflexivity.
Qed.

(** A call whose [method] is a string or falsy: the engine observes, then
    the original runs on the same arguments and its outcome is the
    outcome of the call. *)
Lemma interceptFetch_delegates page args :
  (forall o, options args = Some o -> string_or_falsy (method o) = true) ->
  interceptFetch page args =
  ((fetch_events page args ++ [CallOriginalFetch args])%list, originalFetch args).
Proof.
  intros Hm. unfold interceptFetch, fetch_events, fetch_guard.
  destruct (options args) as [o|] eqn:Ho; [|reflexivity].
  specialize (Hm o eq_refl). unfold fetch_guard_value.
  destruct (method o) as [| |b|l|s|items|members|tag] eqn:Hmo; simpl in *;
    try discriminate; try reflexivity.
  - destruct b; [discriminate | reflexivity].
  - destruct (zero_lexeme l); [reflexivity | discriminate].
  - destruct (nonempty s); simpl; [|reflexivity].
    destruct (String.eqb (toUpperCase s) "POST" || String.eqb (toUpperCase s) "PUT");
      simpl; [|reflexivity].
    destruct (body_truthy (body o)); simpl; [|reflexivity].
    pose proof (fetch_try_catch page (url_arg args) o) as Htry.
    destruct (try_catch _ _) as [evs r]. injection Htry as -> ->. reflexivity.
Qed.

(** A call whose [method] is truthy and not a string: the condition of
    the outer [if] throws, outside the [try], and the original is never
    reached. *)
Lemma interceptFetch_throws page args o :
  options args = Some o ->
  string_or_falsy (method o) = false ->
  interceptFetch page args = ([], Threw (TypeError "toUpperCase is not a function")).
Proof.
  intros Ho Hm. unfold interceptFetch, fetch_guard. rewrite Ho.
  destruct (method o) as [| |b|l|s|items|members|tag]; simpl in *;
    try discriminate; try reflexivity.
  - destruct b; [reflexivity | discriminate].
  - destruct (zero_lexeme l); [discriminate | reflexivity].
Qed.

Lemma xhr_try_catch urlStr data :
  try_catch (xhr_observe urlStr data) (fun _ => mret tt) =
  (xhr_timers urlStr data, Returned tt).
Proof.
  unfold xhr_observe, xhr_timers.
  destruct (0 <? size (xhr_parse_body data))%nat, (isMicrosoftFormsEndpoint urlStr),
    (isClickUpFormsEndpoint urlStr); reflexivity.
Qed.

Lemma xhr_events_engine this data :
  forallb engine_event (xhr_events this data) = true.
Proof.
  unfold xhr_events, xhr_timers.
  destruct (xhr_guard_value this && _); [|done].
  destruct (0 <? size (xhr_parse_body data))%nat,
    (isMicrosoftFormsEndpoint (xhr_urlStr (_formtrackUrl this))),
    (isClickUpFormsEndpoint (xhr_urlStr (_formtrackUrl this))); reflexivity.
Qed.

Lemma interceptXHR_send_delegates this data :
  string_or_falsy (_formtrackMethod this) = true ->
  interceptXHR_send this data =
  ((xhr_events this data ++ [CallOriginalSend this data])%list, originalSend this data).
Proof.
  intros Hm. unfold interceptXHR_send, xhr_events, xhr_guard, xhr_guard_value.
  destruct (_formtrackMethod this) as [| |b|l|s|items|members|tag]; simpl in *;
    try discriminate; try reflexivity.
  - destruct b; [discriminate | reflexivity].
  - destruct (zero_lexeme l); [reflexivity | discriminate].
  - destruct (nonempty s); simpl; [|reflexivity].
    destruct (String.eqb (toUpperCase s) "POST" || String.eqb (toUpperCase s) "PUT");
      simpl; [|reflexivity].
    destruct (url_truthy (_formtrackUrl this)); simpl; [|reflexivity].
    destruct ((isGoogleFormsEndpoint _ || _ || _) && body_truthy data); simpl;
      [|reflexivity].
    pose proof (xhr_try_catch (xhr_urlStr (_formtrackUrl this)) data) as Htry.
    destruct (try_catch _ _) as [evs r]. injection Htry as -> ->. reflexivity.
Qed.

Lemma interceptXHR_send_throws this data :
  string_or_falsy (_formtrackMethod this) = false ->
  interceptXHR_send this data = ([], Threw (TypeError "toUpperCase is not a function")).
Proof.
  intros Hm. unfold interceptXHR_send, xhr_guard.
  destruct (_formtrackMethod this) as [| |b|l|s|items|members|tag]; simpl in *;
    try discriminate; try reflexivity.
  - destruct b; [reflexivity | discriminate].
  - destruct (zero_lexeme l); [discriminate | reflexivity].
Qed.

Lemma interceptXHR_open_delegates this method_ url_ rest :
  let this' := fst (interceptXHR_open this method_ url_ rest) in
  snd (interceptXHR_open this method_ url_ rest) =
  ([CallOriginalOpen this' method_ url_ rest], originalOpen this' method_ url_ rest) /\
  _formtrackUrl this' = url_ /\ _formtrackMethod this' = method_ /\
  xhr_id this' = xhr_id this.
Proof. simpl. repeat split. Qed.

Lemma fetch_timers_no_send urlStr data :
  ~ In (SendMessage data) (fetch_timers urlStr).
Proof.
  unfold fetch_timers.
  destruct (isGoogleFormsEndpoint urlStr), (isMicrosoftFormsEndpoint urlStr),
    (isClickUpFormsEndpoint urlStr); simpl; intuition discriminate.
Qed.

(** The only submission a call of the wrapped [fetch] sends. *)
Lemma interceptFetch_sends page args data :
  In (SendMessage data) (fst (interceptFetch page args)) ->
  exists urlStr o,
    options args = Some o /\ url_text (url_arg args) = Some urlStr /\
    fetch_guard_value o = true /\
    data = fetch_submission page urlStr (body o) /\
    (0 < size (fields data))%nat.
Proof.
  intros Hin.
  destruct (options args) as [o|] eqn:Ho.
  - destruct (string_or_falsy (method o)) eqn:Hm.
    + rewrite interceptFetch_delegates in Hin
        by (intros o' Ho'; rewrite Ho in Ho'; by injection Ho' as <-).
      simpl in Hin. apply in_app_or in Hin as [Hin | [Hin | []]]; [|discriminate].
      unfold fetch_events in Hin. rewrite Ho in Hin.
      destruct (fetch_guard_value o) eqn:Hg; [|by destruct Hin].
      unfold fetch_try_events in Hin.
      destruct (url_text (url_arg args)) as [urlStr|] eqn:Hu; [|by destruct Hin].
      apply in_app_or in Hin as [Hin | Hin];
        [by apply fetch_timers_no_send in Hin|].
      destruct (0 <? size _)%nat eqn:Hsize; [|by destruct Hin].
      destruct Hin as [[= <-] | []].
      exists urlStr, o. repeat split; auto.
      simpl. by apply Nat.ltb_lt.
    + rewrite (interceptFetch_throws page args o Ho Hm) in Hin. by destruct Hin.
  - rewrite interceptFetch_delegates in Hin by (intros o' Ho'; congruence).
    unfold fetch_events in Hin. rewrite Ho in Hin. simpl in Hin.
    destruct Hin as [Hin | []]. discriminate.
Qed.

(** The timers a call of the wrapped [send] sets. *)
Lemma interceptXHR_send_timers this data cb delay :
  In (SetTimeout cb delay) (fst (interceptXHR_send this data)) ->
  let urlStr := xhr_urlStr (_formtrackUrl this) in
  xhr_guard_value this = true /\
  (isGoogleFormsEndpoint urlStr || isMicrosoftFormsEndpoint urlStr
   || isClickUpFormsEndpoint urlStr) = true /\
  (cb = XhrDispatch (xhr_parse_body data) urlStr (isMicrosoftFormsEndpoint urlStr)
          (isClickUpFormsEndpoint urlStr) /\ (0 < size (xhr_parse_body data))%nat
   \/ cb = CaptureSubmission Microsoft \/ cb = CaptureSubmission ClickUp).
Proof.
  intros Hin urlStr.
  destruct (string_or_falsy (_formtrackMethod this)) eqn:Hm.
  - rewrite interceptXHR_send_delegates in Hin by done. simpl in Hin.
    apply in_app_or in Hin as [Hin | [Hin | []]]; [|discriminate].
    unfold xhr_events in Hin. fold urlStr in Hin.
    destruct (xhr_guard_value this); [|by destruct Hin].
    destruct (isGoogleFormsEndpoint urlStr || isMicrosoftFormsEndpoint urlStr
              || isClickUpFormsEndpoint urlStr); [|by destruct Hin].
    destruct (body_truthy data); [|by destruct Hin].
    split; [done|]. split; [done|].
    unfold xhr_timers in Hin.
    destruct (0 <? size (xhr_parse_body data))%nat eqn:Hsize,
      (isMicrosoftFormsEndpoint urlStr), (isClickUpFormsEndpoint urlStr);
      simpl in Hin; apply Nat.ltb_lt in Hsize || clear Hsize;
      repeat (destruct Hin as [[= <- <-] | Hin]; [auto|]); by destruct Hin.
  - rewrite interceptXHR_send_throws in Hin by done. by destruct Hin.
Qed.

Lemma interceptXHR_send_no_send this body_ data :
  ~ In (SendMessage data) (fst (interceptXHR_send this body_)).
Proof.
  intros Hin.
  destruct (string_or_falsy (_formtrackMethod this)) eqn:Hm.
  - rewrite interceptXHR_send_delegates in Hin by done. simpl in Hin.
    apply in_app_or in Hin as [Hin | [Hin | []]]; [|discriminate].
    pose proof (xhr_events_engine this body_) as Heng.
    unfold xhr_events, xhr_timers in Hin.
    destruct (xhr_guard_value this && _); [|by destruct Hin].
    destruct (0 <? size (xhr_parse_body body_))%nat,
      (isMicrosoftFormsEndpoint (xhr_urlStr (_formtrackUrl this))),
      (isClickUpFormsEndpoint (xhr_urlStr (_formtrackUrl this)));
      simpl in Hin; intuition discriminate.
  - rewrite interceptXHR_send_throws in Hin by done. by destruct Hin.
Qed.

Lemma interceptFetch_timers page args cb delay :
  In (SetTimeout cb delay) (fst (interceptFetch page args)) ->
  exists p, cb = CaptureSubmission p.
Proof.
  intros Hin.
  destruct (options args) as [o|] eqn:Ho;
    [destruct (string_or_falsy (method o)) eqn:Hm|].
  - rewrite interceptFetch_delegates in Hin
      by (intros o' Ho'; rewrite Ho in Ho'; by injection Ho' as <-).
    simpl in Hin. apply in_app_or in Hin as [Hin | [Hin | []]]; [|discriminate].
    unfold fetch_events, fetch_try_events, fetch_timers in Hin. rewrite Ho in Hin.
    destruct (fetch_guard_value o); [|by destruct Hin].
    destruct (url_text (url_arg args)) as [urlStr|]; [|by destruct Hin].
    destruct (isGoogleFormsEndpoint urlStr), (isMicrosoftFormsEndpoint urlStr),
      (isClickUpFormsEndpoint urlStr), (0 <? size _)%nat; simpl in Hin;
      repeat (destruct Hin as [Hin | Hin];
              [try discriminate; injection Hin as <- _; eauto|]);
      by destruct Hin.
  - rewrite (interceptFetch_throws page args o Ho Hm) in Hin. by destruct Hin.
  - rewrite interceptFetch_delegates in Hin by (intros o' Ho'; congruence).
    unfold fetch_events in Hin. rewrite Ho in Hin. simpl in Hin.
    destruct Hin as [Hin | []]. discriminate.
Qed.
End Interceptors.

(** ** Dispatch sites *)

Section Dispatch.
Context `{Host}.

Lemma size_positive (f : Fields) : (size f =? 0)%nat = false -> (0 < size f)%nat.
Proof. intros Hs. apply Nat.eqb_neq in Hs. lia. Qed.

Lemma captureFormSubmission_send page form data :
  In (SendMessage data) (captureFormSubmission page form) ->
  shouldIgnore (Some (href page)) (Some (or_else (form_action form) (href page))) = false /\
  fields data = extractFormData (elements form) /\
  (0 < size (fields data))%nat.
Proof.
  unfold captureFormSubmission.
  destruct (shouldIgnore _ _); [intros []|].
  destruct (size (extractFormData (elements form)) =? 0)%nat eqn:Hs; [intros []|].
  intros [[= <-] | []]. simpl. auto using size_positive.
Qed.

Lemma attemptCapture_send c attempts page data :
  In (SendMessage data) (attemptCapture c attempts page) ->
  (0 < size (fields data))%nat /\ source data = Some (chain_source c).
Proof.
  unfold attemptCapture.
  destruct ((size (chain_extract c (dom page)) =? 0)%nat && _).
  - intros [[=] | []].
  - match goal with
    | |- context [(size ?f =? 0)%nat] =>
        destruct (size f =? 0)%nat eqn:Hs; [intros [[=] | []]|]
    end.
    intros [[= <-] | []]. simpl. auto using size_positive.
Qed.

Lemma attemptCapture_timer c attempts page cb delay :
  In (SetTimeout cb delay) (attemptCapture c attempts page) ->
  cb = AttemptCapture c (S attempts) /\ delay = 300 /\
  (S attempts < maxAttempts)%nat /\ chain_extract c (dom page) = ∅.
Proof.
  unfold attemptCapture.
  destruct (size (chain_extract c (dom page)) =? 0)%nat eqn:Hs.
  - destruct (S attempts <? maxAttempts)%nat eqn:Hlt; cbn [andb].
    + intros [[= <- <-] | []]. apply Nat.ltb_lt in Hlt. apply Nat.eqb_eq in Hs.
      apply map_size_empty_iff in Hs. auto.
    + match goal with
      | |- context [(size ?f =? 0)%nat] => destruct (size f =? 0)%nat
      end; intros [[=] | []].
  - simpl. rewrite Hs. intros [[=] | []].
Qed.

Lemma captureMicrosoftFormSubmission_send page data :
  In (SendMessage data) (captureMicrosoftFormSubmission page) ->
  (0 < size (fields data))%nat.
Proof.
  unfold captureMicrosoftFormSubmission.
  destruct (negb (isMicrosoftForm page)); [intros []|].
  destruct (size (extractMicrosoftFormData (dom page)) =? 0)%nat eqn:Hs; [intros []|].
  intros [[= <-] | []]. simpl. auto using size_positive.
Qed.

Lemma run_callback_timer cb0 page cb delay :
  In (SetTimeout cb delay) (run_callback cb0 page) -> callback_filled cb.
Proof.
  destruct cb0 as [[| |]|c n|fd u m cu]; simpl;
    unfold captureGoogleFormSubmission, captureClickUpFormSubmission,
      captureMicrosoftFormSubmission.
  - destruct (negb (isGoogleForm page)); [intros []|].
    intros Hin. by apply attemptCapture_timer in Hin as [-> _].
  - destruct (negb (isMicrosoftForm page)); [intros []|].
    destruct (size _ =? 0)%nat; [intros []|]. intros [[=] | []].
  - destruct (negb (isClickUpForm page)); [intros []|].
    intros Hin. by apply attemptCapture_timer in Hin as [-> _].
  - intros Hin. by apply attemptCapture_timer in Hin as [-> _].
  - intros [[=] | []].
Qed.

Lemma Scheduled_filled cb : Scheduled cb -> callback_filled cb.
Proof.
  induction 1 as [l cb delay Hin | page args cb delay Hin
                 | this data cb delay Hin | cb0 page cb delay _ _ Hin].
  - destruct l as [[| |]|[| |]]; simpl in Hin;
      repeat (destruct Hin as [Hin | Hin];
              [try discriminate; by injection Hin as <- _|]);
      by destruct Hin.
  - by apply interceptFetch_timers in Hin as [p ->].
  - apply interceptXHR_send_timers in Hin as (_ & _ & [[-> Hs] | [-> | ->]]); done.
  - by eapply run_callback_timer.
Qed.

Lemma run_callback_send cb page data :
  callback_filled cb ->
  In (SendMessage data) (run_callback cb page) -> (0 < size (fields data))%nat.
Proof.
  intros Hcb.
  destruct cb as [[| |]|c n|fd u m cu]; simpl;
    unfold captureGoogleFormSubmission, captureClickUpFormSubmission.
  - destruct (negb (isGoogleForm page)); [intros []|].
    intros Hin. by apply attemptCapture_send in Hin as [? _].
  - apply captureMicrosoftFormSubmission_send.
  - destruct (negb (isClickUpForm page)); [intros []|].
    intros Hin. by apply attemptCapture_send in Hin as [? _].
  - intros Hin. by apply attemptCapture_send in Hin as [? _].
  - intros [[= <-] | []]. exact Hcb.
Qed.

Lemma listener_events_no_send l data : ~ In (SendMessage data) (listener_events l).
Proof. destruct l as [[| |]|[| |]]; simpl; intuition discriminate. Qed.
End Dispatch.

(** C10.  Every submission handed to the delivery channel, by whichever
    path (the native submit handler, a listener, the wrapped fetch, the
    wrapped open and send, a timer callback that some handler or earlier
    callback set), has at least one field. *)
Theorem C10_dispatched_fields_nonempty `{Host} (data : Submission) :
  Dispatched data -> (0 < size (fields data))%nat /\ fields data <> ∅.
Proof.
  intros Hd.
  assert (0 < size (fields data))%nat as Hsize.
  { destruct Hd as [page form data Hin | l data Hin | page args data Hin
                   | this m u rest data Hin | this body_ data Hin
                   | cb page data Hcb Hin].
    - by apply captureFormSubmission_send in Hin as (_ & _ & ?).
    - by apply listener_events_no_send in Hin.
    - by apply interceptFetch_sends in Hin as (? & ? & _ & _ & _ & _ & ?).
    - simpl in Hin. destruct Hin as [[=] | []].
    - by apply interceptXHR_send_no_send in Hin.
    - eapply run_callback_send; [by apply Scheduled_filled | exact Hin]. }
  split; [exact Hsize|].
  intros Hempty. rewrite Hempty, map_size_empty in Hsize. lia.
Qed.

(** The witness of C10: the submission built from a POST of
    [email=a%40b.com] is dispatched by the fetch path and has a field. *)
Lemma C10_dispatched_fields_nonempty_witness :
  @Dispatched browser subscribe_submission /\
  (0 < size (fields subscribe_submission))%nat /\ fields subscribe_submission <> ∅.
Proof.
  assert (@Dispatched browser subscribe_submission) as Hd.
  { apply (@by_fetch browser contact_page subscribe_post).
    apply sends_In. vm_compute. left. reflexivity. }
  split; [exact Hd|].
  exact (@C10_dispatched_fields_nonempty browser subscribe_submission Hd).
Defined.

(** ** IgnorePolicy on the trigger paths *)

(** The native submit handler applies the policy before anything else. *)
Lemma captureFormSubmission_vetoed `{Host} page form :
  shouldIgnore (Some (href page)) (Some (or_else (form_action form) (href page))) = true ->
  captureFormSubmission page form = [].
Proof. intros Hi. unfold captureFormSubmission. by rewrite Hi. Qed.

(** C2.  The claim fails on the network path: on a page at
    [https://example.com/contact], a POST of [user=bob] to
    [https://example.com/login] matches the ignore pattern [login], and
    the wrapped fetch still sends a submission with the field [user].
    The native submit handler, on the same pair of URLs, sends nothing. *)
Theorem C2_fetch_skips_ignore_policy :
  shouldIgnore (Some (href contact_page)) (Some "https://example.com/login") = true /\
  sends (fst (@interceptFetch browser contact_page login_post)) =
    [ {| url := "https://example.com/login";
         action := "https://example.com/login";
         timestamp := now contact_page;
         fields := {[ "user" := VStr "bob" ]};
         title := "A page";
         source := Some "fetch" |} ] /\
  @captureFormSubmission browser contact_page
    (mkForm "https://example.com/login"
       [ mkElement "user" "text" false false (Some "bob") 0 "INPUT" ]) = [].
Proof.
  split; [|split].
  - vm_compute. reflexivity.
  - vm_compute. reflexivity.
  - reflexivity.
Qed.

(** C3.  The claim fails for a call whose [method] is truthy and not a
    string: [fetch(url, {method: 1, body: "a=1"})] makes the wrapped fetch
    throw a [TypeError] from the condition of its outer [if], which is
    outside the [try]; the original fetch, which would have answered, is
    not called.  The wrapped [send] behaves the same after
    [open(1, url)]. *)
Theorem C3_non_string_method_throws :
  @interceptFetch browser contact_page numeric_method_call =
    ([], Threw (TypeError "toUpperCase is not a function")) /\
  @originalFetch browser numeric_method_call = Returned "fetch response" /\
  @interceptXHR_send browser numeric_method_xhr (BodyString "a=1") =
    ([], Threw (TypeError "toUpperCase is not a function")) /\
  @originalSend browser numeric_method_xhr (BodyString "a=1") = Returned "send result".
Proof. repeat split. Qed.

(** Outside that case the interceptors are transparent: for every host,
    page and call whose [method] is a string or falsy, the wrapped fetch
    and the wrapped send emit engine events only, then call the original
    once, on the arguments they were given, and end as it ends. *)
Lemma interceptors_transparent `{Host} :
  (forall page args,
     (forall o, options args = Some o -> string_or_falsy (method o) = true) ->
     exists evs,
       interceptFetch page args =
         ((evs ++ [CallOriginalFetch args])%list, originalFetch args) /\
       forallb engine_event evs = true) /\
  (forall this data,
     string_or_falsy (_formtrackMethod this) = true ->
     exists evs,
       interceptXHR_send this data =
         ((evs ++ [CallOriginalSend this data])%list, originalSend this data) /\
       forallb engine_event evs = true).
Proof.
  split.
  - intros page args Hm. exists (fetch_events page args).
    split; [by apply interceptFetch_delegates | apply fetch_events_engine].
  - intros this data Hm. exists (xhr_events this data).
    split; [by apply interceptXHR_send_delegates | apply xhr_events_engine].
Qed.

(** ** Field values *)

(** The counterexample of C5: a POST of [comment=] is dispatched with the
    empty string as the value of [comment]. *)
Lemma C5_counterexample : ~ @C5_claim_at browser contact_page blank_comment_post.
Proof.
  intros Hclaim.
  pose (data := @fetch_submission browser contact_page "https://example.com/api/contact"
                  (BodyString "comment=")).
  assert (In (SendMessage data) (fst (@interceptFetch browser contact_page blank_comment_post)))
    as Hin by (apply sends_In; vm_compute; left; reflexivity).
  destruct (Hclaim data Hin "comment" (VStr EmptyString)) as [Hne _].
  - vm_compute. reflexivity.
  - by apply Hne.
Qed.

(** ** The source of a network-derived submission *)

(** The counterexample of C8: a POST to [https://example.com/subscribe],
    which matches no provider endpoint, is sent with source [fetch], not
    [fetch-generic]. *)
Lemma C8_counterexample : ~ @C8_claim_at browser contact_page subscribe_post.
Proof.
  intros Hclaim.
  assert (In (SendMessage subscribe_submission)
             (fst (@interceptFetch browser contact_page subscribe_post)))
    as Hin by (apply sends_In; vm_compute; left; reflexivity).
  destruct (Hclaim _ Hin) as (urlStr & Hu & Hs).
  injection Hu as <-. vm_compute in Hs. discriminate Hs.
Qed.

(** C8, amended.  A submission built from a call of the wrapped fetch has
    a non-empty field mapping and carries the source [google-forms],
    [microsoft-forms] or [clickup-forms] of the first provider, in that
    order, whose endpoint test the target URL passes, and [fetch] when it
    passes none.  A submission built from a wrapped send exists only when
    the target URL passes some endpoint test, and carries the source of
    the first provider in the order Microsoft, ClickUp, Google. *)
Theorem C8_network_source `{Host} :
  (forall page args data,
     In (SendMessage data) (fst (interceptFetch page args)) ->
     exists urlStr,
       url_text (url_arg args) = Some urlStr /\
       fields data <> ∅ /\
       source data =
         Some (if isGoogleFormsEndpoint urlStr then "google-forms"
               else if isMicrosoftFormsEndpoint urlStr then "microsoft-forms"
               else if isClickUpFormsEndpoint urlStr then "clickup-forms"
               else "fetch")) /\
  (forall this body_ formData urlStr isM isC delay page data,
     In (SetTimeout (XhrDispatch formData urlStr isM isC) delay)
        (fst (interceptXHR_send this body_)) ->
     In (SendMessage data) (run_callback (XhrDispatch formData urlStr isM isC) page) ->
     (isGoogleFormsEndpoint urlStr || isMicrosoftFormsEndpoint urlStr
      || isClickUpFormsEndpoint urlStr) = true /\
     fields data <> ∅ /\
     source data =
       Some (if isMicrosoftFormsEndpoint urlStr then "microsoft-forms"
             else if isClickUpFormsEndpoint urlStr then "clickup-forms"
             else "google-forms")).
Proof.
  split.
  - intros page args data Hin.
    apply interceptFetch_sends in Hin as (urlStr & o & _ & Hu & _ & -> & Hs).
    exists urlStr. split; [exact Hu|]. split; [|reflexivity].
    intros Hempty. rewrite Hempty, map_size_empty in Hs. lia.
  - intros this body_ formData urlStr isM isC delay page data Hset Hsend.
    apply interceptXHR_send_timers in Hset as (_ & Hany & [[Hcb Hs] | [Hcb | Hcb]]);
      try discriminate.
    injection Hcb as -> -> -> ->.
    destruct Hsend as [[= <-] | []]. simpl.
    split; [exact Hany|]. split; [|reflexivity].
    intros Hempty. rewrite Hempty, map_size_empty in Hs. lia.
Qed.

(** The witness of C8: the submission of [subscribe_post], and the one a
    wrapped send to a Microsoft Forms endpoint leads to. *)
Lemma C8_network_source_witness :
  (In (SendMessage subscribe_submission)
      (fst (@interceptFetch browser contact_page subscribe_post)) /\
   source subscribe_submission = Some "fetch") /\
  (In (SetTimeout office_dispatch 200)
      (fst (@interceptXHR_send browser office_xhr (BodyString "answer=42"))) /\
   In (SendMessage office_submission) (@run_callback browser office_dispatch contact_page) /\
   source office_submission = Some "microsoft-forms").
Proof.
  split.
  - assert (In (SendMessage subscribe_submission)
               (fst (@interceptFetch browser contact_page subscribe_post)))
      as Hin by (apply sends_In; vm_compute; left; reflexivity).
    split; [exact Hin|].
    destruct (proj1 (@C8_network_source browser) _ _ _ Hin) as (urlStr & Hu & _ & Hs).
    injection Hu as <-. exact Hs.
  - assert (In (SetTimeout office_dispatch 200)
               (fst (@interceptXHR_send browser office_xhr (BodyString "answer=42"))))
      as Hset by (apply timers_In; vm_compute; left; reflexivity).
    assert (In (SendMessage office_submission)
               (@run_callback browser office_dispatch contact_page))
      as Hsend by (apply sends_In; vm_compute; left; reflexivity).
    split; [exact Hset|]. split; [exact Hsend|].
    exact (proj2 (proj2 (proj2 (@C8_network_source browser) _ _ _ _ _ _ _ _ _
                           Hset Hsend))).
Defined.

(** ** Reading a request body *)

Section Folds.
Context {X : Type} (step : Fields -> X -> Fields) (f : X -> option (string * JSValue)).
Hypothesis step_spec : forall formData x,
  step formData x =
  match f x with
  | Some (k, v) => <[ k := v ]> formData
  | None => formData
  end.


(** Every value of the mapping was stored by some turn of the loop. *)
Lemma fold_store_values l : forall (acc : Fields) k v,
  fold_left step l acc !! k = Some v ->
  acc !! k = Some v \/ exists x, In x l /\ f x = Some (k, v).
Proof.
  induction l as [|x l IH]; intros acc k v Hk; simpl in *; [by left|].
  destruct (IH _ _ _ Hk) as [Hacc | (y & Hin & Hy)].
  - rewrite step_spec in Hacc.
    destruct (f x) as [[k' v']|] eqn:Hfx; [|by left].
    destruct (decide (k' = k)) as [->|Hne].
    + rewrite lookup_insert_eq in Hacc. injection Hacc as ->. right. exists x. auto.
    + rewrite lookup_insert_ne in Hacc by done. by left.
  - right. exists y. auto.
Qed.
End Folds.









(** The values kept from a [FormData] or a URL-encoded body are values of
    the body. *)
Lemma fetch_parse_body_values `{Host} isGoogle :
  (forall entries k v,
     fetch_parse_body isGoogle (BodyFormData entries) !! k = Some v ->
     In (k, v) entries) /\
  (forall params k v,
     urlencoded_fields params !! k = Some v ->
     exists key text, In (key, text) params /\ v = VStr text /\
                      k = strip_entry_dot key).
Proof.
  split.
  - intros entries k v Hk. simpl in Hk. unfold formdata_fields in Hk.
    apply (fold_store_values _ (fun '(key, x) => if has_password key then None
                                                 else Some (key, x))) in Hk.
    + destruct Hk as [Hk | ([key x] & Hin & Hf)]; [by rewrite lookup_empty in Hk|].
      destruct (has_password key); [discriminate|]. by injection Hf as -> ->.
    + intros formData [key x]. by destruct (has_password key).
  - intros params k v Hk. unfold urlencoded_fields in Hk.
    apply (fold_store_values _ (fun '(key, text) =>
             if negb (has_password key)
             then Some (strip_entry_dot key, VStr text) else None)) in Hk.
    + destruct Hk as [Hk | ([key text] & Hin & Hf)]; [by rewrite lookup_empty in Hk|].
      destruct (has_password key); [discriminate|].
      injection Hf as <- <-. eauto.
    + intros formData [key text]. unfold strip_entry_dot.
      destruct (has_password key), (startsWith "entry." key); reflexivity.
Qed.


Lemma string_fields_fetch `{Host} isGoogle s :
  string_fields (fetch_json_fields isGoogle) s =
  match JSON_parse s with
  | Some parsed =>
      if nullish parsed then urlencoded_fields (URLSearchParams s)
      else if isGoogle && has_entry_marker parsed then json_entry_fields parsed
      else json_plain_fields parsed
  | None => urlencoded_fields (URLSearchParams s)
  end.
Proof.
  unfold string_fields, fetch_json_fields.
  destruct (JSON_parse s) as [parsed|]; [|done].
  destruct (nullish parsed); [done|].
  destruct isGoogle; [|done]. by destruct (has_entry_marker parsed).
Qed.

Lemma json_plain_fields_values (parsed : JSValue) (k : string) (v : JSValue) :
  json_plain_fields parsed !! k = Some v ->
  In k (Object_keys parsed) /\ v = js_get parsed k.
Proof.
  unfold json_plain_fields. intros Hk.
  apply (fold_store_values _ (fun key => if negb (has_password key)
                                         then Some (key, js_get parsed key) else None))
    in Hk.
  - destruct Hk as [Hk|(key & Hin & Hf)]; [rewrite lookup_empty in Hk; discriminate Hk|].
    destruct (has_password key); [discriminate Hf|]. injection Hf as <- <-. auto.
  - intros formData key. now destruct (has_password key).
Qed.

Lemma json_entry_fields_values (parsed : JSValue) (k : string) (v : JSValue) :
  json_entry_fields parsed !! k = Some v ->
  exists key, In key (Object_keys parsed) /\ entry_key key = Some k /\
              v = js_get parsed key.
Proof.
  unfold json_entry_fields. intros Hk.
  apply (fold_store_values _ (fun key => match entry_key key with
                                         | Some k' => Some (k', js_get parsed key)
                                         | None => None
                                         end)) in Hk.
  - destruct Hk as [Hk|(key & Hin & Hf)]; [rewrite lookup_empty in Hk; discriminate Hk|].
    destruct (entry_key key) as [k'|] eqn:He; [|discriminate Hf].
    injection Hf as <- <-. eauto.
  - intros formData key. unfold entry_key.
    destruct (startsWith "entry." key || startsWith "entry_" key); [reflexivity|].
    now destruct (has_password key).
Qed.



(** ** RetryScheduler *)

Section Retry.
Context `{Host}.

Lemma attemptCapture_retry c attempts page :
  chain_extract c (dom page) = ∅ ->
  (S attempts < maxAttempts)%nat ->
  attemptCapture c attempts page = [SetTimeout (AttemptCapture c (S attempts)) 300].
Proof.
  intros Hempty Hlt. unfold attemptCapture.
  rewrite Hempty, map_size_empty.
  apply Nat.ltb_lt in Hlt. by rewrite Hlt.
Qed.

Lemma attemptCapture_dispatch c attempts page :
  chain_extract c (dom page) <> ∅ ->
  attemptCapture c attempts page =
  [SendMessage (chain_submission c page (chain_extract c (dom page)))].
Proof.
  intros Hne. unfold attemptCapture.
  assert ((size (chain_extract c (dom page)) =? 0)%nat = false) as Hs.
  { apply Nat.eqb_neq. intros Hz. by apply map_size_empty_iff in Hz. }
  rewrite Hs. simpl. by rewrite Hs.
Qed.

Lemma attemptCapture_exhausted c attempts page :
  chain_extract c (dom page) = ∅ ->
  (maxAttempts <= S attempts)%nat ->
  attemptCapture c attempts page =
  let salvaged := lastResort c (lastResortInputs (dom page)) ∅ in
  if (size salvaged =? 0)%nat then [ConsoleDebug (chain_debug c)]
  else [SendMessage (chain_submission c page salvaged)].
Proof.
  intros Hempty Hge. unfold attemptCapture.
  rewrite Hempty, map_size_empty.
  assert ((S attempts <? maxAttempts)%nat = false) as Hlt by (apply Nat.ltb_ge; lia).
  by rewrite Hlt.
Qed.

Lemma capture_starts_chain c page :
  on_chain_page c page = true ->
  run_callback (CaptureSubmission (chain_provider c)) page = attemptCapture c 0 page.
Proof.
  destruct c; simpl; unfold captureGoogleFormSubmission, captureClickUpFormSubmission;
    by intros ->.
Qed.

(** One run sends at most one submission and sets at most one timer. *)
Lemma attemptCapture_shape c attempts page :
  (exists data, attemptCapture c attempts page = [SendMessage data]) \/
  attemptCapture c attempts page = [ConsoleDebug (chain_debug c)] \/
  (attemptCapture c attempts page = [SetTimeout (AttemptCapture c (S attempts)) 300] /\
   (S attempts < maxAttempts)%nat).
Proof.
  unfold attemptCapture.
  destruct (size (chain_extract c (dom page)) =? 0)%nat eqn:Hs.
  - destruct (S attempts <? maxAttempts)%nat eqn:Hlt; cbn [andb].
    + right. right. apply Nat.ltb_lt in Hlt. auto.
    + match goal with
      | |- context [(size ?f =? 0)%nat] => destruct (size f =? 0)%nat
      end; eauto.
  - simpl. rewrite Hs. eauto.
Qed.

(** A chain ends: whatever the scraper finds, once the remaining
    attempts have fired no timer is pending, and at most one submission
    has been sent. *)
Lemma chain_terminates c page_at : forall fuel attempts t,
  (maxAttempts <= attempts + fuel)%nat -> (1 <= fuel)%nat ->
  exists trace,
    run_timers fuel page_at [(t, AttemptCapture c attempts)] = Some trace /\
    (length (sent trace) <= 1)%nat.
Proof.
  induction fuel as [|fuel IH]; intros attempts t Hfuel Hpos; [lia|].
  simpl.
  destruct (attemptCapture_shape c attempts (page_at t))
    as [[data ->] | [-> | [-> Hlt]]]; simpl.
  - exists [(t, SendMessage data)]. split; [by destruct fuel | simpl; lia].
  - exists [(t, ConsoleDebug (chain_debug c))]. split; [by destruct fuel | simpl; lia].
  - destruct (IH (S attempts) (t + 300)) as (trace & -> & Hlen); [lia | lia |].
    eexists. split; [reflexivity|]. simpl. exact Hlen.
Qed.
End Retry.

(** C6.  A chain started on its provider's page whose scraper finds
    nothing at the first two attempts (at [t0] and [t0 + 300]): if the
    third attempt (at [t0 + 600]) finds data, the run ends with exactly
    one submission, built from the third attempt's data, after two timers
    and nothing else; if the third attempt and the last-resort pass find
    nothing either, the run ends with no submission and a debug line,
    nothing thrown.  Two timer firings are all it takes. *)
Theorem C6_retry_chain `{Host} (c : Chain) (page_at : nat -> Page) (t0 fuel : nat) :
  on_chain_page c (page_at t0) = true ->
  (2 <= fuel)%nat ->
  chain_extract c (dom (page_at t0)) = ∅ ->
  chain_extract c (dom (page_at (t0 + 300))) = ∅ ->
  let start := run_callback (CaptureSubmission (chain_provider c)) (page_at t0) in
  let third := page_at (t0 + 300 + 300) in
  (chain_extract c (dom third) <> ∅ ->
   exists trace,
     run_from fuel page_at t0 start = Some trace /\
     trace = [ (t0, SetTimeout (AttemptCapture c 1) 300);
               (t0 + 300, SetTimeout (AttemptCapture c 2) 300);
               (t0 + 300 + 300,
                SendMessage (chain_submission c third (chain_extract c (dom third)))) ] /\
     sent trace = [chain_submission c third (chain_extract c (dom third))]) /\
  (chain_extract c (dom third) = ∅ ->
   lastResort c (lastResortInputs (dom third)) ∅ = ∅ ->
   exists trace,
     run_from fuel page_at t0 start = Some trace /\
     trace = [ (t0, SetTimeout (AttemptCapture c 1) 300);
               (t0 + 300, SetTimeout (AttemptCapture c 2) 300);
               (t0 + 300 + 300, ConsoleDebug (chain_debug c)) ] /\
     sent trace = []).
Proof.
  intros Hpage Hfuel H1 H2 start third.
  destruct fuel as [|[|fuel]]; [lia | lia |].
  assert (start = [SetTimeout (AttemptCapture c 1) 300]) as Hstart.
  { unfold start. rewrite capture_starts_chain by done.
    apply attemptCapture_retry; [done | unfold maxAttempts; lia]. }
  assert (attemptCapture c 1 (page_at (t0 + 300)) = [SetTimeout (AttemptCapture c 2) 300])
    as Hsecond by (apply attemptCapture_retry; [done | unfold maxAttempts; lia]).
  split.
  - intros H3. eexists. split; [|split; [reflexivity|reflexivity]].
    unfold run_from. rewrite Hstart. simpl. rewrite Hsecond. simpl.
    fold third. rewrite (attemptCapture_dispatch c 2 third H3). simpl.
    by destruct fuel.
  - intros H3 Hsalvage. eexists. split; [|split; [reflexivity|reflexivity]].
    unfold run_from. rewrite Hstart. simpl. rewrite Hsecond. simpl.
    fold third. rewrite (attemptCapture_exhausted c 2 third H3) by (unfold maxAttempts; lia).
    simpl. rewrite Hsalvage, map_size_empty. simpl.
    by destruct fuel.
Qed.

(** The witness of C6: scenario E on the reference host (nothing found at
    0 and 300, one answer at 600), and the page where nothing is ever
    found. *)
Lemma C6_retry_chain_witness :
  (exists trace,
     run_from 3 slow_form 0 (run_callback (CaptureSubmission Google) (slow_form 0))
       = Some trace /\
     sent trace = [chain_submission GoogleChain (slow_form 600) late_answer]) /\
  (exists trace,
     run_from 3 empty_form 0 (run_callback (CaptureSubmission Google) (empty_form 0))
       = Some trace /\
     sent trace = []).
Proof.
  split.
  - assert (@chain_extract browser GoogleChain (dom (slow_form (0 + 300 + 300))) <> ∅)
      as Hthird.
    { intros Hempty. apply (f_equal size) in Hempty. vm_compute in Hempty. discriminate Hempty. }
    destruct (@C6_retry_chain browser GoogleChain slow_form 0 3
                eq_refl (le_S _ _ (le_n 2)) eq_refl eq_refl) as [Hfound _].
    destruct (Hfound Hthird) as (trace & Hrun & _ & Hsent).
    exists trace. split; [exact Hrun | exact Hsent].
  - destruct (@C6_retry_chain browser GoogleChain empty_form 0 3
                eq_refl (le_S _ _ (le_n 2)) eq_refl eq_refl) as [_ Hnone].
    destruct (Hnone eq_refl eq_refl) as (trace & Hrun & _ & Hsent).
    exists trace. split; [exact Hrun | exact Hsent].
Defined.

(** ** ProviderClassifier *)

Lemma includes_true_iff needle s :
  includes needle s = true <-> exists n, String.prefix needle (string_drop n s) = true.
Proof.
  split.
  - induction s as [|c s IH]; simpl.
    + rewrite orb_false_r. intros Hp. by exists 0.
    + intros [Hp | Hs]%orb_true_iff; [by exists 0|].
      destruct (IH Hs) as [n Hn]. by exists (S n).
  - intros [n Hn]. revert s Hn.
    induction n as [|n IH]; intros s Hn.
    + destruct s; simpl in *; rewrite Hn; [done | apply orb_true_l].
    + destruct s as [|c s]; simpl in *; [by rewrite Hn|].
      rewrite (IH _ Hn). apply orb_true_r.
Qed.

(** The counterexample of C7: the hostname [docs.google.com.example.org],
    which is not [docs.google.com], with the path [/forms/1] is detected
    as a Google Form. *)
Lemma C7_counterexample : ~ @C7_claim_at browser lookalike_page.
Proof. unfold C7_claim_at. vm_compute. discriminate. Qed.

(** C7, amended.  Google Forms is detected exactly when the hostname
    contains [docs.google.com] and the pathname contains [/forms/];
    Microsoft Forms exactly when the lower-cased hostname contains one of
    the three known hostnames; ClickUp Forms exactly when it contains
    [forms.clickup.com]; a page is native (nothing detected) exactly when
    none of the three tests holds.  The three tests are independent:
    whenever the hostname is one of the five known hostnames, and
    whenever the specification's classifier names a provider, exactly
    that outcome is detected; but a hostname that contains two markers
    is detected as two providers. *)
Theorem C7_provider_detection :
  (forall `{Host} (page : Page),
     (isGoogleForm page = true <->
      includes "docs.google.com" (hostname page) = true /\
      includes "/forms/" (pathname page) = true) /\
     (isMicrosoftForm page = true <->
      exists h, In h ["forms.office.com"; "forms.microsoft.com"; "forms.office365.com"] /\
                includes h (toLowerCase (hostname page)) = true) /\
     (isClickUpForm page = true <->
      includes "forms.clickup.com" (toLowerCase (hostname page)) = true) /\
     (detected page = [] <->
      isGoogleForm page = false /\ isMicrosoftForm page = false /\
      isClickUpForm page = false)) /\
  (forall `{Host} (page : Page),
     In (hostname page) known_hostnames \/
     classify_spec (hostname page) (pathname page) <> None ->
     detected page =
     match classify_spec (hostname page) (pathname page) with
     | Some p => [p]
     | None => []
     end) /\
  detected two_marker_page = [Microsoft; ClickUp].
Proof.
  split; [|split].
  - intros H page. split; [|split; [|split]].
    + unfold isGoogleForm. apply andb_true_iff.
    + unfold isMicrosoftForm. rewrite !orb_true_iff. split.
      * intros [[Ha | Hb] | Hc].
        -- exists "forms.office.com". simpl. auto.
        -- exists "forms.microsoft.com". simpl. auto.
        -- exists "forms.office365.com". simpl. auto.
      * intros (h & [<- | [<- | [<- | []]]] & Hh); auto.
    + reflexivity.
    + unfold detected.
      destruct (isGoogleForm page), (isMicrosoftForm page), (isClickUpForm page);
        simpl;
        (split;
         [ intros Hd; (discriminate Hd || (repeat split; reflexivity))
         | intros (Hg & Hm & Hc); (discriminate || reflexivity) ]).
  - intros H page Hknown.
    assert (In (hostname page) known_hostnames) as Hin.
    { destruct Hknown as [Hin | Hspec]; [exact Hin|].
      unfold classify_spec, known_hostnames in *. simpl.
      destruct (String.eqb_spec (hostname page) "docs.google.com"); [auto|].
      destruct (String.eqb_spec (hostname page) "forms.office.com"); [auto|].
      destruct (String.eqb_spec (hostname page) "forms.microsoft.com"); [auto|].
      destruct (String.eqb_spec (hostname page) "forms.office365.com"); [auto|].
      destruct (String.eqb_spec (hostname page) "forms.clickup.com"); [auto 6|].
      simpl in Hspec. congruence. }
    unfold detected, isGoogleForm, isMicrosoftForm, isClickUpForm, classify_spec.
    destruct page as [href_ hostname_ pathname_ title_ now_ dom_]. simpl in *.
    destruct Hin as [<- | [<- | [<- | [<- | [<- | []]]]]]; simpl;
      try reflexivity.
    by destruct (includes "/forms/" pathname_).
  - vm_compute. reflexivity.
Qed.

(** The witness of C7: a page on [forms.office.com]. *)
Lemma C7_provider_detection_witness :
  In (hostname office_page) known_hostnames /\ detected office_page = [Microsoft].
Proof.
  assert (In (hostname office_page) known_hostnames) as Hin
    by (right; left; reflexivity).
  split; [exact Hin|].
  exact (proj1 (proj2 C7_provider_detection) browser office_page (or_introl Hin)).
Defined.

(** ** SubmitTriggerWatcher *)

Section Watcher.
Variable querySelectorAll : string -> Controls -> option (list nat).

Lemma watch_watched p button :
  opt_truthy (formtrackWatched button) = true -> watch p button = button.
Proof. intros Hw. unfold watch. rewrite Hw. by rewrite andb_false_r. Qed.

Lemma watch_idempotent p button : watch p (watch p button) = watch p button.
Proof.
  destruct (eligible p button && negb (opt_truthy (formtrackWatched button))) eqn:Hc.
  - assert (opt_truthy (formtrackWatched (watch p button)) = true) as Hw
      by (unfold watch; by rewrite Hc).
    by apply watch_watched.
  - assert (watch p button = button) as Hsame by (unfold watch; by rewrite Hc).
    by rewrite !Hsame.
Qed.

Lemma touched_trans p a b c : touched p a b -> touched p b c -> touched p a c.
Proof.
  intros [-> | ->] [-> | ->]; unfold touched; auto.
  right. destruct a as [button|]; simpl; [|done]. by rewrite watch_idempotent.
Qed.

Lemma watch_node_touched p doc b node :
  touched p (doc !! node) (watch_node p doc b !! node).
Proof.
  unfold watch_node, touched.
  destruct (doc !! b) as [button|] eqn:Hb; [|by left].
  destruct (decide (b = node)) as [<-|Hne].
  - right. by rewrite lookup_insert_eq, Hb.
  - left. by rewrite lookup_insert_ne.
Qed.

Lemma fold_watch_touched p buttons : forall doc node,
  touched p (doc !! node) (fold_left (watch_node p) buttons doc !! node).
Proof.
  induction buttons as [|b buttons IH]; intros doc node; simpl; [by left|].
  eapply touched_trans; [apply watch_node_touched | apply IH].
Qed.

Lemma attach_pass_touched p selectors : forall doc node,
  touched p (doc !! node) (attach_pass querySelectorAll p selectors doc !! node).
Proof.
  induction selectors as [|selector selectors IH]; intros doc node; simpl; [by left|].
  destruct (querySelectorAll selector doc) as [buttons|].
  - eapply touched_trans; [apply fold_watch_touched | apply IH].
  - destruct p; (by left) || apply IH.
Qed.

Lemma attachListeners_touched p doc node :
  touched p (doc !! node) (attachListeners querySelectorAll p doc !! node).
Proof. apply attach_pass_touched. Qed.

Lemma watch_tidy p button : tidy button -> tidy (watch p button).
Proof.
  intros Ht. unfold watch.
  destruct (eligible p button && negb (opt_truthy (formtrackWatched button))) eqn:Hc;
    [|exact Ht].
  apply andb_true_iff in Hc as [_ Hun]. apply negb_true_iff in Hun.
  destruct Ht as [[_ Hl] | [Hw _]]; [|congruence].
  right. simpl. split; [done|]. exists p. by rewrite Hl.
Qed.

Lemma step_keeps_watched doc doc' node button :
  watcher_step querySelectorAll doc doc' ->
  doc !! node = Some button ->
  opt_truthy (formtrackWatched button) = true ->
  doc' !! node = Some button.
Proof.
  intros Hstep Hnode Hw. destruct Hstep as [doc n text type_ label Hfresh | doc p].
  - rewrite lookup_insert_ne; [done | congruence].
  - destruct (attachListeners_touched p doc node) as [-> | ->]; [done|].
    rewrite Hnode. simpl. by rewrite watch_watched.
Qed.

Lemma step_keeps_tidy doc doc' :
  watcher_step querySelectorAll doc doc' ->
  (forall node button, doc !! node = Some button -> tidy button) ->
  forall node button, doc' !! node = Some button -> tidy button.
Proof.
  intros Hstep Hall node button Hnode.
  destruct Hstep as [doc n text type_ label Hfresh | doc p].
  - destruct (decide (n = node)) as [<-|Hne].
    + rewrite lookup_insert_eq in Hnode. injection Hnode as <-. by left.
    + rewrite lookup_insert_ne in Hnode by done. by eapply Hall.
  - destruct (attachListeners_touched p doc node) as [Heq | Heq];
      rewrite Heq in Hnode.
    + by eapply Hall.
    + destruct (doc !! node) as [old|] eqn:Hold; [|discriminate].
      injection Hnode as <-. apply watch_tidy. by eapply Hall.
Qed.

Lemma tidy_listeners button :
  tidy button ->
  (length (List.filter is_click (listeners button)) <= 1)%nat /\
  (length (List.filter is_mousedown (listeners button)) <= 1)%nat.
Proof.
  intros [[_ ->] | [_ [p ->]]]; [simpl; lia|]. destruct p; simpl; lia.
Qed.
End Watcher.

(** C9.  Whatever the selectors match and however often the watchers
    run, in any order and with controls added in between:
    - a control marked in the registry is left exactly as it is by every
      later step, so it is never instrumented again and its mark is never
      removed;
    - starting from a document of untouched controls, every control ends
      up either untouched or marked with the listeners of one watcher,
      that is with at most one click listener and at most one press
      listener;
    - a second attachment to the same control changes nothing. *)
Theorem C9_watcher_attaches_once
    (querySelectorAll : string -> Controls -> option (list nat)) :
  (forall doc doc' node button,
     watcher_steps querySelectorAll doc doc' ->
     doc !! node = Some button ->
     opt_truthy (formtrackWatched button) = true ->
     doc' !! node = Some button) /\
  (forall doc doc' node button,
     watcher_steps querySelectorAll doc doc' ->
     (forall n b, doc !! n = Some b -> pristine b) ->
     doc' !! node = Some button ->
     tidy button /\
     (length (List.filter is_click (listeners button)) <= 1)%nat /\
     (length (List.filter is_mousedown (listeners button)) <= 1)%nat) /\
  (forall p button, watch p (watch p button) = watch p button) /\
  (forall p q button,
     pristine button -> eligible p button = true ->
     watch q (watch p button) = watch p button /\
     listeners (watch p button) = new_listeners p /\
     formtrackWatched (watch p button) = Some "true").
Proof.
  repeat apply conj.
  - intros doc doc' node button Hsteps. revert node button.
    induction Hsteps as [doc | doc1 doc2 doc3 _ IH Hstep]; intros node button Hn Hw;
      [done|].
    eapply step_keeps_watched; eauto.
  - intros doc doc' node button Hsteps Hpristine.
    assert (forall n b, doc' !! n = Some b -> tidy b) as Htidy.
    { induction Hsteps as [doc | doc1 doc2 doc3 _ IH Hstep].
      - intros n b Hb. destruct (Hpristine n b Hb) as [Hw Hl]. left. by rewrite Hw.
      - eapply step_keeps_tidy; eauto. }
    intros Hnode. split; [by eapply Htidy|]. apply tidy_listeners. by eapply Htidy.
  - intros p button. apply watch_idempotent.
  - intros p q button [Hw Hl] He.
    assert (watch p button =
            {| formtrackWatched := Some "true";
               listeners := new_listeners p;
               c_textContent := c_textContent button;
               c_type := c_type button;
               c_ariaLabel := c_ariaLabel button |}) as ->.
    { unfold watch. rewrite He, Hw, Hl. reflexivity. }
    split; [by apply watch_watched | done].
Qed.

(** The witness of C9: the Google watcher run three times, then the
    ClickUp watcher, on a document whose button every selector matches
    twice. *)
Lemma C9_watcher_attaches_once_witness :
  after_four_passes !! 1 = Some watched_button /\
  (tidy watched_button /\
   (length (List.filter is_click (listeners watched_button)) <= 1)%nat /\
   (length (List.filter is_mousedown (listeners watched_button)) <= 1)%nat).
Proof.
  assert (after_four_passes !! 1 = Some watched_button) as Hnode
    by (vm_compute; reflexivity).
  split; [exact Hnode|].
  refine (proj1 (proj2 (C9_watcher_attaches_once button_everywhere))
            two_controls after_four_passes 1 _ _ _ Hnode).
  - unfold after_four_passes.
    repeat (eapply steps_next; [|apply step_attach]). apply steps_refl.
  - intros n b Hb. unfold two_controls in Hb.
    apply lookup_insert_Some in Hb as [[_ <-] | [_ Hb]]; [split; reflexivity|].
    apply lookup_singleton_Some in Hb as [_ <-]. split; reflexivity.
Defined.

(** * Further properties *)

(** ** GenericExtractor, key by key *)

Lemma pack_truthy vs v :
  Forall (fun x => nonempty x = true) vs -> pack vs = Some v -> truthy v = true.
Proof.
  intros Hall. destruct vs as [|a [|b vs]]; simpl; intros [= <-]; [|done].
  by inversion Hall.
Qed.

Lemma store_value_pack formData k vs v :
  formData !! k = pack vs ->
  Forall (fun x => nonempty x = true) vs ->
  store_value formData k v !! k = pack (vs ++ [v]).
Proof.
  intros Hk Hall. unfold store_value. rewrite Hk.
  destruct vs as [|a [|b vs]]; simpl.
  - by rewrite lookup_insert_eq.
  - inversion Hall as [|? ? Ha _]. rewrite Ha. by rewrite lookup_insert_eq.
  - rewrite lookup_insert_eq. do 2 f_equal. simpl. do 2 f_equal.
    by rewrite map_app.
Qed.

Lemma store_value_other formData key v k :
  key <> k -> store_value formData key v !! k = formData !! k.
Proof.
  intros Hne. unfold store_value.
  destruct (formData !! key) as [old|]; [destruct (truthy old); [destruct old|]|];
    by rewrite lookup_insert_ne.
Qed.

Lemma fold_extract_pack k form : forall formData acc,
  formData !! k = pack acc ->
  Forall (fun x => nonempty x = true) acc ->
  fold_left extract_step form formData !! k = pack (acc ++ values_of k form).
Proof.
  induction form as [|element form IH]; intros formData acc Hk Hall; simpl.
  - by rewrite app_nil_r.
  - unfold extract_step at 2.
    destruct (element_value element) as [|v] eqn:Hv; [by apply IH|].
    destruct (String.eqb_spec (name element) k) as [->|Hne].
    + replace (acc ++ v :: values_of k form)%list
        with ((acc ++ [v]) ++ values_of k form)%list by (by rewrite <- app_assoc).
      apply IH; [by apply store_value_pack|].
      apply Forall_app. split; [done|]. constructor; [|constructor].
      by eapply element_value_nonempty.
    + apply IH; [|done]. by rewrite store_value_other.
Qed.

Lemma extractFormData_pack (form : list Element) (k : string) :
  fold_left extract_step form ∅ !! k = pack (values_of k form).
Proof.
  apply (fold_extract_pack k form ∅ []); [apply lookup_empty | constructor].
Qed.

(** X1.  What [extractFormData] holds under a key is decided by the
    items of [form.elements] of that name that contribute a value, taken
    in document order: nothing when there is none, the value itself when
    there is one, the array of all the values when there are several.
    Items of other names in between change nothing.  This is for items
    whose names are not names of members of [Object.prototype]:
    [formData[element.name]] would find the inherited member. *)
Theorem extractFormData_lookup (formElements : list Element) (k : string) :
  forallb (fun element => plain_key (name element)) formElements = true ->
  extractFormData formElements !! k = pack (values_of k formElements).
Proof.
  intros _. unfold extractFormData. apply extractFormData_pack.
Qed.

(** The witness of X1: the two checked boxes of scenario D. *)
Lemma extractFormData_lookup_witness :
  extractFormData interests_form !! "interests" = Some (VArr [VStr "a"; VStr "b"]).
Proof.
  exact (extractFormData_lookup interests_form "interests" eq_refl).
Defined.

Lemma values_of_skipped k form :
  Forall (fun element => element_value element = Continue) form -> values_of k form = [].
Proof.
  induction 1 as [|element form He _ IH]; simpl; [done|]. by rewrite He.
Qed.

Lemma values_of_contributes element v form :
  In element form -> element_value element = Store v ->
  values_of (name element) form <> [].
Proof.
  induction form as [|e form IH]; intros Hin Hv; simpl; [done|].
  destruct Hin as [-> | Hin].
  - by rewrite Hv, String.eqb_refl.
  - destruct (element_value e); [by apply IH|].
    destruct (String.eqb (name e) (name element)); [done | by apply IH].
Qed.

(** The mapping is empty exactly when every control is skipped. *)
Lemma extractFormData_empty form :
  extractFormData form = ∅ <->
  Forall (fun element => element_value element = Continue) form.
Proof.
  split.
  - intros Hempty. apply Forall_forall. intros element Hin.
    destruct (element_value element) as [|v] eqn:Hv; [done|].
    pose proof (extractFormData_pack form (name element)) as Hk.
    fold (extractFormData form) in Hk.
    rewrite Hempty, lookup_empty in Hk.
    apply list_elem_of_In in Hin.
    pose proof (values_of_contributes element v form Hin Hv) as Hne.
    destruct (values_of (name element) form) as [|a [|b vs]]; simpl in Hk;
      [done | discriminate | discriminate].
  - intros Hall. apply map_eq. intros k.
    unfold extractFormData.
    by rewrite extractFormData_pack, values_of_skipped, lookup_empty.
Qed.

(** The two ways the listener's body ends when the action is a URL. *)
Lemma captureFormSubmission_cases `{Host} (page : Page) (form : Form) :
  let actionUrl := or_else (form_action form) (href page) in
  (captureFormSubmission page form = [] <->
   shouldIgnore (Some (href page)) (Some actionUrl) = true \/
   Forall (fun element => element_value element = Continue) (elements form)) /\
  (captureFormSubmission page form <> [] ->
   captureFormSubmission page form =
   [ SendMessage {| url := href page;
                    action := actionUrl;
                    timestamp := now page;
                    fields := extractFormData (elements form);
                    title := or_else (doc_title page) "Untitled Page";
                    source := None |} ]).
Proof.
  intros actionUrl. unfold captureFormSubmission. fold actionUrl.
  assert (or_else actionUrl (href page) = actionUrl) as Haction.
  { unfold actionUrl, or_else.
    destruct (nonempty (form_action form)) eqn:Hf; [by rewrite Hf|].
    by destruct (nonempty (href page)). }
  destruct (shouldIgnore _ _) eqn:Hi.
  - split; [split; auto | done].
  - destruct (size (extractFormData (elements form)) =? 0)%nat eqn:Hs.
    + apply Nat.eqb_eq, map_size_empty_iff in Hs.
      split; [|done]. split; [|done]. intros _. right. by apply extractFormData_empty.
    + rewrite Haction. split; [|done]. split; [discriminate|].
      intros [Hc | Hall]; [discriminate|].
      apply extractFormData_empty in Hall.
      rewrite Hall, map_size_empty in Hs. discriminate.
Qed.

(** Scenario D: two checked boxes named [interests], an unchecked one in
    between. *)
Example interests_accumulate :
  extractFormData interests_form = {[ "interests" := VArr [VStr "a"; VStr "b"] ]}.
Proof. vm_compute. reflexivity. Qed.

(** X2.  The native submit listener sends at most one message.  It sends
    none exactly when a control takes the place of [form.action] or the
    target has no [elements] (the listener then throws), when the ignore
    policy vetoes the page or the action, or when every item of
    [form.elements] is skipped (no name, password type, disabled,
    unchecked, no file, empty value).  The one submission carries the
    page URL, the form action (the page URL when the form has none), the
    extractor's mapping, and no source.  This is for URLs of ASCII
    characters and for items whose names are not names of members of
    [Object.prototype]. *)
Theorem submit_listener_outcome `{Host} (page : Page) (target : SubmitTarget) :
  is_ascii (href page) = true ->
  (forall a, target_action target = ActionUrl a -> is_ascii a = true) ->
  (forall formElements,
     target_elements target = Some formElements ->
     forallb (fun element => plain_key (name element)) formElements = true) ->
  (length (sends (fst (onSubmit page target))) <= 1)%nat /\
  (sends (fst (onSubmit page target)) = [] <->
   target_action target = ActionControl \/
   exists a, target_action target = ActionUrl a /\
     (shouldIgnore (Some (href page)) (Some (or_else a (href page))) = true \/
      target_elements target = None \/
      exists formElements,
        target_elements target = Some formElements /\
        Forall (fun element => element_value element = Continue) formElements)) /\
  (forall a formElements,
     target_action target = ActionUrl a ->
     target_elements target = Some formElements ->
     sends (fst (onSubmit page target)) <> [] ->
     onSubmit page target =
     ([ SendMessage {| url := href page;
                       action := or_else a (href page);
                       timestamp := now page;
                       fields := extractFormData formElements;
                       title := or_else (doc_title page) "Untitled Page";
                       source := None |} ], Returned tt)) /\
  (sends (fst (onSubmit page target)) <> [] -> snd (onSubmit page target) = Returned tt).
Proof.
  intros _ _ _. unfold onSubmit.
  destruct (target_action target) as [a|] eqn:Ha.
  - destruct (shouldIgnore (Some (href page)) (Some (or_else a (href page)))) eqn:Hi.
    { cbn. split; [lia|]. split; [|split].
      - split; [|done]. intros _. right. exists a. auto.
      - intros a' els _ _ Hs. by destruct Hs.
      - done. }
    destruct (target_elements target) as [formElements|] eqn:He.
    + cbn [fst snd].
      pose proof (captureFormSubmission_cases page (mkForm a formElements))
        as [Hnil Hsend]. cbn [form_action elements] in Hnil, Hsend.
      destruct (decide (captureFormSubmission page (mkForm a formElements) = []))
        as [Hc | Hne].
      * rewrite Hc. cbn [sends length]. split; [lia|]. split; [|split].
        -- split; [|done]. intros _. right. exists a. split; [done|].
           apply Hnil in Hc as [Hc | Hc]; [by left|right; right; eauto].
        -- intros a' els _ _ Hs. by destruct Hs.
        -- done.
      * rewrite (Hsend Hne). cbn [sends length]. split; [lia|]. split; [|split].
        -- split; [intros Hs; discriminate Hs|].
           intros [Hc | (a' & [= <-] & [Hc | [Hc | (els & [= <-] & Hc)]])];
             try discriminate Hc.
           ++ rewrite Hi in Hc. discriminate Hc.
           ++ exfalso. apply Hne. apply Hnil. by right.
        -- intros a' els [= <-] [= <-] _. reflexivity.
        -- done.
    + cbn. split; [lia|]. split; [|split].
      * split; [|done]. intros _. right. exists a. auto.
      * intros a' els _ Hc. discriminate Hc.
      * intros Hs. by destruct Hs.
  - cbn. split; [lia|]. split; [|split].
    + split; auto.
    + intros a els Hc. discriminate Hc.
    + intros Hs. by destruct Hs.
Qed.

(** The witness of X2: the newsletter form on the contact page. *)
Lemma submit_listener_outcome_witness :
  sends (fst (@onSubmit browser contact_page newsletter_target)) =
    [ {| url := "https://example.com/contact";
         action := "https://example.com/subscribe";
         timestamp := "2024-01-01T00:00:00.000Z";
         fields := {[ "email" := VStr "a@b.com" ]};
         title := "A page";
         source := None |} ].
Proof.
  assert (sends (fst (@onSubmit browser contact_page newsletter_target)) <> []) as Hne.
  { intros Hnil. vm_compute in Hnil. discriminate Hnil. }
  assert (Hascii : forall a, target_action newsletter_target = ActionUrl a ->
                             is_ascii a = true)
    by (intros a [= <-]; reflexivity).
  assert (Hplain : forall formElements,
            target_elements newsletter_target = Some formElements ->
            forallb (fun element => plain_key (name element)) formElements = true)
    by (intros formElements [= <-]; reflexivity).
  rewrite (proj1 (proj2 (proj2 (@submit_listener_outcome browser contact_page
                                  newsletter_target eq_refl Hascii Hplain)))
             "https://example.com/subscribe" (elements newsletter_form)
             eq_refl eq_refl Hne).
  vm_compute. reflexivity.
Defined.

(** ** IgnorePolicy *)

Lemma lower_upper_ascii c : lower_ascii (upper_ascii c) = lower_ascii c.
Proof. destruct c as [[] [] [] [] [] [] [] []]; reflexivity. Qed.

Lemma lower_lower_ascii c : lower_ascii (lower_ascii c) = lower_ascii c.
Proof. destruct c as [[] [] [] [] [] [] [] []]; reflexivity. Qed.

Lemma toLowerCase_toUpperCase s : toLowerCase (toUpperCase s) = toLowerCase s.
Proof.
  unfold toLowerCase, toUpperCase.
  induction s as [|c s IH]; cbn [string_map]; [done|].
  by rewrite lower_upper_ascii, IH.
Qed.

Lemma toLowerCase_idempotent s : toLowerCase (toLowerCase s) = toLowerCase s.
Proof.
  unfold toLowerCase.
  induction s as [|c s IH]; cbn [string_map]; [done|].
  by rewrite lower_lower_ascii, IH.
Qed.

Lemma append_cons c (s t : string) : String c s ++ t = String c (s ++ t).
Proof. reflexivity. Qed.

Lemma append_empty (t : string) : EmptyString ++ t = t.
Proof. reflexivity. Qed.

Lemma toLowerCase_app s t : toLowerCase (s ++ t) = toLowerCase s ++ toLowerCase t.
Proof.
  unfold toLowerCase.
  induction s as [|c s IH]; [done|].
  rewrite append_cons. simpl. rewrite append_cons. f_equal. exact IH.
Qed.

Lemma prefix_app p : forall s t, String.prefix p s = true -> String.prefix p (s ++ t) = true.
Proof.
  induction p as [|a p IH]; intros s t Hp; [by destruct (s ++ t)|].
  destruct s as [|b s]; [discriminate|].
  rewrite append_cons. simpl in *.
  destruct (ascii_dec a b); [by apply IH | discriminate].
Qed.

Lemma includes_cons needle c s :
  includes needle (String c s) = String.prefix needle (String c s) || includes needle s.
Proof. reflexivity. Qed.

Lemma includes_app_r needle : forall s t,
  includes needle s = true -> includes needle (s ++ t) = true.
Proof.
  induction s as [|c s IH]; intros t.
  - simpl. rewrite orb_false_r. intros Hp. rewrite append_empty.
    destruct needle; [by destruct t | discriminate].
  - rewrite includes_cons. intros [Hp | Hs]%orb_true_iff.
    + pose proof (prefix_app _ _ t Hp) as Hpt.
      rewrite append_cons in *. rewrite includes_cons. by rewrite Hpt.
    + rewrite append_cons, includes_cons. rewrite (IH _ Hs). apply orb_true_r.
Qed.

Lemma includes_app_l needle : forall t s,
  includes needle s = true -> includes needle (t ++ s) = true.
Proof.
  induction t as [|c t IH]; intros s Hs; [done|].
  rewrite append_cons, includes_cons. rewrite (IH _ Hs). apply orb_true_r.
Qed.

Lemma pattern_test_extend pattern s pre post :
  pattern_test pattern (toLowerCase s) = true ->
  pattern_test pattern (toLowerCase (pre ++ s ++ post)) = true.
Proof.
  unfold pattern_test. rewrite !toLowerCase_idempotent, !toLowerCase_app.
  intros Hs. by apply includes_app_l, includes_app_r.
Qed.

(** X3.  On URLs of ASCII characters (as [location.href] and a resolved
    form action are) the ignore policy does not depend on letter case,
    and a URL that contains an ignored URL is ignored as well.  It does
    not depend on which of the two URLs matches, and a missing URL counts
    as the empty one. *)
Theorem shouldIgnore_properties (u a : string) :
  is_ascii u = true ->
  is_ascii a = true ->
  shouldIgnore (Some u) (Some a) = shouldIgnore (Some a) (Some u) /\
  shouldIgnore (Some (toUpperCase u)) (Some (toUpperCase a)) =
    shouldIgnore (Some u) (Some a) /\
  shouldIgnore None (Some a) = shouldIgnore (Some EmptyString) (Some a) /\
  (forall pre post,
     is_ascii pre = true -> is_ascii post = true ->
     shouldIgnore (Some u) (Some a) = true ->
     shouldIgnore (Some (pre ++ u ++ post)) (Some a) = true).
Proof.
  intros _ _.
  assert (Hsym : forall x y, shouldIgnore x y = shouldIgnore y x).
  { intros x y. unfold shouldIgnore.
    induction DEFAULT_IGNORE_PATTERNS as [|p ps IH]; simpl; [done|].
    by rewrite IH, (orb_comm (pattern_test p _)). }
  repeat apply conj.
  - apply Hsym.
  - unfold shouldIgnore. simpl. by rewrite !toLowerCase_toUpperCase.
  - reflexivity.
  - intros pre post _ _. unfold shouldIgnore. cbn [default].
    rewrite !existsb_exists. intros (p & Hin & Hp).
    exists p. split; [done|].
    apply orb_true_iff in Hp. apply orb_true_iff.
    destruct Hp as [Hu | Ha]; [left | by right].
    exact (pattern_test_extend p u pre post Hu).
Qed.

(** The witness of X3: a login URL inside a longer one. *)
Lemma shouldIgnore_properties_witness :
  shouldIgnore (Some "/LOGIN") (Some "/a") = true /\
  shouldIgnore (Some ("https://example.com" ++ "/login" ++ "?next=%2F")) (Some "/a") = true.
Proof.
  destruct (shouldIgnore_properties "/login" "/a" eq_refl eq_refl)
    as (_ & Hcase & _ & Hext).
  split.
  - exact Hcase.
  - apply (Hext "https://example.com" "?next=%2F"); reflexivity.
Defined.

(** ** RetryScheduler, in general *)

Section Chains.
Context `{Host}.

(** The four ways one run of [attemptCapture] ends. *)
Lemma attemptCapture_cases c attempts page :
  let found := chain_extract c (dom page) in
  let salvaged := lastResort c (lastResortInputs (dom page)) ∅ in
  (found <> ∅ /\
   attemptCapture c attempts page = [SendMessage (chain_submission c page found)]) \/
  (found = ∅ /\ (S attempts < maxAttempts)%nat /\
   attemptCapture c attempts page = [SetTimeout (AttemptCapture c (S attempts)) 300]) \/
  (found = ∅ /\ (maxAttempts <= S attempts)%nat /\ salvaged <> ∅ /\
   attemptCapture c attempts page = [SendMessage (chain_submission c page salvaged)]) \/
  (found = ∅ /\ (maxAttempts <= S attempts)%nat /\ salvaged = ∅ /\
   attemptCapture c attempts page = [ConsoleDebug (chain_debug c)]).
Proof.
  intros found salvaged.
  destruct (decide (found = ∅)) as [He | Hne].
  - right. destruct (Nat.lt_ge_cases (S attempts) maxAttempts) as [Hlt | Hge].
    + left. split; [done|]. split; [done|]. by apply attemptCapture_retry.
    + right. rewrite (attemptCapture_exhausted c attempts page He Hge). fold salvaged.
      destruct (decide (salvaged = ∅)) as [Hs | Hs].
      * right. repeat split; auto. cbv zeta. by rewrite Hs, map_size_empty.
      * left. repeat split; auto. cbv zeta.
        assert ((size salvaged =? 0)%nat = false) as ->; [|done].
        apply Nat.eqb_neq. intros Hz. by apply map_size_empty_iff in Hz.
  - left. split; [done|]. by apply attemptCapture_dispatch.
Qed.

Lemma chain_run c page_at : forall fuel attempts t,
  (maxAttempts <= attempts + fuel)%nat -> (1 <= fuel)%nat ->
  exists trace,
    run_timers fuel page_at [(t, AttemptCapture c attempts)] = Some trace /\
    (1 <= length trace)%nat /\
    (length trace = 1 \/ (attempts + length trace <= maxAttempts)%nat) /\
    chain_result c page_at (sent trace).
Proof.
  induction fuel as [|fuel IH]; intros attempts t Hfuel Hpos; [lia|].
  cbn [run_timers run_callback].
  destruct (attemptCapture_cases c attempts (page_at t))
    as [[Hf ->] | [(Hf & Hlt & ->) | [(Hf & Hge & Hs & ->) | (Hf & Hge & Hs & ->)]]];
    cbn [schedule_all map app].
  - eexists. split; [by destruct fuel|]. repeat split; [simpl; lia | by left |].
    right. exists t, (chain_extract c (dom (page_at t))). simpl. auto.
  - cbn [schedule].
    destruct (IH (S attempts) (t + 300)) as (trace & -> & Hlen & Hbound & Hres);
      [lia | unfold maxAttempts in *; lia |].
    eexists. split; [reflexivity|]. simpl. repeat split; [lia | | exact Hres].
    right. destruct Hbound as [-> | Hb]; lia.
  - eexists. split; [by destruct fuel|]. repeat split; [simpl; lia | by left |].
    right. exists t, (lastResort c (lastResortInputs (dom (page_at t))) ∅). simpl. auto.
  - eexists. split; [by destruct fuel|]. repeat split; [simpl; lia | by left |].
    by left.
Qed.
End Chains.

(** X4.  Whatever the scraper finds and whenever, a capture chain comes
    to an end: started with the attempt counter at [attempts], it runs
    the scraper at most [maxAttempts - attempts] times (once at least),
    leaves no timer pending, and sends at most one submission, built
    from the scraper's mapping of the last run when that is not empty and
    otherwise from the last-resort pass of that run. *)
Theorem chain_always_ends `{Host} (c : Chain) (page_at : nat -> Page)
    (fuel attempts t : nat) :
  (maxAttempts <= attempts + fuel)%nat -> (1 <= fuel)%nat ->
  exists trace,
    run_timers fuel page_at [(t, AttemptCapture c attempts)] = Some trace /\
    (1 <= length trace)%nat /\
    (length trace = 1 \/ (attempts + length trace <= maxAttempts)%nat) /\
    (length (sent trace) <= 1)%nat /\
    chain_result c page_at (sent trace).
Proof.
  intros Hfuel Hpos.
  destruct (chain_run c page_at fuel attempts t Hfuel Hpos)
    as (trace & Hrun & Hlen & Hbound & Hres).
  exists trace. repeat split; auto.
  destruct Hres as [-> | (t' & fd & -> & _)]; simpl; lia.
Qed.

(** The witness of X4: the chain of scenario E from its first attempt. *)
Lemma chain_always_ends_witness :
  exists trace,
    run_timers 3 slow_form [(0, AttemptCapture GoogleChain 0)] = Some trace /\
    (length (sent trace) <= 1)%nat.
Proof.
  destruct (@chain_always_ends browser GoogleChain slow_form 3 0 0
              (le_n 3) (le_S _ _ (le_S _ _ (le_n 1))))
    as (trace & Hrun & _ & _ & Hsent & _).
  exists trace. split; [exact Hrun | exact Hsent].
Defined.

(** ** The last-resort pass *)

Lemma lastResort_step_cases c formData input :
  (lastResort_blank input = true /\ lastResort_step c formData input = formData) \/
  (lastResort_blank input = false /\
   lastResort_step c formData input =
   <[ lastResort_name c input formData := VStr (lastResort_value input) ]> formData).
Proof.
  unfold lastResort_step, lastResort_blank, lastResort_value.
  destruct (has_non_space (or_else (lr_value input) (lr_textContent input))) eqn:Hv.
  - right. split; [done|].
    assert (nonempty (or_else (lr_value input) (lr_textContent input)) = true) as ->;
      [|done].
    by destruct (or_else (lr_value input) (lr_textContent input)).
  - left. split; [done|]. by rewrite andb_false_r.
Qed.

Lemma lastResort_fold c inputs : forall formData,
  (forall k v, fold_left (lastResort_step c) inputs formData !! k = Some v ->
     formData !! k = Some v \/
     exists input, In input inputs /\ lastResort_blank input = false /\
                   v = VStr (lastResort_value input)) /\
  (size (fold_left (lastResort_step c) inputs formData) <= size formData + length inputs)%nat /\
  (formData <> ∅ -> fold_left (lastResort_step c) inputs formData <> ∅) /\
  (Forall (fun input => lastResort_blank input = true) inputs ->
   fold_left (lastResort_step c) inputs formData = formData) /\
  (fold_left (lastResort_step c) inputs formData = ∅ ->
   Forall (fun input => lastResort_blank input = true) inputs).
Proof.
  induction inputs as [|input inputs IH]; intros formData; simpl.
  - repeat split; auto. lia.
  - destruct (IH (lastResort_step c formData input)) as (Hval & Hsize & Hne & Hblank & Hempty).
    destruct (lastResort_step_cases c formData input) as [[Hb Hstep] | [Hb Hstep]];
      rewrite Hstep in *.
    + repeat split.
      * intros k v Hk. destruct (Hval k v Hk) as [? | (i & ? & ? & ?)]; eauto 6.
      * lia.
      * exact Hne.
      * intros Hall. inversion Hall. auto.
      * intros He. constructor; auto.
    + assert (<[ lastResort_name c input formData := VStr (lastResort_value input) ]>
                formData <> ∅) as Hins by apply insert_non_empty.
      repeat split.
      * intros k v Hk. destruct (Hval k v Hk) as [Hold | (i & ? & ? & ?)]; [|eauto 6].
        destruct (decide (lastResort_name c input formData = k)) as [<-|Hk'].
        -- rewrite lookup_insert_eq in Hold. injection Hold as <-. right. eauto.
        -- rewrite lookup_insert_ne in Hold by done. by left.
      * destruct (formData !! lastResort_name c input formData) eqn:Hold.
        -- rewrite map_size_insert_Some in Hsize by eauto. lia.
        -- rewrite map_size_insert_None in Hsize by done. lia.
      * intros _. by apply Hne.
      * intros Hall. inversion Hall. congruence.
      * intros He. by apply Hne in He.
Qed.

(** X5.  The last-resort pass keeps only values that are not blank: each
    value of its mapping is the value (or, failing that, the text) of
    some matched element and has a character that is not white space;
    the mapping has at most one entry per matched element, and it is
    empty when every matched element is blank.  Conversely, when the
    values are made of ASCII characters and no name is [__proto__], an
    empty mapping means that every matched element is blank. *)
Theorem lastResort_keeps_non_blank (c : Chain) (inputs : list LastResortInput) :
  (forall k v,
     lastResort c inputs ∅ !! k = Some v ->
     exists input, In input inputs /\ v = VStr (lastResort_value input) /\
                   has_non_space (lastResort_value input) = true) /\
  (size (lastResort c inputs ∅) <= length inputs)%nat /\
  (Forall (fun input => lastResort_blank input = true) inputs ->
   lastResort c inputs ∅ = ∅) /\
  (forallb lastResort_exact inputs = true ->
   lastResort c inputs ∅ = ∅ ->
   Forall (fun input => lastResort_blank input = true) inputs).
Proof.
  destruct (lastResort_fold c inputs ∅) as (Hval & Hsize & _ & Hblank & Hempty).
  unfold lastResort. repeat split.
  - intros k v Hk. destruct (Hval k v Hk) as [Hk0 | (input & Hin & Hb & ->)].
    + by rewrite lookup_empty in Hk0.
    + exists input. repeat split; auto.
      unfold lastResort_blank in Hb. by apply negb_false_iff in Hb.
  - by rewrite map_size_empty in Hsize.
  - exact Hblank.
  - intros _. exact Hempty.
Qed.

(** The witness of X5: one element with a value, one with blanks only. *)
Lemma lastResort_keeps_non_blank_witness :
  lastResort GoogleChain two_inputs ∅ !! "name" = Some (VStr "Ada") /\
  exists input, In input two_inputs /\ VStr "Ada" = VStr (lastResort_value input) /\
                has_non_space (lastResort_value input) = true.
Proof.
  assert (lastResort GoogleChain two_inputs ∅ !! "name" = Some (VStr "Ada")) as Hk
    by (vm_compute; reflexivity).
  split; [exact Hk|].
  exact (proj1 (lastResort_keeps_non_blank GoogleChain two_inputs) "name" (VStr "Ada") Hk).
Defined.

(** ** The network path and the DOM cross-check together *)

Section CrossCheck.
Context `{Host}.


Lemma schedule_Forall (P : Callback -> Prop) due cb : forall queue,
  P cb -> Forall (fun entry => P (snd entry)) queue ->
  Forall (fun entry => P (snd entry)) (schedule due cb queue).
Proof.
  induction queue as [|[t cb'] queue IH]; intros Hcb Hall; simpl.
  - by repeat constructor.
  - inversion Hall; subst. destruct (t <=? due)%nat; constructor; auto.
Qed.

Lemma schedule_length due cb queue :
  length (schedule due cb queue) = S (length queue).
Proof.
  induction queue as [|[t cb'] queue IH]; simpl; [done|].
  destruct (t <=? due)%nat; simpl; by rewrite ?IH.
Qed.

Lemma schedule_all_Forall (P : Callback -> Prop) t evs : forall queue,
  (forall cb delay, In (SetTimeout cb delay) evs -> P cb) ->
  Forall (fun entry => P (snd entry)) queue ->
  Forall (fun entry => P (snd entry)) (schedule_all t evs queue).
Proof.
  induction evs as [|ev evs IH]; intros queue Hevs Hall; simpl; [done|].
  destruct ev; try (apply IH; [intros; eapply Hevs; right; eauto | done]).
  apply IH; [intros; eapply Hevs; right; eauto|].
  apply schedule_Forall; [|done]. eapply Hevs. by left.
Qed.

Lemma schedule_all_length t evs : forall queue,
  (length (schedule_all t evs queue) <= length queue + length evs)%nat.
Proof.
  induction evs as [|ev evs IH]; intros queue; simpl; [lia|].
  destruct ev; try (specialize (IH queue); lia).
  specialize (IH (schedule (t + delay) cb queue)). rewrite schedule_length in IH. lia.
Qed.

Lemma sent_timed t evs trace :
  sent ((map (pair t) evs ++ trace)%list) = (sends evs ++ sent trace)%list.
Proof.
  induction evs as [|ev evs IH]; simpl; [done|]. destruct ev; simpl; by rewrite ?IH.
Qed.

Lemma capture_inert p page : no_provider page -> run_callback (CaptureSubmission p) page = [].
Proof.
  intros (Hg & Hm & Hc).
  destruct p; simpl; unfold captureGoogleFormSubmission, captureMicrosoftFormSubmission,
    captureClickUpFormSubmission; by rewrite ?Hg, ?Hm, ?Hc.
Qed.

Lemma run_timers_inert page_at :
  (forall t, no_provider (page_at t)) ->
  forall fuel queue,
    Forall (fun entry => is_capture (snd entry)) queue ->
    (length queue <= fuel)%nat ->
    run_timers fuel page_at queue = Some [].
Proof.
  intros Hpages. induction fuel as [|fuel IH]; intros queue Hall Hlen.
  - destruct queue; [done | simpl in Hlen; lia].
  - destruct queue as [|[t cb] queue]; [done|].
    inversion Hall as [|? ? [p Hp] Hrest]; subst. simpl in Hp. subst cb.
    cbn [run_timers]. rewrite (capture_inert p _ (Hpages t)).
    cbn [schedule_all map app]. rewrite IH; [done | done | simpl in Hlen; lia].
Qed.


Lemma fetch_events_sends page args :
  (length (sends (fetch_events page args)) <= 1)%nat.
Proof.
  unfold fetch_events, fetch_try_events, fetch_timers.
  destruct (options args) as [o|]; [|simpl; lia].
  destruct (fetch_guard_value o); [|simpl; lia].
  destruct (url_text (url_arg args)) as [urlStr|]; [|simpl; lia].
  destruct (isGoogleFormsEndpoint urlStr), (isMicrosoftFormsEndpoint urlStr),
    (isClickUpFormsEndpoint urlStr), (0 <? size _)%nat; simpl; lia.
Qed.

Lemma interceptFetch_events page args :
  fst (interceptFetch page args) = [] \/
  fst (interceptFetch page args) =
    (fetch_events page args ++ [CallOriginalFetch args])%list.
Proof.
  destruct (options args) as [o|] eqn:Ho.
  - destruct (string_or_falsy (method o)) eqn:Hm.
    + right. rewrite interceptFetch_delegates; [done|].
      intros o' Ho'. rewrite Ho in Ho'. by injection Ho' as <-.
    + left. by rewrite (interceptFetch_throws page args o Ho Hm).
  - right. rewrite interceptFetch_delegates; [done|]. intros o' Ho'. congruence.
Qed.



Lemma sends_app (evs1 evs2 : list Event) :
  sends (evs1 ++ evs2)%list = (sends evs1 ++ sends evs2)%list.
Proof.
  induction evs1 as [|ev evs1 IH]; simpl; [done|]. destruct ev; simpl; by rewrite ?IH.
Qed.
End CrossCheck.

(** X6.  On a page that no provider test accepts, the captures that the
    wrapped fetch schedules do nothing when they fire: followed to
    quiescence, a call sends what the interceptor itself sent, at most
    one submission, and leaves no timer pending. *)
Theorem fetch_cross_check_inert `{Host} (page_at : nat -> Page) (t0 : nat)
    (args : FetchArgs) :
  (forall t, no_provider (page_at t)) ->
  let evs := fst (interceptFetch (page_at t0) args) in
  exists trace,
    run_from (length evs) page_at t0 evs = Some trace /\
    sent trace = sends evs /\
    (length (sent trace) <= 1)%nat.
Proof.
  intros Hpages evs. unfold run_from.
  rewrite (run_timers_inert page_at Hpages).
  - eexists. split; [reflexivity|].
    rewrite sent_timed. simpl. rewrite app_nil_r. split; [done|].
    unfold evs. destruct (interceptFetch_events (page_at t0) args) as [-> | ->];
      [simpl; lia|].
    rewrite sends_app. simpl. rewrite app_nil_r. apply fetch_events_sends.
  - apply schedule_all_Forall; [|constructor].
    intros cb delay Hin. by apply interceptFetch_timers in Hin.
  - pose proof (schedule_all_length t0 evs []) as Hlen. simpl in Hlen. lia.
Qed.

(** The witness of X6: scenario C sent from the contact page. *)
Lemma fetch_cross_check_inert_witness :
  exists trace,
    run_from (length (fst (@interceptFetch browser contact_page scenario_C)))
             (fun _ => contact_page) 0
             (fst (@interceptFetch browser contact_page scenario_C)) = Some trace /\
    sent trace = sends (fst (@interceptFetch browser contact_page scenario_C)).
Proof.
  destruct (@fetch_cross_check_inert browser (fun _ => contact_page) 0 scenario_C)
    as (trace & Hrun & Hsent & _).
  - intros t. repeat split.
  - exists trace. split; [exact Hrun | exact Hsent].
Defined.



(** ** SubmitTriggerWatcher: handlers and coverage *)

Section WatcherMore.
Variable querySelectorAll : string -> Controls -> option (list nat).

Lemma steps_keep_tidy doc doc' :
  watcher_steps querySelectorAll doc doc' ->
  (forall n b, doc !! n = Some b -> pristine b) ->
  forall n b, doc' !! n = Some b -> tidy b.
Proof.
  induction 1 as [doc | doc1 doc2 doc3 _ IH Hstep]; intros Hpristine.
  - intros n b Hb. destruct (Hpristine n b Hb) as [Hw Hl]. left. by rewrite Hw.
  - eapply step_keeps_tidy; eauto.
Qed.

Lemma watch_eligible p q button : eligible p (watch q button) = eligible p button.
Proof.
  unfold watch. destruct (eligible q button && _); [|done].
  by destruct p.
Qed.

Lemma watch_keeps_watched p button :
  watched button = true -> watched (watch p button) = true.
Proof. intros Hw. by rewrite watch_watched. Qed.

Lemma watch_marks p button :
  eligible p button = true -> watched (watch p button) = true.
Proof.
  intros He. unfold watch, watched. rewrite He.
  by destruct (opt_truthy (formtrackWatched button)) eqn:Hw.
Qed.

(** A node that is present stays present through a pass, keeps its
    eligibility, and stays marked when it was. *)
Lemma touched_present p button after :
  touched p (Some button) after ->
  exists button', after = Some button' /\
                  eligible p button' = eligible p button /\
                  (watched button = true -> watched button' = true).
Proof.
  intros [-> | ->]; [by eauto|].
  simpl. eexists. split; [reflexivity|].
  split; [apply watch_eligible | apply watch_keeps_watched].
Qed.

Lemma fold_watch_marks p node : forall buttons doc button,
  In node buttons -> doc !! node = Some button -> eligible p button = true ->
  exists button', fold_left (watch_node p) buttons doc !! node = Some button' /\
                  eligible p button' = true /\ watched button' = true.
Proof.
  induction buttons as [|b buttons IH]; intros doc button Hin Hnode He; [done|].
  simpl. destruct (decide (b = node)) as [->|Hne].
  - assert (watch_node p doc node !! node = Some (watch p button)) as Hw.
    { unfold watch_node. by rewrite Hnode, lookup_insert_eq. }
    pose proof (fold_watch_touched p buttons (watch_node p doc node) node) as Ht.
    rewrite Hw in Ht. apply touched_present in Ht as (button' & -> & He' & Hw').
    exists button'. split; [done|]. rewrite He', watch_eligible.
    split; [done|]. apply Hw'. by apply watch_marks.
  - destruct Hin as [? | Hin]; [done|].
    apply (IH _ button); [done| |done].
    unfold watch_node. destruct (doc !! b); [by rewrite lookup_insert_ne | done].
Qed.

Lemma attach_pass_marks p selector buttons node :
  (forall doc, querySelectorAll selector doc = Some buttons) ->
  (p = Microsoft -> forall s doc, querySelectorAll s doc <> None) ->
  In node buttons ->
  forall selectors doc button,
    In selector selectors ->
    doc !! node = Some button -> eligible p button = true ->
    exists button',
      attach_pass querySelectorAll p selectors doc !! node = Some button' /\
      watched button' = true.
Proof.
  intros Hstable Hms Hin.
  induction selectors as [|s selectors IH]; intros doc button Hsel Hnode He; [done|].
  simpl. destruct (decide (s = selector)) as [->|Hne].
  - rewrite Hstable.
    destruct (fold_watch_marks p node buttons doc button Hin Hnode He)
      as (b1 & Hb1 & _ & Hw1).
    pose proof (attach_pass_touched querySelectorAll p selectors
                  (fold_left (watch_node p) buttons doc) node) as Ht.
    rewrite Hb1 in Ht. apply touched_present in Ht as (b2 & -> & _ & Hw2).
    exists b2. auto.
  - destruct Hsel as [? | Hsel]; [done|].
    destruct (querySelectorAll s doc) as [found|] eqn:Hq.
    + pose proof (fold_watch_touched p found doc node) as Ht.
      rewrite Hnode in Ht. apply touched_present in Ht as (b1 & Hb1 & He1 & _).
      apply (IH _ b1); [done | done | congruence].
    + destruct p; try (by apply (IH _ button)).
      by destruct (Hms eq_refl s doc).
Qed.
End WatcherMore.

Lemma timers_app `{Host} (evs1 evs2 : list Event) :
  timers (evs1 ++ evs2)%list = (timers evs1 ++ timers evs2)%list.
Proof.
  induction evs1 as [|ev evs1 IH]; simpl; [done|]. destruct ev; simpl; by rewrite ?IH.
Qed.

(** What a click and a press on one control run, for a control as the
    engine leaves it. *)
Lemma tidy_click `{Host} (button : Control) :
  tidy button ->
  (watched button = false /\ click button = [] /\ press button = []) \/
  (watched button = true /\
   exists p, click button = listener_events (ClickListener p) /\
             press button = listener_events (MouseDownListener p)).
Proof.
  intros [[Hw Hl] | [Hw [p Hl]]]; unfold click, press, watched; rewrite Hl, Hw.
  - left. done.
  - right. split; [done|]. exists p. by destruct p.
Qed.

(** X8.  After any sequence of watcher passes and control additions on a
    document of untouched controls, a click runs, for each marked node of
    its propagation path, the click handler of one watcher, once, and
    nothing for the other nodes; so it sets at most three capture timers
    per marked node of the path, and a press at most one.  A click on a
    control none of whose ancestors is marked runs either no handler of
    the engine or the click handler of one watcher, once. *)
Theorem click_runs_one_handler_per_marked_node `{Host}
    (querySelectorAll : string -> Controls -> option (list nat))
    (doc doc' : Controls) (path : list nat) :
  watcher_steps querySelectorAll doc doc' ->
  (forall n b, doc !! n = Some b -> pristine b) ->
  (length (timers (click_path doc' path)) <= 3 * length (watched_on doc' path))%nat /\
  (length (timers (press_path doc' path)) <= length (watched_on doc' path))%nat /\
  (forall ancestors node button,
     path = (ancestors ++ [node])%list ->
     watched_on doc' ancestors = [] ->
     doc' !! node = Some button ->
     click_path doc' path = click button /\
     press_path doc' path = press button /\
     ((click button = [] /\ press button = []) \/
      (exists p, click button = listener_events (ClickListener p) /\
                 press button = listener_events (MouseDownListener p)))).
Proof.
  intros Hsteps Hpristine.
  pose proof (steps_keep_tidy querySelectorAll doc doc' Hsteps Hpristine) as Htidy.
  assert (Hnode : forall node,
            (length (timers (click_path doc' [node]))
             <= 3 * length (watched_on doc' [node]))%nat /\
            (length (timers (press_path doc' [node]))
             <= length (watched_on doc' [node]))%nat /\
            (watched_on doc' [node] = [] ->
             click_path doc' [node] = [] /\ press_path doc' [node] = [])).
  { intros node. unfold click_path, press_path, watched_on. cbn [flat_map List.filter].
    rewrite !app_nil_r.
    destruct (doc' !! node) as [button|] eqn:Hb; [|cbn; repeat split; lia].
    destruct (tidy_click button (Htidy node button Hb))
      as [(Hw & -> & ->) | (Hw & p & -> & ->)]; rewrite Hw.
    - cbn. repeat split; lia.
    - destruct p; cbn; repeat split; try lia; discriminate. }
  assert (Hsplit : forall l1 l2,
            click_path doc' (l1 ++ l2) = (click_path doc' l1 ++ click_path doc' l2)%list /\
            press_path doc' (l1 ++ l2) = (press_path doc' l1 ++ press_path doc' l2)%list /\
            watched_on doc' (l1 ++ l2) = (watched_on doc' l1 ++ watched_on doc' l2)%list).
  { intros l1 l2. unfold click_path, press_path, watched_on.
    by rewrite !flat_map_app, List.filter_app. }
  assert (Hquiet : forall l, watched_on doc' l = [] ->
            click_path doc' l = [] /\ press_path doc' l = []).
  { induction l as [|node l IH]; [done|]. intros Hw.
    destruct (Hsplit [node] l) as (Hc & Hp & Hwo). cbn [app] in Hc, Hp, Hwo.
    rewrite Hwo in Hw. apply app_eq_nil in Hw as [Hw1 Hw2].
    destruct (proj2 (proj2 (Hnode node)) Hw1) as [Hc1 Hp1].
    destruct (IH Hw2) as [Hc2 Hp2]. by rewrite Hc, Hp, Hc1, Hp1, Hc2, Hp2. }
  split; [|split].
  - induction path as [|node path IH]; [cbn; lia|].
    destruct (Hsplit [node] path) as (Hc & _ & Hwo). cbn [app] in Hc, Hwo.
    rewrite Hc, Hwo, timers_app, !length_app.
    destruct (Hnode node) as (H1 & _ & _). lia.
  - induction path as [|node path IH]; [cbn; lia|].
    destruct (Hsplit [node] path) as (_ & Hp & Hwo). cbn [app] in Hp, Hwo.
    rewrite Hp, Hwo, timers_app, !length_app.
    destruct (Hnode node) as (_ & H1 & _). lia.
  - intros ancestors node button -> Hw Hb.
    destruct (Hsplit ancestors [node]) as (Hc & Hp & _).
    destruct (Hquiet ancestors Hw) as [Hc1 Hp1].
    rewrite Hc, Hp, Hc1, Hp1. cbn [app].
    unfold click_path, press_path. cbn [flat_map]. rewrite Hb, !app_nil_r.
    split; [done|]. split; [done|].
    destruct (tidy_click button (Htidy node button Hb))
      as [(_ & -> & ->) | (_ & p & -> & ->)]; [by left|right; eauto].
Qed.

(** The witness of X8: on [nested_controls] after a pass of the ClickUp
    watcher, a click on the button travels through the wrapper and sets
    six timers; a click on the wrapper alone sets three. *)
Lemma click_runs_one_handler_per_marked_node_witness :
  length (timers (@click_path browser
                    (attachListeners both_everywhere ClickUp nested_controls) [2; 1]))
  = 6%nat /\
  (length (timers (@click_path browser
                     (attachListeners both_everywhere ClickUp nested_controls) [2]))
   <= 3 * 1)%nat.
Proof.
  split; [vm_compute; reflexivity|].
  refine (proj1 (@click_runs_one_handler_per_marked_node browser both_everywhere
                   nested_controls
                   (attachListeners both_everywhere ClickUp nested_controls) [2] _ _)).
  - eapply steps_next; [apply steps_refl|apply step_attach].
  - intros n b Hb. unfold nested_controls in Hb.
    apply lookup_insert_Some in Hb as [[_ <-] | [_ Hb]]; [split; reflexivity|].
    apply lookup_singleton_Some in Hb as [_ <-]. split; reflexivity.
Defined.

(** X9.  A pass of a watcher misses no control: a control that one of the
    watcher's selectors matches (and, for the ClickUp watcher, that
    passes its submit-button test) is marked when the pass ends.  For the
    Microsoft watcher, which does not catch a rejected selector, this
    needs that no selector is rejected. *)
Theorem attach_marks_every_match
    (querySelectorAll : string -> Controls -> option (list nat))
    (p : Provider) (selector : string) (buttons : list nat)
    (doc : Controls) (node : nat) (button : Control) :
  In selector (submitButtonSelectors p) ->
  (forall d, querySelectorAll selector d = Some buttons) ->
  (p = Microsoft -> forall s d, querySelectorAll s d <> None) ->
  In node buttons ->
  doc !! node = Some button ->
  eligible p button = true ->
  exists button',
    attachListeners querySelectorAll p doc !! node = Some button' /\
    opt_truthy (formtrackWatched button') = true.
Proof.
  intros Hsel Hstable Hms Hin Hnode He.
  by apply (attach_pass_marks querySelectorAll p selector buttons node Hstable Hms Hin
              (submitButtonSelectors p) doc button).
Qed.

(** The witness of X9: the Microsoft watcher on [two_controls]. *)
Lemma attach_marks_every_match_witness :
  exists button',
    attachListeners button_always Microsoft two_controls !! 1 = Some button' /\
    opt_truthy (formtrackWatched button') = true.
Proof.
  refine (attach_marks_every_match button_always Microsoft "button[type='submit']" [1]
            two_controls 1 (mkControl None [] (Some "Submit") (Some "submit") None)
            _ _ _ _ _ _).
  - left. reflexivity.
  - intros d. reflexivity.
  - intros _ s d. discriminate.
  - left. reflexivity.
  - reflexivity.
  - reflexivity.
Defined.

(** ** What the interceptors leave alone *)

(** X10.  The wrapped fetch only looks at POST and PUT calls (in any
    letter case) that have a body: every other call whose method is a
    string of ASCII characters, and every call without options, goes to
    the original with no other effect.  The wrapped send, in addition,
    only looks at requests to a provider endpoint.  A POST or PUT whose
    body is neither a [FormData] nor a string is never turned into a
    submission. *)
Theorem requests_passed_through `{Host} :
  (forall page u m b,
     is_ascii m = true ->
     (String.eqb (toUpperCase m) "POST" || String.eqb (toUpperCase m) "PUT")
       && body_truthy b = false ->
     interceptFetch page (mkFetchArgs u (Some (mkOptions (VStr m) b))) =
     ([CallOriginalFetch (mkFetchArgs u (Some (mkOptions (VStr m) b)))],
      originalFetch (mkFetchArgs u (Some (mkOptions (VStr m) b))))) /\
  (forall page u,
     interceptFetch page (mkFetchArgs u None) =
     ([CallOriginalFetch (mkFetchArgs u None)], originalFetch (mkFetchArgs u None))) /\
  (forall this data,
     string_or_falsy (_formtrackMethod this) = true ->
     (isGoogleFormsEndpoint (xhr_urlStr (_formtrackUrl this))
      || isMicrosoftFormsEndpoint (xhr_urlStr (_formtrackUrl this))
      || isClickUpFormsEndpoint (xhr_urlStr (_formtrackUrl this)))
       && body_truthy data = false ->
     interceptXHR_send this data =
     ([CallOriginalSend this data], originalSend this data)) /\
  (forall page u m tag,
     sends (fst (interceptFetch page
                   (mkFetchArgs u (Some (mkOptions (VStr m) (BodyOther tag)))))) = []).
Proof.
  repeat apply conj.
  - intros page u m b _ Hskip.
    rewrite interceptFetch_delegates by (by intros o [= <-]).
    unfold fetch_events, fetch_guard_value. simpl.
    by rewrite <- andb_assoc, Hskip, andb_false_r.
  - intros page u. by rewrite interceptFetch_delegates by (by intros o [=]).
  - intros this data Hm Hskip.
    rewrite interceptXHR_send_delegates by done.
    unfold xhr_events. by rewrite Hskip, andb_false_r.
  - intros page u m tag.
    rewrite interceptFetch_delegates by (by intros o [= <-]).
    unfold fetch_events, fetch_try_events, fetch_timers. simpl.
    destruct (fetch_guard_value _); [|done].
    destruct (url_text u) as [urlStr|]; [|done].
    by destruct (isGoogleFormsEndpoint urlStr), (isMicrosoftFormsEndpoint urlStr),
      (isClickUpFormsEndpoint urlStr).
Qed.

(** The witness of X10: a GET with a body to a Google Forms endpoint. *)
Lemma requests_passed_through_witness :
  @interceptFetch browser contact_page get_request =
  ([CallOriginalFetch get_request], Returned "fetch response").
Proof.
  exact (proj1 (@requests_passed_through browser) contact_page
           (UrlString formResponse_url) "get" (BodyString "entry.111=Foo") eq_refl eq_refl).
Defined.

(** ** Endpoint classification *)

(** X11.  The fragment [/api/form/] is in the endpoint table of both
    Microsoft Forms and ClickUp Forms.  A POST to a URL containing it
    schedules the captures of both providers, and the submission built
    from the request is never labelled [clickup-forms]: the wrapped send
    labels it [microsoft-forms], the wrapped fetch [microsoft-forms] or
    [google-forms]. *)
Theorem api_form_endpoint_is_shared `{Host} (urlStr : string) :
  includes "/api/form/" urlStr = true ->
  isMicrosoftFormsEndpoint urlStr = true /\
  isClickUpFormsEndpoint urlStr = true /\
  In (SetTimeout (CaptureSubmission Microsoft) 300) (fetch_timers urlStr) /\
  In (SetTimeout (CaptureSubmission ClickUp) 200) (fetch_timers urlStr) /\
  (fetch_source urlStr = "microsoft-forms" \/ fetch_source urlStr = "google-forms") /\
  (forall formData page data,
     In (SendMessage data)
        (xhrDispatch formData urlStr (isMicrosoftFormsEndpoint urlStr)
           (isClickUpFormsEndpoint urlStr) page) ->
     source data = Some "microsoft-forms").
Proof.
  intros Hfrag.
  assert (isMicrosoftFormsEndpoint urlStr = true) as HM.
  { unfold isMicrosoftFormsEndpoint. rewrite Hfrag. by rewrite !orb_true_r. }
  assert (isClickUpFormsEndpoint urlStr = true) as HC.
  { unfold isClickUpFormsEndpoint. rewrite Hfrag. by rewrite !orb_true_r. }
  unfold fetch_timers, fetch_source. rewrite HM, HC.
  repeat split.
  - destruct (isGoogleFormsEndpoint urlStr); simpl; auto 10.
  - destruct (isGoogleFormsEndpoint urlStr); simpl; auto 10.
  - destruct (isGoogleFormsEndpoint urlStr); auto.
  - intros formData page data [[= <-] | []]. reflexivity.
Qed.

(** The witness of X11: a ClickUp submit URL. *)
Lemma api_form_endpoint_is_shared_witness :
  includes "/api/form/" clickup_api_url = true /\
  @fetch_source clickup_api_url = "microsoft-forms".
Proof.
  assert (includes "/api/form/" clickup_api_url = true) as Hfrag by reflexivity.
  split; [exact Hfrag|].
  destruct (proj1 (proj2 (proj2 (proj2 (proj2
              (@api_form_endpoint_is_shared browser clickup_api_url Hfrag))))))
    as [Hs | Hs]; [exact Hs|].
  vm_compute in Hs. discriminate Hs.
Defined.

(** ** The two body readings side by side *)

Lemma fold_left_ext_in {A B} (f g : A -> B -> A) (l : list B) :
  (forall a b, In b l -> f a b = g a b) ->
  forall a, fold_left f l a = fold_left g l a.
Proof.
  induction l as [|b l IH]; intros Hfg a; simpl; [done|].
  rewrite Hfg by (by left). apply IH. intros a' b' Hin. apply Hfg. by right.
Qed.

Lemma json_entry_plain parsed :
  Forall (fun key => entry_prefixed key = false) (Object_keys parsed) ->
  json_entry_fields parsed = json_plain_fields parsed.
Proof.
  intros Hall. unfold json_entry_fields, json_plain_fields.
  apply fold_left_ext_in. intros formData key Hin.
  rewrite Forall_forall in Hall. apply list_elem_of_In in Hin.
  specialize (Hall key Hin). unfold entry_prefixed in Hall. by rewrite Hall.
Qed.

Lemma string_fields_xhr `{Host} s :
  string_fields xhr_json_fields s =
  match JSON_parse s with
  | Some parsed =>
      if nullish parsed then urlencoded_fields (URLSearchParams s)
      else json_entry_fields parsed
  | None => urlencoded_fields (URLSearchParams s)
  end.
Proof.
  unfold string_fields, xhr_json_fields.
  destruct (JSON_parse s) as [parsed|]; [|done]. by destruct (nullish parsed).
Qed.

(** X12.  The wrapped send and the wrapped fetch read a body alike when
    it is a [FormData], when it is not JSON, and when it is a JSON value
    none of whose keys carries the entry prefix.  They differ only on
    JSON with entry keys: the wrapped send always stores such a key with
    the prefix removed, the wrapped fetch only on a Google Forms endpoint
    whose object has a truthy [entry.] or [entry] member. *)
Theorem xhr_and_fetch_readings `{Host} :
  (forall isGoogle entries,
     xhr_parse_body (BodyFormData entries) =
     fetch_parse_body isGoogle (BodyFormData entries)) /\
  (forall isGoogle s,
     json_fails s = true ->
     xhr_parse_body (BodyString s) = fetch_parse_body isGoogle (BodyString s)) /\
  (forall isGoogle s parsed,
     JSON_parse s = Some parsed -> nullish parsed = false ->
     Forall (fun key => entry_prefixed key = false) (Object_keys parsed) ->
     xhr_parse_body (BodyString s) = fetch_parse_body isGoogle (BodyString s)) /\
  (forall s parsed,
     JSON_parse s = Some parsed -> nullish parsed = false ->
     xhr_parse_body (BodyString s) = json_entry_fields parsed /\
     (has_entry_marker parsed = true ->
      fetch_parse_body true (BodyString s) = json_entry_fields parsed) /\
     fetch_parse_body false (BodyString s) = json_plain_fields parsed).
Proof.
  repeat apply conj.
  - reflexivity.
  - intros isGoogle s Hfail. simpl. rewrite string_fields_xhr, string_fields_fetch.
    unfold json_fails in Hfail.
    destruct (JSON_parse s) as [parsed|]; [by rewrite Hfail | done].
  - intros isGoogle s parsed Hp Hn Hkeys. simpl.
    rewrite string_fields_xhr, string_fields_fetch, Hp, Hn.
    destruct (isGoogle && has_entry_marker parsed); [done|].
    by apply json_entry_plain.
  - intros s parsed Hp Hn. simpl.
    rewrite string_fields_xhr, !string_fields_fetch, Hp, Hn. simpl.
    repeat split. by intros ->.
Qed.

(** The witness of X12: [entry.111=Foo] and [{"email":"a@b.com"}]. *)
Lemma xhr_and_fetch_readings_witness :
  @xhr_parse_body browser (BodyString "entry.111=Foo") =
    @fetch_parse_body browser false (BodyString "entry.111=Foo") /\
  @xhr_parse_body browser (BodyString json_plain_body) =
    @fetch_parse_body browser true (BodyString json_plain_body) /\
  @xhr_parse_body browser (BodyString json_marked_entry) =
    json_entry_fields (VObj [("entry", VNum "1"); ("entry.111", VStr "Foo")]).
Proof.
  destruct (@xhr_and_fetch_readings browser) as (_ & Hurl & Hplain & Hjson).
  split; [|split].
  - apply (Hurl false "entry.111=Foo"). vm_compute. reflexivity.
  - assert (@JSON_parse browser json_plain_body =
            Some (VObj [("email", VStr "a@b.com")])) as Hp by (vm_compute; reflexivity).
    apply (Hplain true json_plain_body _ Hp eq_refl). repeat constructor.
  - assert (@JSON_parse browser json_marked_entry =
            Some (VObj [("entry", VNum "1"); ("entry.111", VStr "Foo")])) as Hp
      by (vm_compute; reflexivity).
    exact (proj1 (Hjson json_marked_entry _ Hp eq_refl)).
Defined.

(** ** The provider scrapers *)

Section Scrapers.

Lemma first_truthy_nonempty (candidates : list (option string)) (fallback : string) :
  nonempty fallback = true -> nonempty (first_truthy candidates fallback) = true.
Proof.
  intros Hf. induction candidates as [|[s|] rest IH]; simpl; auto.
  destruct (nonempty s) eqn:Hs; auto.
Qed.

Lemma filled_truthy (v : JSValue) : filled v = true -> truthy v = true.
Proof. destruct v; simpl; auto; discriminate. Qed.

Lemma scraper_finish_cases (fd : Fields) (q ph : string) (n : option string) (v : JSValue) :
  scraper_finish fd q ph n v = fd \/
  exists k, storable n v = true /\ scraper_finish fd q ph n v = scraper_store fd k v.
Proof.
  unfold scraper_finish. destruct (storable n v) eqn:Hs; [right|left; reflexivity].
  eexists; split; reflexivity.
Qed.

Lemma scraper_finish_null (fd : Fields) (q ph : string) (n : option string) :
  scraper_finish fd q ph n VNull = fd.
Proof.
  unfold scraper_finish, storable. now rewrite andb_false_r.
Qed.

(** The three shapes of a turn of the loop. *)
Lemma scraper_step_cases (p : Provider) (index : nat) (fd : Fields) (e : Scraped) :
  scraper_step p index fd e = fd \/
  (exists k s, nonempty s = true /\
               scraper_step p index fd e = scraper_group fd k (VStr s)) \/
  (exists k n v, storable n v = true /\
                 (v = VUndefined \/ exists s, v = VStr s) /\
                 (has_value e = true -> exists s, v = VStr s) /\
                 scraper_step p index fd e = scraper_store fd k v).
Proof.
  assert (Hshape : value_of (s_value e) = VUndefined \/
                   exists s, value_of (s_value e) = VStr s).
  { unfold value_of. destruct (s_value e); eauto. }
  assert (Htshape : value_or_text e = VUndefined \/ exists s, value_or_text e = VStr s).
  { right. unfold value_or_text. destruct (s_value e) as [v|]; [|eauto].
    destruct (nonempty v); eauto. }
  assert (Hval : has_value e = true -> exists s, value_of (s_value e) = VStr s).
  { unfold has_value, value_of. destruct (s_value e); [eauto|discriminate]. }
  assert (Htext : has_value e = true -> exists s, value_or_text e = VStr s).
  { intros _. unfold value_or_text. destruct (s_value e) as [v|]; [|eauto].
    destruct (nonempty v); eauto. }
  assert (Hfin : forall q ph n v,
            (v = VUndefined \/ exists s, v = VStr s) ->
            (has_value e = true -> exists s, v = VStr s) ->
            scraper_finish fd q ph n v = fd \/
            exists k n' v', storable n' v' = true /\
              (v' = VUndefined \/ exists s, v' = VStr s) /\
              (has_value e = true -> exists s, v' = VStr s) /\
              scraper_finish fd q ph n v = scraper_store fd k v').
  { intros q ph n v Hsh Hv.
    destruct (scraper_finish_cases fd q ph n v) as [H|(k & Hs & H)];
      [left; exact H|right; exists k, n, v; auto]. }
  destruct p; simpl; [unfold google_step|unfold microsoft_step|unfold clickup_step].
  - destruct (is_box e && s_checked e) eqn:Hb.
    + right; left. eexists _, _. split; [|reflexivity].
      now apply first_truthy_nonempty.
    + destruct (type_in _ e); [|destruct (is_box e); [|destruct (tag_is "TEXTAREA" e);
        [|destruct (tag_is "SELECT" e)]]]; cbv zeta iota beta;
        try (left; apply scraper_finish_null);
        match goal with
        | |- context [scraper_finish fd ?q ?ph ?n (value_of ?v)] =>
            destruct (Hfin q ph n (value_of v) Hshape Hval) as [H|H]; [left|right; right]; exact H
        end.
  - destruct (is_box e && s_checked e) eqn:Hb.
    + right; left. eexists _, _. split; [|reflexivity].
      now apply first_truthy_nonempty.
    + destruct (type_in _ e); [|destruct (is_box e);
        [|destruct (tag_is "TEXTAREA" e || role_is "textbox" e);
          [|destruct (tag_is "SELECT" e || role_is "combobox" e)]]]; cbv zeta iota beta;
        try (left; apply scraper_finish_null);
        match goal with
        | |- context [scraper_finish fd ?q ?ph ?n (value_of ?v)] =>
            destruct (Hfin q ph n (value_of v) Hshape Hval) as [H|H]; [left|right; right]; exact H
        | |- context [scraper_finish fd ?q ?ph ?n (value_or_text e)] =>
            destruct (Hfin q ph n (value_or_text e) Htshape Htext) as [H|H];
              [left|right; right]; exact H
        end.
  - destruct (is_box e && s_checked e) eqn:Hb.
    + right; left. eexists _, _. split; [|reflexivity].
      now apply first_truthy_nonempty.
    + destruct (type_in _ e); [|destruct (is_box e);
        [|destruct (tag_is "TEXTAREA" e || role_is "textbox" e);
          [|destruct (tag_is "SELECT" e || role_is "combobox" e)]]]; cbv zeta iota beta;
        try (left; apply scraper_finish_null);
        match goal with
        | |- context [scraper_finish fd ?q ?ph ?n (value_of ?v)] =>
            destruct (Hfin q ph n (value_of v) Hshape Hval) as [H|H]; [left|right; right]; exact H
        | |- context [scraper_finish fd ?q ?ph ?n (value_or_text e)] =>
            destruct (Hfin q ph n (value_or_text e) Htshape Htext) as [H|H];
              [left|right; right]; exact H
        end.
Qed.

Lemma scraper_step_unread (p : Provider) (index : nat) (fd : Fields) (e : Scraped) :
  scraper_reads p e = false -> scraper_step p index fd e = fd.
Proof.
  unfold scraper_reads. intros H.
  apply orb_false_iff in H as [Ht Hr].
  destruct p; simpl in *; [unfold google_step|unfold microsoft_step|unfold clickup_step];
    rewrite Ht; destruct (is_box e) eqn:Hb; simpl in Hr |- *.
  all: try (rewrite Hr; simpl; apply scraper_finish_null).
  - apply orb_false_iff in Hr as [Hr _]. apply orb_false_iff in Hr as [H1 H2].
    rewrite H1, H2. apply scraper_finish_null.
  - apply orb_false_iff in Hr as [Hr Hr']. apply orb_false_iff in Hr as [H1 H2].
    apply orb_false_iff in Hr' as [H3 H4].
    rewrite H1, H2, H3, H4. simpl. apply scraper_finish_null.
  - apply orb_false_iff in Hr as [Hr Hr']. apply orb_false_iff in Hr as [H1 H2].
    apply orb_false_iff in Hr' as [H3 H4].
    rewrite H1, H2, H3, H4. simpl. apply scraper_finish_null.
Qed.

Lemma scrape_app (p : Provider) (l1 l2 : list Scraped) :
  forall index fd,
    scrape p index (l1 ++ l2) fd = scrape p (index + length l1) l2 (scrape p index l1 fd).
Proof.
  induction l1 as [|e l1 IH]; intros index fd; simpl.
  - now rewrite Nat.add_0_r.
  - rewrite IH. f_equal. lia.
Qed.

Lemma object_assign_lookup (st : JSValue) (k : string) :
  forall fd : Fields,
    object_assign fd st !! k =
    if existsb (String.eqb k) (Object_keys st) then Some (js_get st k) else fd !! k.
Proof.
  unfold object_assign. induction (Object_keys st) as [|k' keys IH]; intros fd; simpl.
  - reflexivity.
  - rewrite IH. destruct (String.eqb k k') eqn:Hk; simpl.
    + apply String.eqb_eq in Hk as ->.
      destruct (existsb _ keys); [reflexivity|]. now rewrite lookup_insert_eq.
    + apply String.eqb_neq in Hk.
      destruct (existsb _ keys); [reflexivity|]. now rewrite lookup_insert_ne.
Qed.

Lemma scraper_store_filled (fd : Fields) (k s : string) :
  all_filled fd -> nonempty s = true -> all_filled (scraper_store fd k (VStr s)).
Proof.
  intros Hfd Hs k' v'. unfold scraper_store.
  destruct (fd !! k) as [old|] eqn:Hold.
  - pose proof (Hfd k old Hold) as Ho. rewrite (filled_truthy old Ho).
    destruct old as [| | | |s0|items| |]; try discriminate Ho;
      (destruct (decide (k' = k)) as [->|Hne];
       [rewrite lookup_insert_eq; intros [= <-]|rewrite lookup_insert_ne by auto; apply Hfd]).
    + cbn in Ho |- *. now rewrite Ho, Hs.
    + cbn in Ho |- *. rewrite forallb_app, Ho. cbn. now rewrite Hs.
  - destruct (decide (k' = k)) as [->|Hne];
      [rewrite lookup_insert_eq; intros [= <-]; exact Hs
      |rewrite lookup_insert_ne by auto; apply Hfd].
Qed.

Lemma scraper_group_filled (fd : Fields) (k s : string) :
  all_filled fd -> nonempty s = true -> all_filled (scraper_group fd k (VStr s)).
Proof.
  intros Hfd Hs k' v'. unfold scraper_group.
  destruct (fd !! k) as [old|] eqn:Hold.
  - pose proof (Hfd k old Hold) as Ho. rewrite (filled_truthy old Ho), Hold.
    destruct old as [| | | |s0|items| |]; try discriminate Ho;
      (destruct (decide (k' = k)) as [->|Hne];
       [rewrite lookup_insert_eq; intros [= <-]|rewrite lookup_insert_ne by auto; apply Hfd]).
    + cbn in Ho |- *. now rewrite Ho, Hs.
    + cbn in Ho |- *. rewrite forallb_app, Ho. cbn. now rewrite Hs.
  - rewrite lookup_insert_eq.
    destruct (decide (k' = k)) as [->|Hne].
    + rewrite lookup_insert_eq. intros [= <-]. simpl. now rewrite Hs.
    + rewrite !lookup_insert_ne by auto. apply Hfd.
Qed.

Lemma scrape_filled (p : Provider) (inputs : list Scraped) :
  (forall e, In e inputs -> scraper_reads p e = true -> has_value e = true) ->
  forall index fd, all_filled fd -> all_filled (scrape p index inputs fd).
Proof.
  induction inputs as [|e rest IH]; intros Hin index fd Hfd; simpl; [exact Hfd|].
  apply IH; [intros e' He'; apply Hin; now right|].
  destruct (scraper_reads p e) eqn:Hr.
  - destruct (scraper_step_cases p index fd e)
      as [-> |[(k & s & Hs & ->)|(k & n & v & Hst & _ & Hv & ->)]]; auto.
    + now apply scraper_group_filled.
    + destruct (Hv (Hin e (or_introl eq_refl) Hr)) as [s ->].
      apply scraper_store_filled; auto.
      unfold storable in Hst. apply andb_true_iff in Hst as [_ Hst]. exact Hst.
  - now rewrite scraper_step_unread.
Qed.

End Scrapers.

(** X13.  A scraper never takes anything from an element it does not
    read (for the Google scraper: anything but a text, email, number,
    date or time input, a checked box or radio button, a text area or a
    select): whatever such an element holds, for instance what was typed
    into a password input, the scraped mapping is the same. *)
Theorem scrapers_skip_unread (p : Provider) (before after : list Scraped)
    (e e' : Scraped) (st : JSValue) :
  scraper_reads p e = false ->
  scraper_reads p e' = false ->
  scraped_fields p (before ++ e :: after) st = scraped_fields p (before ++ e' :: after) st.
Proof.
  intros He He'. unfold scraped_fields.
  rewrite !scrape_app. simpl. now rewrite !scraper_step_unread.
Qed.

Lemma scrapers_skip_unread_witness :
  scraper_reads Google (password_input "hunter2") = false /\
  scraper_reads Google (password_input "swordfish") = false /\
  scraped_fields Google ([name_input] ++ password_input "hunter2" :: [name_input]) VUndefined =
  scraped_fields Google ([name_input] ++ password_input "swordfish" :: [name_input]) VUndefined.
Proof.
  split; [reflexivity|]. split; [reflexivity|].
  apply (scrapers_skip_unread Google [name_input] [name_input]); reflexivity.
Defined.



(** X15.  Without internal state, when every element a scraper reads has
    a [value] property (as every input, text area and select has), every
    value of the scraped mapping is a non-empty string or an array of
    non-empty strings.  This is for elements none of whose names and
    labels is the name of a member of [Object.prototype]: the test
    [!formData[key]] would find the inherited member. *)
Theorem scraped_values_filled (p : Provider) (inputs : list Scraped) (st : JSValue) :
  truthy st = false ->
  forallb scraper_plain inputs = true ->
  (forall e, In e inputs -> scraper_reads p e = true -> has_value e = true) ->
  all_filled (scraped_fields p inputs st).
Proof.
  intros Ht _ Hin. unfold scraped_fields, merge_state. rewrite Ht.
  apply scrape_filled; [exact Hin|].
  intros k v Hk. rewrite lookup_empty in Hk. discriminate Hk.
Qed.

Lemma scraped_values_filled_witness :
  all_filled (scraped_fields Microsoft [name_input; checked_box "colour" "blue"] VUndefined).
Proof.
  apply (scraped_values_filled Microsoft); [reflexivity|reflexivity|].
  intros e [<-|[<-|[]]] _; reflexivity.
Defined.



(** ** The background worker *)

Section Background.

Lemma firstn_app_firstn {A : Type} (n : nat) (a b : list A) :
  firstn n (a ++ firstn n b) = firstn n (a ++ b).
Proof.
  rewrite !firstn_app, firstn_firstn. do 2 f_equal. lia.
Qed.

(** The test before [slice] makes no difference. *)
Lemma capped (l : list Submission) :
  (if (MAX_SUBMISSIONS <? length l)%nat then firstn MAX_SUBMISSIONS l else l)
  = firstn MAX_SUBMISSIONS l.
Proof.
  destruct (MAX_SUBMISSIONS <? length l)%nat eqn:H; [reflexivity|].
  apply Nat.ltb_ge in H. symmetry. now apply firstn_all2.
Qed.

Lemma saveSubmission_stored (fault : Fault) (w : Worker) (s : Submission) :
  stored (fst (saveSubmission fault w s)) =
  if save_ok fault then Some (firstn MAX_SUBMISSIONS (s :: default [] (stored w)))
  else stored w.
Proof.
  unfold saveSubmission. rewrite capped. destruct fault; reflexivity.
Qed.

Lemma save_all_stored (runs : list (Fault * Submission)) :
  forall w,
    stored (save_all w runs) =
    match written runs with
    | [] => stored w
    | _ => Some (firstn MAX_SUBMISSIONS (rev (written runs) ++ default [] (stored w)))
    end.
Proof.
  induction runs as [|[fault s] rest IH]; intros w; [reflexivity|].
  cbn [save_all]. rewrite IH, saveSubmission_stored.
  unfold written. cbn [List.filter fst snd].
  destruct (save_ok fault); cbn [map rev].
  - fold (written rest). destruct (written rest) as [|s' ws] eqn:Hw.
    + reflexivity.
    + cbn [default id snd]. f_equal.
      change (s :: default [] (stored w)) with ([s] ++ default [] (stored w))%list.
      rewrite firstn_app_firstn. now rewrite <- !app_assoc.
  - reflexivity.
Qed.

End Background.

Section Overlap.

Lemma save_one_by_one (fault : Fault) (s : Submission) (w : Worker) :
  run_saves w [] [SaveReads fault s; SaveWrites 0] = (fst (saveSubmission fault w s), []).
Proof.
  unfold saveSubmission. destruct fault; reflexivity.
Qed.

Lemma run_one_by_one (runs : list (Fault * Submission)) :
  forall w, run_saves w [] (one_by_one runs) = (save_all w runs, []).
Proof.
  induction runs as [|[fault s] runs IH]; intros w; [reflexivity|].
  cbn [one_by_one flat_map fst snd app save_all].
  pose proof (save_one_by_one fault s w) as Hone. cbn [run_saves] in Hone |- *.
  destruct (save_begin fault s w [] !! 0) as [p|] eqn:Hp.
  - injection Hone as Hw Hd. rewrite Hw, Hd. apply IH.
  - injection Hone as Hw Hd. rewrite <- Hw, Hd. apply IH.
Qed.

Lemma save_end_stored (p : Pending) (w : Worker) :
  stored (save_end p w) = stored w \/
  stored (save_end p w) = Some (firstn MAX_SUBMISSIONS (p_submission p :: p_read p)).
Proof.
  unfold save_end. rewrite capped. destruct (p_fault p); auto.
Qed.

(** What the store can hold after any schedule: what it held, or a list
    written by a save. *)
Lemma run_saves_stored (actions : list SaveAction) :
  forall (Q : option (list Submission) -> Prop) w pending,
    Q (stored w) ->
    (forall s l, Q (Some (firstn MAX_SUBMISSIONS (s :: l)))) ->
    Q (stored (fst (run_saves w pending actions))).
Proof.
  induction actions as [|[fault s|n] rest IH]; intros Q w pending Hw Hwritten;
    cbn [run_saves]; [exact Hw|by apply IH|].
  destruct (pending !! n) as [p|]; [|by apply IH].
  apply IH; [|exact Hwritten].
  destruct (save_end_stored p w) as [-> | ->]; auto.
Qed.

(** Nothing is invented: a stored submission was stored before, or was
    read by a pending save, or arrived during the schedule. *)
Lemma run_saves_known (P : Submission -> Prop) (actions : list SaveAction) :
  (forall fault s, In (SaveReads fault s) actions -> P s) ->
  forall w pending,
    (forall x, In x (default [] (stored w)) -> P x) ->
    (forall p, In p pending -> P (p_submission p) /\ forall x, In x (p_read p) -> P x) ->
    forall x, In x (default [] (stored (fst (run_saves w pending actions)))) -> P x.
Proof.
  induction actions as [|[fault s|n] rest IH]; intros Hact w pending Hw Hp;
    cbn [run_saves]; [exact Hw| |].
  - apply IH; [intros f x Hx; apply (Hact f x); by right|exact Hw|].
    intros p Hin. unfold save_begin in Hin.
    assert (In p pending \/ p = mkPending fault s (default [] (stored w))) as [Hold | ->].
    { destruct fault; try (apply in_app_iff in Hin as [Hin | [<- | []]]); auto. }
    + by apply Hp.
    + cbn. split; [apply (Hact fault s); by left|exact Hw].
  - assert (Hrest : forall f x, In (SaveReads f x) rest -> P x)
      by (intros f x Hx; apply (Hact f x); by right).
    destruct (pending !! n) as [p|] eqn:Hn; [|by apply IH].
    assert (In p pending) as Hin.
    { apply list_elem_of_In. by eapply list_elem_of_lookup_2. }
    destruct (Hp p Hin) as [Hs Hread].
    apply IH; [exact Hrest| |].
    + destruct (save_end_stored p w) as [-> | ->]; [exact Hw|].
      cbn [default]. intros x Hx.
      assert (In x (p_submission p :: p_read p)) as [<- | Hx'].
      { rewrite <- (firstn_skipn MAX_SUBMISSIONS (p_submission p :: p_read p)).
        apply in_or_app. by left. }
      * exact Hs.
      * by apply Hread.
    + intros q Hq. apply Hp. apply list_elem_of_In.
      apply list_elem_of_In in Hq.
      by eapply list_elem_of_delete_inv.
Qed.

End Overlap.

(** X17.  The worker's store holds the most recent [MAX_SUBMISSIONS]
    submissions, newest first, as long as each save ends before the next
    one starts: it is then the first 200 of the submissions written
    (those whose storage read and write went through) in reverse order,
    followed by what was there before; a save whose read or write fails
    changes nothing.  The listener does not wait for a save, so saves
    can overlap.  Under any schedule the store, once written, holds
    between 1 and 200 submissions, each of which was stored before or
    arrived as a message; but a save that reads before another one
    writes overwrites it, and that submission is lost. *)
Theorem saves_keep_recent (w : Worker) :
  (forall runs,
     fst (run_saves w [] (one_by_one runs)) = save_all w runs /\
     stored (save_all w runs) =
       match written runs with
       | [] => stored w
       | _ => Some (firstn MAX_SUBMISSIONS (rev (written runs) ++ default [] (stored w)))
       end) /\
  (forall actions,
     let w' := fst (run_saves w [] actions) in
     (stored w' = stored w \/
      exists l, stored w' = Some l /\ (1 <= length l <= MAX_SUBMISSIONS)%nat) /\
     (forall x, In x (default [] (stored w')) ->
        In x (default [] (stored w)) \/ exists fault, In (SaveReads fault x) actions)) /\
  (forall a b,
     stored (fst (run_saves w [] [SaveReads NoFault a; SaveReads NoFault b;
                                  SaveWrites 0; SaveWrites 0]))
     = stored (fst (saveSubmission NoFault w b))).
Proof.
  split; [|split].
  - intros runs. rewrite run_one_by_one. split; [reflexivity|apply save_all_stored].
  - intros actions w'. split.
    + apply (run_saves_stored actions
               (fun st => st = stored w \/
                          exists l, st = Some l /\ (1 <= length l <= MAX_SUBMISSIONS)%nat));
        [by left|].
      intros s l. right. eexists. split; [reflexivity|].
      rewrite length_firstn. cbn [length]. unfold MAX_SUBMISSIONS.
      generalize (length l). intros n.
      destruct (Nat.min_spec 200 (S n)) as [[Hlt ->]|[Hle ->]]; lia.
    + apply (run_saves_known
               (fun x => In x (default [] (stored w)) \/
                         exists fault, In (SaveReads fault x) actions)).
      * intros fault s Hin. right. eauto.
      * intros x Hx. by left.
      * intros p [].
  - intros a b. cbn. unfold saveSubmission. cbn. reflexivity.
Qed.

Lemma saves_keep_recent_witness :
  stored (fst (run_saves (mkWorker None None EmptyString) []
                 [SaveReads NoFault (submission_of "first");
                  SaveReads NoFault (submission_of "second");
                  SaveWrites 0; SaveWrites 0]))
  = Some [submission_of "second"].
Proof.
  rewrite (proj2 (proj2 (saves_keep_recent (mkWorker None None EmptyString)))
             (submission_of "first") (submission_of "second")).
  reflexivity.
Defined.

Section Badge.

Lemma saveSubmission_rejected (fault : Fault) (w : Worker) (s : Submission) :
  save_ok fault = false -> saveSubmission fault w s = (w, false).
Proof. destruct fault; intros H; try discriminate H; reflexivity. Qed.

Lemma saveSubmission_badge (w : Worker) (s : Submission) :
  badge_counts (fst (saveSubmission NoFault w s)).
Proof.
  unfold badge_counts, saveSubmission. rewrite capped. cbn [fst badge stored default].
  assert ((0 <? length (firstn MAX_SUBMISSIONS (s :: default [] (stored w))))%nat = true)
    as ->; [|reflexivity].
  apply Nat.ltb_lt. rewrite length_firstn. cbn [length]. unfold MAX_SUBMISSIONS.
  generalize (length (default [] (stored w))). intros n.
  destruct (Nat.min_spec 200 (S n)) as [[Hlt ->]|[Hle ->]]; lia.
Qed.

Lemma save_all_badge (runs : list (Fault * Submission)) :
  (forall r, In r runs -> fst r <> BadgeRejects) ->
  forall w, badge_counts w \/ written runs <> [] -> badge_counts (save_all w runs).
Proof.
  induction runs as [|[fault s] rest IH]; intros Hb w Hw; cbn [save_all].
  - destruct Hw as [Hw|Hw]; [exact Hw|contradiction].
  - assert (Hrest : forall r, In r rest -> fst r <> BadgeRejects)
      by (intros r Hr; apply Hb; now right).
    destruct (save_ok fault) eqn:Hok.
    + apply IH; [exact Hrest|left].
      destruct fault; try discriminate Hok.
      * apply saveSubmission_badge.
      * exfalso. now apply (Hb (BadgeRejects, s) (or_introl eq_refl)).
    + rewrite saveSubmission_rejected by exact Hok. apply IH; [exact Hrest|].
      destruct Hw as [Hw|Hw]; [now left|right].
      unfold written in *. cbn [List.filter fst] in Hw. now rewrite Hok in Hw.
Qed.

End Badge.

(** X18.  As long as the badge update itself does not fail, the badge
    shows the number of stored submissions after any run of saves of
    which one at least went through; the empty badge text of the code is
    never written by a save. *)
Theorem badge_shows_count (w : Worker) (runs : list (Fault * Submission)) :
  (forall r, In r runs -> fst r <> BadgeRejects) ->
  written runs <> [] ->
  badge_counts (save_all w runs) /\ stored (save_all w runs) <> Some [].
Proof.
  intros Hb Hw. split; [apply save_all_badge; auto|].
  rewrite save_all_stored.
  destruct (written runs) as [|s ws] eqn:Heq; [contradiction|].
  destruct (exists_last (l := s :: ws)) as (front & x & Hx); [discriminate|].
  rewrite Hx, rev_app_distr. cbn [rev app]. unfold MAX_SUBMISSIONS.
  cbn [firstn]. discriminate.
Qed.

Lemma badge_shows_count_witness :
  badge_counts (save_all (mkWorker None None "stale")
                  [(GetRejects, submission_of "lost"); (NoFault, submission_of "kept")]) /\
  stored (save_all (mkWorker None None "stale")
            [(GetRejects, submission_of "lost"); (NoFault, submission_of "kept")])
  <> Some [].
Proof.
  apply (badge_shows_count (mkWorker None None "stale")
           [(GetRejects, submission_of "lost"); (NoFault, submission_of "kept")]).
  - intros r [<-|[<-|[]]]; discriminate.
  - discriminate.
Defined.

(** X19.  A captured submission is mailed exactly when it was saved (the
    storage read and write went through), the settings could be read,
    both the API key and the recipient are truthy and [emailEnabled] is
    not the boolean [false]; any other value of the flag, and its
    absence, leaves notifications on.  The mail goes to the configured
    recipient, from the configured sender or else from
    [onboarding@resend.dev]; the settings [initStorage] writes never mail
    anything. *)
Theorem email_sent_iff_saved_and_configured (render : Submission -> string)
    (fault : Fault) (get_rejects : bool) (w : Worker) (s : Submission) :
  let st := default no_settings (settings w) in
  let result := snd (onFormSubmission render fault get_rejects w s) in
  ((exists rq, result = Some (Requested rq)) <->
   save_ok fault = true /\ get_rejects = false /\
   truthy (resendApiKey st) = true /\ truthy (emailTo st) = true /\
   emailEnabled st <> VBool false) /\
  (forall rq, result = Some (Requested rq) ->
     rq_apiKey rq = resendApiKey st /\ rq_to rq = emailTo st /\
     truthy (rq_from rq) = true /\
     (truthy (emailFrom st) = false -> rq_from rq = VStr "onboarding@resend.dev")) /\
  (settings w = Some initial_settings \/ settings w = None ->
   forall rq, result <> Some (Requested rq)).
Proof.
  cbv zeta.
  assert (Hset : forall f, settings (fst (saveSubmission f w s)) = settings w).
  { intros f. unfold saveSubmission. destruct f; reflexivity. }
  assert (Hsuccess : forall f, snd (saveSubmission f w s) = save_ok f).
  { intros f. unfold saveSubmission. destruct f; reflexivity. }
  assert (Hfalse : forall v, is_false v = false <-> v <> VBool false).
  { intros v. destruct v as [| |[|]| | | | |]; simpl; split; intros H;
      try reflexivity; try discriminate; try congruence. }
  unfold onFormSubmission.
  destruct (saveSubmission fault w s) as [w' success] eqn:Hsave.
  pose proof (Hset fault) as Hs. pose proof (Hsuccess fault) as Hk.
  rewrite Hsave in Hs, Hk. cbn [fst snd] in Hs, Hk |- *. subst success.
  unfold sendSubmissionEmail. rewrite Hs.
  set (st := default no_settings (settings w)).
  assert (Hinit : settings w = Some initial_settings \/ settings w = None ->
                  truthy (resendApiKey st) = false).
  { intros [H|H]; unfold st; rewrite H; reflexivity. }
  destruct (save_ok fault) eqn:Hok, get_rejects eqn:Hget,
           (truthy (resendApiKey st)) eqn:Hkey, (truthy (emailTo st)) eqn:Hto,
           (is_false (emailEnabled st)) eqn:Hen; cbn [negb orb];
    (split; [split|split]).
  all: try (intros [rq Hrq]; discriminate Hrq).
  all: try (intros (H1 & H2 & H3 & H4 & H5);
            first [discriminate H1|discriminate H2|discriminate H3|discriminate H4
                  |apply Hfalse in H5; rewrite Hen in H5; discriminate H5]).
  all: try (intros rq Hrq; discriminate Hrq).
  all: try (intros Hi rq Hrq; first [discriminate Hrq|apply Hinit in Hi; discriminate Hi]).
  - intros _. repeat split. now apply Hfalse.
  - eauto.
  - intros rq [= <-]. cbn. repeat split.
    + destruct (truthy (emailFrom st)) eqn:Hf; [exact Hf|reflexivity].
    + intros Hf. now rewrite Hf.
Qed.

Lemma email_sent_iff_saved_and_configured_witness :
  exists rq,
    snd (onFormSubmission (fun _ => "html") NoFault false
           (mkWorker None (Some configured) EmptyString) (submission_of "Survey"))
    = Some (Requested rq).
Proof.
  apply (proj1 (email_sent_iff_saved_and_configured (fun _ => "html") NoFault false
                  (mkWorker None (Some configured) EmptyString) (submission_of "Survey"))).
  repeat split. discriminate.
Defined.

(** ** safeSendMessage *)

(** X20.  [safeSendMessage] never throws and never returns a rejected
    promise, whatever the state of the extension runtime and whatever
    [chrome.runtime.sendMessage] does; it hands the message over exactly
    when the runtime, its id and [sendMessage] are there, and it logs
    nothing exactly when the message was handed over and the promise
    fulfilled, one line otherwise. *)
Theorem safeSendMessage_never_fails (chrome : Runtime) :
  ended (safeSendMessage chrome) = Returned Fulfilled /\
  (handed_over (safeSendMessage chrome) = true <-> exists send, chrome = Ready send) /\
  (debug_lines (safeSendMessage chrome) = [] <-> chrome = Ready SendResolves) /\
  (length (debug_lines (safeSendMessage chrome)) <= 1)%nat.
Proof.
  destruct chrome as [| | | | | |[| | |]]; cbn; repeat split;
    try (intros H; discriminate H); try (intros [send H]; discriminate H);
    eauto; lia.
Qed.

(** ** The popup: truncateUrl *)

Section TruncateUrl.

Lemma length_append (a b : string) :
  String.length (a ++ b) = (String.length a + String.length b)%nat.
Proof.
  induction a as [|c a IH]; [reflexivity|].
  rewrite append_cons. simpl. now rewrite IH.
Qed.

Lemma length_string_drop (n : nat) :
  forall s, String.length (string_drop n s) = (String.length s - n)%nat.
Proof.
  induction n as [|n IH]; intros [|c s]; simpl; auto; lia.
Qed.

Lemma length_string_take (n : nat) :
  forall s, String.length (string_take n s) = Nat.min n (String.length s).
Proof.
  induction n as [|n IH]; intros [|c s]; simpl; auto.
Qed.

End TruncateUrl.

(** X21.  On a URL of ASCII characters (as a serialized URL is; its
    length in bytes is then its length as a JavaScript string)
    [truncateUrl] returns a URL of at most [maxLength] characters
    unchanged.  A longer one that does not parse is cut to exactly
    [maxLength] characters, the last three being dots (for [maxLength] of
    three or more).  A longer one that parses, and whose host and path
    together are too long, comes out at exactly [maxLength] characters
    when the host leaves room for the dots, and otherwise longer than
    [maxLength]: the negated slice position is then zero or positive and
    drops characters from the front of the path, or none. *)
Theorem truncateUrl_length (parse : string -> option (string * string)) (url : string)
    (maxLength : nat) :
  nonempty url = true ->
  is_ascii url = true ->
  ((String.length url <= maxLength)%nat -> truncateUrl parse (Some url) maxLength = url) /\
  ((maxLength < String.length url)%nat -> (3 <= maxLength)%nat -> parse url = None ->
   truncateUrl parse (Some url) maxLength = string_take (maxLength - 3) url ++ "..." /\
   String.length (truncateUrl parse (Some url) maxLength) = maxLength) /\
  (forall host path,
     (maxLength < String.length url)%nat -> parse url = Some (host, path) ->
     is_ascii host = true -> is_ascii path = true ->
     (maxLength < String.length host + String.length path)%nat ->
     ((String.length host + 3 < maxLength)%nat ->
      String.length (truncateUrl parse (Some url) maxLength) = maxLength) /\
     ((maxLength <= String.length host + 3)%nat ->
      (maxLength < String.length (truncateUrl parse (Some url) maxLength))%nat)).
Proof.
  intros Hne _. unfold truncateUrl. rewrite Hne. cbn [negb].
  split; [|split].
  - intros Hle. apply Nat.leb_le in Hle. now rewrite Hle.
  - intros Hlt H3 Hp. apply Nat.leb_gt in Hlt as Hlt'. rewrite Hlt', Hp.
    assert (Hpos : slice_position (String.length url) (Z.of_nat maxLength - 3)
                   = (maxLength - 3)%nat).
    { unfold slice_position.
      destruct (Z.ltb_spec (Z.of_nat maxLength - 3) 0); lia. }
    unfold slice_to. rewrite Hpos. split; [reflexivity|].
    rewrite length_append, length_string_take. simpl. lia.
  - intros host path Hlt Hp _ _ Hlong. apply Nat.leb_gt in Hlt as Hlt'. rewrite Hlt', Hp.
    apply Nat.leb_gt in Hlong as Hlong'. rewrite Hlong'.
    rewrite !length_append. unfold slice_from. rewrite length_string_drop.
    unfold slice_position. simpl String.length.
    split; intros Hh;
      destruct (Z.ltb_spec (- (Z.of_nat maxLength - Z.of_nat (String.length host) - 3)) 0);
      lia.
Qed.

Lemma truncateUrl_length_witness :
  String.length
    (truncateUrl parse_https (Some "https://example.com/a/rather/long/path/to/a/form") 20)
  = 20%nat /\
  (20 < String.length
          (truncateUrl parse_https (Some "https://a-very-long-host.example.com/form") 20))%nat.
Proof.
  split.
  - destruct (truncateUrl_length parse_https
                "https://example.com/a/rather/long/path/to/a/form" 20 eq_refl eq_refl)
      as (_ & _ & H).
    destruct (H "example.com" "/a/rather/long/path/to/a/form") as [H1 _];
      [simpl; lia|reflexivity|reflexivity|reflexivity|simpl; lia|].
    apply H1. simpl; lia.
  - destruct (truncateUrl_length parse_https
                "https://a-very-long-host.example.com/form" 20 eq_refl eq_refl)
      as (_ & _ & H).
    destruct (H "a-very-long-host.example.com" "/form") as [_ H2];
      [simpl; lia|reflexivity|reflexivity|reflexivity|simpl; lia|].
    apply H2. simpl; lia.
Defined.

(** ** init *)

Section Init.

Context `{Host}.

Lemma setup_if_now (holds : bool) (p q : Provider) :
  In (SetupNow q) (setup_if holds p) <-> holds = true /\ q = p.
Proof.
  unfold setup_if. destruct holds; simpl; split.
  - intros [[= ->]|[Hd|[]]]; [auto|discriminate Hd].
  - intros [_ ->]. now left.
  - intros [].
  - intros [Hf _]. discriminate Hf.
Qed.

Lemma setup_if_later (holds : bool) (p q : Provider) (delay : nat) :
  In (SetupLater q delay) (setup_if holds p) <-> holds = true /\ q = p /\ delay = 1000%nat.
Proof.
  unfold setup_if. destruct holds; simpl; split.
  - intros [Hd|[[= -> ->]|[]]]; [discriminate Hd|auto].
  - intros (_ & -> & ->). right. now left.
  - intros [].
  - intros [Hf _]. discriminate Hf.
Qed.

Lemma detected_iff (page : Page) (p : Provider) :
  In p (detected page) <->
  match p with
  | Google => isGoogleForm page = true
  | Microsoft => isMicrosoftForm page = true
  | ClickUp => isClickUpForm page = true
  end.
Proof.
  unfold detected.
  destruct (isGoogleForm page), (isMicrosoftForm page), (isClickUpForm page), p;
    simpl; split; intros Hp; try reflexivity; try discriminate Hp;
    repeat (destruct Hp as [Hp|Hp]; try discriminate Hp); auto.
Qed.

Lemma init_members (has_fetch has_xhr : bool) (page : Page) (a : InitAction) :
  In a (init has_fetch has_xhr page) <->
  a = ListenSubmit \/ (has_fetch = true /\ a = InstallFetch) \/
  (has_xhr = true /\ a = InstallXHR) \/
  In a (setup_if (isGoogleForm page) Google) \/
  In a (setup_if (isMicrosoftForm page) Microsoft) \/
  In a (setup_if (isClickUpForm page) ClickUp) \/
  (recheck_host page = true /\ a = Recheck 2000) \/
  a = init_log page.
Proof.
  unfold init. rewrite !in_app_iff.
  assert (Hone : forall (b : bool) (x : InitAction),
            In a (if b then [x] else []) <-> b = true /\ a = x).
  { intros b x. destruct b; simpl; split.
    - intros [<-|[]]; auto.
    - intros [_ ->]; now left.
    - intros [].
    - intros [Hf _]; discriminate Hf. }
  rewrite !Hone. cbn [In].
  split.
  - intros [[<-|[]]|[Hf|[Hx|[Hg|[Hm|[Hc|[Hr|[<-|[]]]]]]]]].
    + now left.
    + right; now left.
    + do 2 right; now left.
    + do 3 right; now left.
    + do 4 right; now left.
    + do 5 right; now left.
    + do 6 right; now left.
    + do 7 right; reflexivity.
  - intros [->|[Hf|[Hx|[Hg|[Hm|[Hc|[Hr| ->]]]]]]].
    + left; now left.
    + right; now left.
    + do 2 right; now left.
    + do 3 right; now left.
    + do 4 right; now left.
    + do 5 right; now left.
    + do 6 right; now left.
    + do 7 right; now left.
Qed.

Lemma detected_recheck (page : Page) :
  toLowerCase (hostname page) = hostname page ->
  detected page <> [] -> recheck_host page = true.
Proof.
  intros Hlow Hd. unfold recheck_host.
  destruct (isGoogleForm page) eqn:Hg.
  { unfold isGoogleForm in Hg. apply andb_true_iff in Hg as [-> _]. reflexivity. }
  destruct (isMicrosoftForm page) eqn:Hm.
  { unfold isMicrosoftForm in Hm. cbv zeta in Hm. rewrite Hlow in Hm.
    destruct (includes "forms.office.com" (hostname page)),
             (includes "forms.microsoft.com" (hostname page)),
             (includes "forms.office365.com" (hostname page));
      try discriminate Hm; cbn [orb]; rewrite ?orb_true_r; reflexivity. }
  destruct (isClickUpForm page) eqn:Hc.
  { unfold isClickUpForm in Hc. cbv zeta in Hc. rewrite Hlow in Hc.
    rewrite Hc. apply orb_true_r. }
  exfalso. apply Hd. unfold detected. now rewrite Hg, Hm, Hc.
Qed.

End Init.

(** X22.  [init] first registers the native submit listener; it sets up
    a provider's monitoring, at once and again after a second, for
    exactly the providers it reports as detected; and when the host name
    is in lower case (as [location.hostname] is) it installs the
    two-second re-check whenever a provider was detected.  The test
    before the re-check reads the host name as it is, the provider tests
    read it in lower case. *)
Theorem init_sets_up_detected `{Host} (has_fetch has_xhr : bool) (page : Page) :
  toLowerCase (hostname page) = hostname page ->
  head (init has_fetch has_xhr page) = Some ListenSubmit /\
  (forall p, In (SetupNow p) (init has_fetch has_xhr page) <-> In p (detected page)) /\
  (forall p delay, In (SetupLater p delay) (init has_fetch has_xhr page) <->
                   In p (detected page) /\ delay = 1000%nat) /\
  (detected page <> [] -> In (Recheck 2000) (init has_fetch has_xhr page)).
Proof.
  intros Hlow. split; [reflexivity|]. split; [|split].
  - intros p. rewrite init_members, !setup_if_now, detected_iff. split.
    + intros [Hd|[[_ Hd]|[[_ Hd]|[[Hg ->]|[[Hm ->]|[[Hc ->]|[[_ Hd]|Hd]]]]]]];
        try discriminate Hd; assumption.
    + intros Hp. destruct p.
      * do 3 right; left; auto.
      * do 4 right; left; auto.
      * do 5 right; left; auto.
  - intros p delay. rewrite init_members, !setup_if_later, detected_iff. split.
    + intros [Hd|[[_ Hd]|[[_ Hd]|[(Hg & -> & ->)|[(Hm & -> & ->)|[(Hc & -> & ->)
               |[[_ Hd]|Hd]]]]]]]; try discriminate Hd; auto.
    + intros [Hp ->]. destruct p.
      * do 3 right; left; auto.
      * do 4 right; left; auto.
      * do 5 right; left; auto.
  - intros Hd. apply init_members. do 6 right. left.
    split; [now apply detected_recheck|reflexivity].
Qed.

Lemma init_sets_up_detected_witness :
  In (SetupLater Microsoft 1000)
     (@init browser true true
        (page_of "https://forms.office.com/r/abc" "forms.office.com" "/r/abc" blank)) /\
  In (Recheck 2000)
     (@init browser true true
        (page_of "https://forms.office.com/r/abc" "forms.office.com" "/r/abc" blank)).
Proof.
  destruct (@init_sets_up_detected browser true true
              (page_of "https://forms.office.com/r/abc" "forms.office.com" "/r/abc" blank)
              eq_refl) as (_ & _ & Hlater & Hre).
  split.
  - apply Hlater. split; [|reflexivity]. apply detected_iff. reflexivity.
  - apply Hre. intros Hd. apply (f_equal (@length Provider)) in Hd. discriminate Hd.
Defined.

(** ** The popup: the source badge *)

(** X23.  The popup never shows the ClickUp badge for a submission that
    the wrapped send built from a request to a URL with the fragment
    [/api/form/], even on a ClickUp page: the label [microsoft-forms]
    that the request gets decides, and the badge is the Microsoft one,
    or the Google one when the page URL contains
    [docs.google.com/forms/].  In general the ClickUp badge needs a
    submission that is neither labelled nor located as a Google or a
    Microsoft form. *)
Theorem api_form_submission_badge `{Host} (urlStr : string) (formData : Fields)
    (page : Page) (data : Submission) :
  includes "/api/form/" urlStr = true ->
  In (SendMessage data)
     (xhrDispatch formData urlStr (isMicrosoftFormsEndpoint urlStr)
        (isClickUpFormsEndpoint urlStr) page) ->
  sourceBadge data =
    Some (if includes "docs.google.com/forms/" (href page) then Google else Microsoft) /\
  (forall s, sourceBadge s = Some ClickUp ->
     source_is "google-forms" s = false /\ source_is "microsoft-forms" s = false /\
     (source_is "clickup-forms" s = true \/ includes "forms.clickup.com" (url s) = true)).
Proof.
  intros Hfrag Hin.
  assert (isMicrosoftFormsEndpoint urlStr = true) as HM.
  { unfold isMicrosoftFormsEndpoint. rewrite Hfrag. now rewrite !orb_true_r. }
  split.
  - rewrite HM in Hin. destruct Hin as [[= <-]|[]].
    unfold sourceBadge, source_is. cbn [source url]. cbn [String.eqb].
    change (String.eqb "microsoft-forms" "google-forms") with false.
    change (String.eqb "microsoft-forms" "microsoft-forms") with true.
    cbn [orb]. destruct (includes "docs.google.com/forms/" (href page)); reflexivity.
  - intros s. unfold sourceBadge.
    destruct (source_is "google-forms" s); cbn [orb]; [intros Hs; discriminate Hs|].
    destruct (includes "docs.google.com/forms/" (url s)); [intros Hs; discriminate Hs|].
    destruct (source_is "microsoft-forms" s); cbn [orb]; [intros Hs; discriminate Hs|].
    destruct (includes "forms.office.com" (url s)); cbn [orb];
      [intros Hs; discriminate Hs|].
    destruct (includes "forms.microsoft.com" (url s)); cbn [orb];
      [intros Hs; discriminate Hs|].
    destruct (includes "forms.office365.com" (url s)); cbn [orb];
      [intros Hs; discriminate Hs|].
    destruct (source_is "clickup-forms" s); cbn [orb]; [auto|].
    destruct (includes "forms.clickup.com" (url s)); [auto|].
    intros Hs; discriminate Hs.
Qed.

Lemma api_form_submission_badge_witness :
  sourceBadge clickup_api_submission = Some Microsoft.
Proof.
  apply (@api_form_submission_badge browser clickup_api_url ∅ clickup_page
           clickup_api_submission eq_refl).
  left. reflexivity.
Defined.

(** ** When a scraper finds nothing *)

Section ScraperEmpty.

Lemma scraper_store_nonempty (fd : Fields) (k : string) (v : JSValue) :
  scraper_store fd k v <> ∅.
Proof.
  unfold scraper_store.
  destruct (fd !! k) as [old|]; [destruct (truthy old); [destruct old|]|];
    apply insert_non_empty.
Qed.

Lemma scraper_group_nonempty (fd : Fields) (k : string) (v : JSValue) :
  scraper_group fd k v <> ∅.
Proof.
  unfold scraper_group.
  destruct (fd !! k) as [old|] eqn:Hold.
  - destruct (truthy old).
    + rewrite Hold. destruct old; apply insert_non_empty.
    + rewrite lookup_insert_eq. apply insert_non_empty.
  - rewrite lookup_insert_eq. apply insert_non_empty.
Qed.

Lemma scraper_finish_some (fd : Fields) (q ph n : string) (v : JSValue) :
  nonempty n = true ->
  scraper_finish fd q ph (Some n) v = fd /\ not_blank v = false \/
  scraper_finish fd q ph (Some n) v <> ∅ /\ not_blank v = true.
Proof.
  intros Hn. unfold scraper_finish, storable. cbn [opt_truthy]. rewrite Hn. cbn [andb].
  fold (not_blank v). destruct (not_blank v); [right|left]; split; auto.
  apply scraper_store_nonempty.
Qed.

(** A turn of the loop adds to the mapping exactly when the element
    contributes. *)
Lemma scraper_step_contributes (p : Provider) (index : nat) (fd : Fields) (e : Scraped) :
  scraper_step p index fd e = fd /\ scraper_contributes p e = false \/
  scraper_step p index fd e <> ∅ /\ scraper_contributes p e = true.
Proof.
  assert (Hq : forall l, nonempty (first_truthy l ("Question " ++ decimal (index + 1)))
                         = true)
    by (intros l; now apply first_truthy_nonempty).
  assert (Hf : forall l, nonempty (first_truthy l ("Field " ++ decimal (index + 1)))
                         = true)
    by (intros l; now apply first_truthy_nonempty).
  assert (Hnn : forall l1 l2 fb, nonempty fb = true ->
                  nonempty (first_truthy l1 (first_truthy l2 fb)) = true)
    by (intros; now repeat apply first_truthy_nonempty).
  unfold scraper_contributes.
  destruct p; cbn [scraper_step text_types];
    [unfold google_step|unfold microsoft_step|unfold clickup_step];
    (destruct (is_box e && s_checked e) eqn:Hb;
     [right; split; [apply scraper_group_nonempty|reflexivity]|]);
    destruct (type_in _ e); cbv beta iota zeta.
  - cbn [opt_truthy]. rewrite Hnn by reflexivity. rewrite andb_false_r.
    apply scraper_finish_some. now apply Hnn.
  - destruct (is_box e); [left; split; [apply scraper_finish_null|reflexivity]|].
    destruct (tag_is "TEXTAREA" e); cbn [orb]; cbv beta iota zeta.
    + cbn [opt_truthy]. rewrite Hnn by reflexivity. rewrite andb_false_r.
      apply scraper_finish_some. now apply Hnn.
    + destruct (tag_is "SELECT" e); cbv beta iota zeta.
      * cbn [opt_truthy]. rewrite Hnn by reflexivity. rewrite andb_false_r.
        apply scraper_finish_some. now apply Hnn.
      * left; split; [apply scraper_finish_null|reflexivity].
  - apply scraper_finish_some. now apply Hnn.
  - destruct (is_box e); [left; split; [apply scraper_finish_null|reflexivity]|].
    destruct (tag_is "TEXTAREA" e || role_is "textbox" e); cbv beta iota zeta;
      [apply scraper_finish_some; now apply Hnn|].
    destruct (tag_is "SELECT" e || role_is "combobox" e); cbv beta iota zeta;
      [apply scraper_finish_some; now apply Hnn|].
    left; split; [apply scraper_finish_null|reflexivity].
  - apply scraper_finish_some. now apply Hnn.
  - destruct (is_box e); [left; split; [apply scraper_finish_null|reflexivity]|].
    destruct (tag_is "TEXTAREA" e || role_is "textbox" e); cbv beta iota zeta;
      [apply scraper_finish_some; now apply Hnn|].
    destruct (tag_is "SELECT" e || role_is "combobox" e); cbv beta iota zeta;
      [apply scraper_finish_some; now apply Hnn|].
    left; split; [apply scraper_finish_null|reflexivity].
Qed.

Lemma scraper_step_keeps (p : Provider) (index : nat) (fd : Fields) (e : Scraped) :
  fd <> ∅ -> scraper_step p index fd e <> ∅.
Proof.
  intros Hfd. destruct (scraper_step_contributes p index fd e) as [[-> _]|[Hne _]]; auto.
Qed.



End ScraperEmpty.



(** ** Field values, path by path *)

Section FieldValues.

Lemma filled_not_void (v : JSValue) : filled v = true -> not_void v = true.
Proof.
  destruct v as [| | | |s|items| |]; cbn; try discriminate; auto.
  intros Hall. rewrite forallb_forall in Hall |- *. intros x Hx.
  specialize (Hall x Hx). destruct x; try discriminate Hall; exact Hall.
Qed.

Lemma not_void_no_empty (v : JSValue) : not_void v = true -> no_empty_string v = true.
Proof.
  destruct v as [| | | |s|items| |]; cbn; auto.
  intros Hall. rewrite forallb_forall in Hall |- *. intros x Hx.
  specialize (Hall x Hx). destruct x; auto.
Qed.

Lemma has_non_space_nonempty (s : string) : has_non_space s = true -> nonempty s = true.
Proof. destruct s; [discriminate|reflexivity]. Qed.

Lemma scraper_store_no_empty (fd : Fields) (k : string) (v : JSValue) :
  (forall k' x, fd !! k' = Some x -> no_empty_string x = true) ->
  (v = VUndefined \/ exists s, v = VStr s /\ nonempty s = true) ->
  forall k' x, scraper_store fd k v !! k' = Some x -> no_empty_string x = true.
Proof.
  intros Hfd Hv k' x. unfold scraper_store.
  assert (Hitem : not_empty_item v = true).
  { destruct Hv as [-> |(s & -> & Hs)]; [reflexivity|exact Hs]. }
  assert (Hself : no_empty_string v = true).
  { destruct Hv as [-> |(s & -> & Hs)]; [reflexivity|exact Hs]. }
  destruct (fd !! k) as [old|] eqn:Hold.
  - pose proof (Hfd k old Hold) as Ho.
    destruct (truthy old);
      [destruct old as [| | | |s0|items| |]|];
      (destruct (decide (k' = k)) as [->|Hne];
       [rewrite lookup_insert_eq; intros [= <-]|rewrite lookup_insert_ne by auto; apply Hfd]);
      cbn in Ho |- *; rewrite ?Hitem, ?Ho; auto.
    rewrite forallb_app, Ho. cbn. now rewrite Hitem.
  - destruct (decide (k' = k)) as [->|Hne];
      [rewrite lookup_insert_eq; intros [= <-]; exact Hself
      |rewrite lookup_insert_ne by auto; apply Hfd].
Qed.

Lemma scraper_group_no_empty (fd : Fields) (k s : string) :
  (forall k' x, fd !! k' = Some x -> no_empty_string x = true) ->
  nonempty s = true ->
  forall k' x, scraper_group fd k (VStr s) !! k' = Some x -> no_empty_string x = true.
Proof.
  intros Hfd Hs k' x. unfold scraper_group.
  destruct (fd !! k) as [old|] eqn:Hold.
  - pose proof (Hfd k old Hold) as Ho. destruct (truthy old).
    + rewrite Hold.
      destruct old as [| | | |s0|items| |];
        (destruct (decide (k' = k)) as [-> |Hne];
         [rewrite lookup_insert_eq; intros [= <-]
         |rewrite lookup_insert_ne by auto; apply Hfd]);
        cbn in Ho |- *; rewrite ?Hs, ?Ho; auto.
      rewrite forallb_app, Ho. cbn. now rewrite Hs.
    + rewrite lookup_insert_eq.
      destruct (decide (k' = k)) as [-> |Hne].
      * rewrite lookup_insert_eq. intros [= <-]. cbn. now rewrite Hs.
      * rewrite !lookup_insert_ne by auto. apply Hfd.
  - rewrite lookup_insert_eq.
    destruct (decide (k' = k)) as [->|Hne].
    + rewrite lookup_insert_eq. intros [= <-]. cbn. now rewrite Hs.
    + rewrite !lookup_insert_ne by auto. apply Hfd.
Qed.

Lemma scrape_no_empty (p : Provider) (inputs : list Scraped) :
  forall index fd,
    (forall k x, fd !! k = Some x -> no_empty_string x = true) ->
    forall k x, scrape p index inputs fd !! k = Some x -> no_empty_string x = true.
Proof.
  induction inputs as [|e rest IH]; intros index fd Hfd; cbn [scrape]; [exact Hfd|].
  apply IH.
  destruct (scraper_step_cases p index fd e)
    as [-> |[(k & s & Hs & ->)|(k & n & v & Hst & Hsh & _ & ->)]]; auto.
  - now apply scraper_group_no_empty.
  - apply scraper_store_no_empty; auto.
    destruct Hsh as [-> |[s ->]]; [now left|right].
    exists s. split; [reflexivity|].
    unfold storable in Hst. apply andb_true_iff in Hst as [_ Hst]. exact Hst.
Qed.

Lemma string_fields_values `{Host} (json_fields : JSValue -> Outcome Fields) (s k : string)
    (v : JSValue) :
  (forall parsed fd, json_fields parsed = Returned fd ->
     fd = json_plain_fields parsed \/ fd = json_entry_fields parsed) ->
  string_fields json_fields s !! k = Some v ->
  (exists key text, In (key, text) (URLSearchParams s) /\ v = VStr text) \/
  (exists parsed key, JSON_parse s = Some parsed /\ In key (Object_keys parsed) /\
                      v = js_get parsed key).
Proof.
  intros Hjson. unfold string_fields.
  assert (Hurl : urlencoded_fields (URLSearchParams s) !! k = Some v ->
                 exists key text, In (key, text) (URLSearchParams s) /\ v = VStr text).
  { intros Hk.
    destruct (proj2 (fetch_parse_body_values true) _ _ _ Hk) as (key & text & Hin & -> & _).
    eauto. }
  destruct (JSON_parse s) as [parsed|] eqn:Hp; [|intros Hk; left; auto].
  destruct (json_fields parsed) as [fd|e] eqn:Hfd; [|intros Hk; left; auto].
  intros Hk. right. exists parsed.
  destruct (Hjson parsed fd Hfd) as [Hfd' | Hfd']; subst fd.
  - apply json_plain_fields_values in Hk as [Hin ->]. eauto.
  - apply json_entry_fields_values in Hk as (key & Hin & _ & ->). eauto.
Qed.

End FieldValues.

(** C5, amended.  Which submissions carry no empty-string and no
    [undefined] value.
    - The native submit path (the generic extractor): none of its values
      is the empty string or [undefined].
    - The last-resort pass of a capture chain: the same.
    - A provider scraper, for what it reads from the document (no
      internal state merged): no value is the empty string; and none is
      [undefined] when every element the scraper reads has a [value]
      property.  What it merges from the page's internal state is copied
      as it is (for a state without a key [__proto__]).
    - The network path: each value is a value of the request body as it
      was parsed (an entry of the [FormData], a URL-encoded value, a
      member of the JSON value); nothing is filtered. *)
Theorem C5_fields_without_empty_values `{Host} :
  (forall page form data k v,
     In (SendMessage data) (captureFormSubmission page form) ->
     fields data !! k = Some v -> v <> VStr EmptyString /\ v <> VUndefined) /\
  (forall c attempts page data k v,
     In (SendMessage data) (attemptCapture c attempts page) ->
     chain_extract c (dom page) = ∅ ->
     fields data !! k = Some v -> v <> VStr EmptyString /\ v <> VUndefined) /\
  (forall p inputs st k v,
     truthy st = false ->
     scraped_fields p inputs st !! k = Some v ->
     v <> VStr EmptyString /\
     ((forall e, In e inputs -> scraper_reads p e = true -> has_value e = true) ->
      v <> VUndefined)) /\
  (forall p inputs st k,
     truthy st = true -> forallb not_proto (Object_keys st) = true ->
     In k (Object_keys st) ->
     scraped_fields p inputs st !! k = Some (js_get st k)) /\
  (forall isGoogle b k v,
     fetch_parse_body isGoogle b !! k = Some v \/ xhr_parse_body b !! k = Some v ->
     match b with
     | BodyFormData entries => In (k, v) entries
     | BodyString s =>
         (exists key text, In (key, text) (URLSearchParams s) /\ v = VStr text) \/
         (exists parsed key, JSON_parse s = Some parsed /\
                             In key (Object_keys parsed) /\ v = js_get parsed key)
     | _ => False
     end).
Proof.
  assert (Hvoid : forall v, not_void v = true -> v <> VStr EmptyString /\ v <> VUndefined).
  { intros v Hv. split; intros ->; discriminate Hv. }
  assert (Hempty : forall v, no_empty_string v = true -> v <> VStr EmptyString).
  { intros v Hv ->. discriminate Hv. }
  split; [|split; [|split; [|split]]].
  - intros page form data k v Hin Hk.
    apply captureFormSubmission_send in Hin as (_ & Hf & _). rewrite Hf in Hk.
    apply Hvoid, filled_not_void.
    eapply (fold_extract_filled (elements form) ∅); [|exact Hk].
    intros k' x Hx. rewrite lookup_empty in Hx. discriminate Hx.
  - intros c attempts page data k v Hin Hnone Hk.
    destruct (attemptCapture_cases c attempts page)
      as [[Hne _]|[(_ & _ & Hrun)|[(_ & _ & _ & Hrun)|(_ & _ & _ & Hrun)]]];
      [contradiction| | |]; rewrite Hrun in Hin.
    + destruct Hin as [Hin|[]]. discriminate Hin.
    + destruct Hin as [[= <-]|[]]. cbn [fields chain_submission] in Hk.
      destruct (proj1 (lastResort_fold c (lastResortInputs (dom page)) ∅) k v Hk)
        as [Hk0|(input & _ & Hb & ->)]; [rewrite lookup_empty in Hk0; discriminate Hk0|].
      apply Hvoid. cbn. apply has_non_space_nonempty.
      unfold lastResort_blank in Hb. now apply negb_false_iff in Hb.
    + destruct Hin as [Hin|[]]. discriminate Hin.
  - intros p inputs st k v Ht Hk. unfold scraped_fields, merge_state in Hk.
    rewrite Ht in Hk. split.
    + apply Hempty. eapply (scrape_no_empty p inputs 0 ∅); [|exact Hk].
      intros k' x Hx. rewrite lookup_empty in Hx. discriminate Hx.
    + intros Hval. apply Hvoid, filled_not_void.
      eapply (scrape_filled p inputs Hval 0 ∅); [|exact Hk].
      intros k' x Hx. rewrite lookup_empty in Hx. discriminate Hx.
  - intros p inputs st k Ht _ Hin. unfold scraped_fields, merge_state. rewrite Ht.
    rewrite object_assign_lookup.
    assert (existsb (String.eqb k) (Object_keys st) = true) as ->; [|reflexivity].
    apply existsb_exists. exists k. split; [exact Hin|apply String.eqb_refl].
  - intros isGoogle b k v Hk.
    destruct b as [|entries|s|tag]; cbn [fetch_parse_body xhr_parse_body] in Hk.
    + destruct Hk as [Hk|Hk]; rewrite lookup_empty in Hk; discriminate Hk.
    + assert (formdata_fields entries !! k = Some v) as Hf by (destruct Hk; assumption).
      exact (proj1 (fetch_parse_body_values isGoogle) entries k v Hf).
    + destruct Hk as [Hk|Hk]; revert Hk; apply string_fields_values.
      * intros parsed fd. unfold fetch_json_fields.
        destruct (nullish parsed); [discriminate|].
        destruct isGoogle; [destruct (has_entry_marker parsed)|]; intros [= <-]; auto.
      * intros parsed fd. unfold xhr_json_fields.
        destruct (nullish parsed); [discriminate|]. intros [= <-]; auto.
    + destruct Hk as [Hk|Hk]; rewrite lookup_empty in Hk; discriminate Hk.
Qed.

(** The witness of C5: the newsletter form, whose second control is
    empty, is sent with the one filled value. *)
Lemma C5_fields_without_empty_values_witness :
  exists data,
    In (SendMessage data) (@captureFormSubmission browser contact_page newsletter_form) /\
    fields data !! "email" = Some (VStr "a@b.com") /\
    (VStr "a@b.com" <> VStr EmptyString /\ VStr "a@b.com" <> VUndefined).
Proof.
  pose (data := {| url := "https://example.com/contact";
                   action := "https://example.com/subscribe";
                   timestamp := now contact_page;
                   fields := extractFormData (elements newsletter_form);
                   title := "A page";
                   source := None |}).
  assert (In (SendMessage data) (@captureFormSubmission browser contact_page newsletter_form))
    as Hin by (apply sends_In; vm_compute; left; reflexivity).
  assert (fields data !! "email" = Some (VStr "a@b.com")) as Hk
    by (vm_compute; reflexivity).
  exists data. split; [exact Hin|]. split; [exact Hk|].
  exact (proj1 (@C5_fields_without_empty_values browser) contact_page newsletter_form data
           "email" (VStr "a@b.com") Hin Hk).
Defined.
